(** * Request Network: payment-network extensions, balance aggregation,
      aggregator map and conversion freshness

    A shallow embedding of four pieces of the repository:

    - [packages/advanced-logic/.../any-to-erc20-proxy.ts]
      (module [AnyToErc20Proxy]),
    - [packages/request-client.js/.../erc20/address-based.ts]
      (module [Erc20AddressBased]),
    - [packages/toolbox/src/chainlinkConversionPathTools.ts]
      (module [ChainlinkTools]),
    - the Solidity contract [ProxyChainlinkConversionPath]
      (module [ProxyChainlinkConversionPath]).

    Thrown JavaScript errors and Solidity reverts are values [Throw msg] of
    the type [result]; the message is the one the source builds. *)

From Stdlib Require Import ZArith String Ascii List Lia DecimalString DecimalZ.
From Stdlib Require Import Sorting.Sorted Sorting.Permutation.
From stdpp Require Import base option gmap strings list fin_maps.

Open Scope string_scope.
Open Scope list_scope.
Open Scope Z_scope.

(* ===================================================================== *)
(** * Results: a value or a thrown error *)
(* ===================================================================== *)

Inductive result (A : Type) : Type :=
| Ok (a : A)
| Throw (msg : string).
Arguments Ok {A} a.
Arguments Throw {A} msg.

#[global] Instance result_ret : MRet result := @Ok.
#[global] Instance result_bind : MBind result :=
  fun A B (f : A -> result B) (m : result A) =>
    match m with
    | Ok a => f a
    | Throw msg => Throw msg
    end.

Definition is_throw {A} (r : result A) : Prop :=
  match r with Ok _ => False | Throw _ => True end.

Definition is_ok {A} (r : result A) : Prop :=
  match r with Ok _ => True | Throw _ => False end.

(* ===================================================================== *)
(** * The JavaScript library functions the sources call *)
(* ===================================================================== *)

Module Js.

(** Values of fields the TypeScript sources type as [any]. *)
Inductive value : Type :=
| Undefined
| Str (s : string)
| Num (z : Z)
| Strs (l : list string).

(** JavaScript truthiness: [undefined], the empty string and [0] are
    falsy; every array, also the empty one, is truthy. *)
Definition truthy (v : value) : bool :=
  match v with
  | Undefined => false
  | Str s => negb (String.eqb s "")
  | Num z => negb (Z.eqb z 0)
  | Strs _ => true
  end.

Definition of_string (o : option string) : value :=
  match o with Some s => Str s | None => Undefined end.

Definition of_number (o : option Z) : value :=
  match o with Some z => Num z | None => Undefined end.

Definition of_strings (o : option (list string)) : value :=
  match o with Some l => Strs l | None => Undefined end.

(** [s || d] on an optional string: the default is taken when the string
    is absent or empty. *)
Definition or_string (o : option string) (d : string) : string :=
  match o with
  | Some s => if String.eqb s "" then d else s
  | None => d
  end.

(** [String.prototype.toLowerCase] on the ASCII range, which is where
    currency codes and hexadecimal addresses live: [A]..[Z] are moved
    to [a]..[z], every other byte is kept. *)
Definition lower_ascii (c : ascii) : ascii :=
  let n := nat_of_ascii c in
  if (Nat.leb 65 n && Nat.leb n 90)%bool then ascii_of_nat (n + 32) else c.

Fixpoint toLowerCase (s : string) : string :=
  match s with
  | EmptyString => EmptyString
  | String c rest => String (lower_ascii c) (toLowerCase rest)
  end.

(** [Array.prototype.includes] on an array of strings. *)
Definition includes (l : list string) (x : string) : bool :=
  existsb (String.eqb x) l.

(** [Array.prototype.some]. *)
Definition some {A} (p : A -> bool) (l : list A) : bool := existsb p l.

(** The names every object literal inherits from [Object.prototype]. *)
Definition objectPrototypeKeys : list string :=
  [ "constructor"; "__defineGetter__"; "__defineSetter__"; "hasOwnProperty";
    "__lookupGetter__"; "__lookupSetter__"; "isPrototypeOf";
    "propertyIsEnumerable"; "toString"; "valueOf"; "__proto__";
    "toLocaleString" ].

(** What a property read [obj[key]] finds on an object literal: an own
    property, or a member of [Object.prototype] (a function, or the
    prototype itself under [__proto__]); otherwise the read gives
    [undefined]. *)
Inductive property (A : Type) : Type :=
| Own (a : A)
| Inherited (key : string).

Arguments Own {A} a.
Arguments Inherited {A} key.

(** [obj[key]] on the object literal whose own properties are the entries
    of [obj]. *)
Definition read {A} (obj : gmap string A) (key : string) : option (property A) :=
  match obj !! key with
  | Some a => Some (Own a)
  | None => if includes objectPrototypeKeys key then Some (Inherited key) else None
  end.

End Js.

(* ===================================================================== *)
(** * The shared types of the request logic and of the extensions *)
(* ===================================================================== *)

Module Types.

(** [RequestLogicTypes.CURRENCY]. *)
Inductive CURRENCY : Type := ISO4217 | ERC20 | ETH | BTC.

#[global] Instance CURRENCY_eq_dec : EqDecision CURRENCY.
Proof. solve_decision. Defined.

Definition CURRENCY_to_nat (c : CURRENCY) : nat :=
  match c with ISO4217 => 0 | ERC20 => 1 | ETH => 2 | BTC => 3 end%nat.

Definition CURRENCY_of_nat (n : nat) : option CURRENCY :=
  match n with
  | 0 => Some ISO4217 | 1 => Some ERC20 | 2 => Some ETH | 3 => Some BTC
  | _ => None
  end%nat.

#[global] Instance CURRENCY_countable : Countable CURRENCY.
Proof.
  refine (inj_countable CURRENCY_to_nat CURRENCY_of_nat _).
  intros []; reflexivity.
Defined.

(** The string an enum member prints as in an error message. *)
Definition CURRENCY_name (c : CURRENCY) : string :=
  match c with
  | ISO4217 => "ISO4217" | ERC20 => "ERC20" | ETH => "ETH" | BTC => "BTC"
  end.

(** [RequestLogicTypes.ICurrency]. *)
Record ICurrency : Type := {
  cur_type : CURRENCY;
  cur_value : string;
  cur_network : option string;
}.

(** [IdentityTypes.IIdentity]. *)
Record IIdentity : Type := {
  identity_type : string;
  identity_value : string;
}.

(** The parameters of an extension action; every field is optional. The
    creation parameters have the same fields. *)
Record Parameters : Type := {
  feeAddress : option string;
  feeAmount : option string;
  paymentAddress : option string;
  refundAddress : option string;
  salt : option string;
  network : option string;
  acceptedTokens : option (list string);
  maxRateTimespan : option Z;
}.

(** [ExtensionTypes.IAction]. The action type is the string found in the
    action log, so that types outside the enumeration can occur. *)
Record IAction : Type := {
  action : string;
  id : string;
  parameters : Parameters;
  version : option string;
}.

(** [ExtensionTypes.IEvent] and [ExtensionTypes.IState]. *)
Record IEvent : Type := {
  event_name : string;
  event_parameters : gmap string Js.value;
  event_timestamp : Z;
}.

Record IState : Type := {
  state_id : string;
  state_type : string;
  state_version : string;
  state_values : gmap string Js.value;
  state_events : list IEvent;
}.

(** [RequestLogicTypes.IRequest], with the fields the sources read. *)
Record IRequest : Type := {
  currency : ICurrency;
  extensions : gmap string IState;
  payee : option IIdentity;
  payer : option IIdentity;
}.

(** [ExtensionTypes.PnFeeReferenceBased.ACTION]. The enumeration is
    declared in the types package; the development relies only on its
    four members being different strings. *)
Module ACTION.
Definition CREATE : string := "create".
Definition ADD_PAYMENT_ADDRESS : string := "addPaymentAddress".
Definition ADD_REFUND_ADDRESS : string := "addRefundAddress".
Definition ADD_FEE : string := "addFee".
End ACTION.

(** [ExtensionTypes.ID.PAYMENT_NETWORK_ERC20_ADDRESS_BASED]. *)
Definition PAYMENT_NETWORK_ERC20_ADDRESS_BASED : string :=
  "pn-erc20-address-based".

End Types.

(* ===================================================================== *)
(** * [any-to-erc20-proxy.ts] *)
(* ===================================================================== *)

Module AnyToErc20Proxy.

Import Types.

Definition CURRENT_VERSION : string := "0.1.0".
Definition DEFAULT_NETWORK : string := "mainnet".

(** The static table [supportedCurrencies]:
    network -> currency type -> accepted values. *)
Definition supportedCurrencies : gmap string (gmap CURRENCY (list string)) :=
  {[ "private" :=
       {[ ISO4217 := ["USD"; "EUR"];
          ERC20 := ["0x38cf23c52bb4b13f051aec09580a2de845a7fa35"];
          ETH := ["ETH"];
          BTC := [] ]};
     "rinkeby" :=
       {[ ISO4217 := ["EUR"; "GBP"; "USD"];
          ERC20 := ["0xfab46e002bbf0b4509813474841e0716e6730136"];
          ETH := ["ETH"];
          BTC := [] ]};
     "mainnet" :=
       {[ ISO4217 := ["AUD"; "CAD"; "CHF"; "EUR"; "GBP"; "SGD"; "USD"];
          ERC20 :=
            [ "0x1f573d6fb3f13d689ff844b4ce37794d79a7ff1c";
              "0x3845badade8e6dff049820680d1f14bd3903a5d0";
              "0x4e15361fd6b4bb609fa63c81a2be19d873717870";
              "0x6b175474e89094c44da98b954eedeac495271d0f";
              "0x7fc66500c84a76ad7e9c93437bfc5ac33e2ddae9";
              "0x8290333cef9e6d528dd5618fb97a76f268f3edd4";
              "0x967da4048cd07ab37855c090aaf366e4ce1b9f48";
              "0x9f8f72aa9304c8b593d555f12ef6589cc3a579a2";
              "0xa0b86991c6218b36c1d19d4a2e9eb0ce3606eb48";
              "0xa117000000f279d81a1d3cc75430faa017fa5a2e";
              "0xc944e90c64b2c07662a292be6244bdf05cda44a7";
              "0xdac17f958d2ee523a2206206994597c13d831ec7" ];
          ETH := ["ETH"];
          BTC := [] ]} ]}.

(** The parent class [Erc20FeeProxyPaymentNetwork] and the module
    [ReferenceBased] are other files of the package. Their functions are
    taken as an interface: what this file calls, with the arguments it
    passes. The extension state handed to the three [apply...] functions
    is [copiedExtensionState[extensionAction.id]], which may be
    [undefined], hence the [option]. *)
Class Erc20FeeProxyPaymentNetwork : Type := {
  isValidAddress : string -> bool;
  super_createCreationAction : Parameters -> result IAction;
  super_applyCreation : IAction -> Z -> result IState;
  applyAddFee :
    option IState -> IAction -> IRequest -> IIdentity -> Z -> result IState;
}.

Class ReferenceBased : Type := {
  applyAddPaymentAddress :
    (string -> bool) -> option IState -> IAction -> IRequest ->
    IIdentity -> Z -> result IState;
  applyAddRefundAddress :
    (string -> bool) -> option IState -> IAction -> IRequest ->
    IIdentity -> Z -> result IState;
}.

(** [Utils.deepCopy] belongs to the package [@requestnetwork/utils], which
    is not among the sources. It is taken as an interface, with the one
    property of a copy the development relies on: a copy has no entry for
    a key the original has no entry for. *)
Class Utils : Type := {
  deepCopy : gmap string IState -> gmap string IState;
  deepCopy_absent :
    forall (states : gmap string IState) (key : string),
      states !! key = None -> deepCopy states !! key = None;
}.

(** [supportedCurrencies[network]]: a property read on the object literal,
    which also finds the members of [Object.prototype]. *)
Definition supportedCurrenciesOf (network : string)
    : option (Js.property (gmap CURRENCY (list string))) :=
  Js.read supportedCurrencies network.

(** [supportedCurrencies[network][type]], for what the first read found.
    No member of [Object.prototype] has a property named after a currency
    type, so the read gives [undefined] on an inherited property. *)
Definition currenciesOfType (entry : Js.property (gmap CURRENCY (list string)))
    (type : CURRENCY) : option (list string) :=
  match entry with
  | Js.Own table => table !! type
  | Js.Inherited _ => None
  end.

Section Extension.
Context `{Super : Erc20FeeProxyPaymentNetwork} `{Ref : ReferenceBased}
        `{Copy : Utils}.

(** The loop of [createCreationAction] over the accepted tokens: it
    throws at the first address whose lower-cased form is not
    supported. *)
Fixpoint checkAcceptedTokens (supportedErc20 : list string)
    (network : string) (tokens : list string) : result unit :=
  match tokens with
  | [] => Ok tt
  | address :: rest =>
      if negb (Js.includes supportedErc20 (Js.toLowerCase address)) then
        Throw ("acceptedTokens must contain only supported token addresses (ERC20 only). "
               +:+ address +:+ " is not supported for " +:+ network +:+ ".")
      else checkAcceptedTokens supportedErc20 network rest
  end.

Definition createCreationAction (creationParameters : Parameters)
    : result IAction :=
  match acceptedTokens creationParameters with
  | None | Some [] => Throw "acceptedTokens is required"
  | Some tokens =>
      if Js.some (fun address => negb (isValidAddress address)) tokens then
        Throw "acceptedTokens must contains only valid ethereum addresses"
      else
        match network creationParameters with
        | None => Throw "network is required"
        | Some net =>
            if String.eqb net "" then Throw "network is required"
            else
              match supportedCurrenciesOf net with
              | None => Throw ("network " +:+ net +:+ " not supported")
              | Some entry =>
                  match currenciesOfType entry ERC20 with
                  | None =>
                      Throw "TypeError: Cannot read property 'includes' of undefined"
                  | Some supportedErc20 =>
                      _ ← checkAcceptedTokens supportedErc20 net tokens;
                      super_createCreationAction creationParameters
                  end
              end
        end
  end.

(** [checkSupportedCurrency]. *)
Definition checkSupportedCurrency (currency : ICurrency) (network : string)
    : result unit :=
  match supportedCurrenciesOf network with
  | None =>
      Throw ("The network (" +:+ network
             +:+ ") is not supported for this payment network.")
  | Some entry =>
      match currenciesOfType entry (cur_type currency) with
      | None =>
          Throw ("The currency type (" +:+ CURRENCY_name (cur_type currency)
                 +:+ ") of the request is not supported for this payment network.")
      | Some supported =>
          let normalizedCurrencyValue :=
            if bool_decide (cur_type currency <> ISO4217)
            then Js.toLowerCase (cur_value currency)
            else cur_value currency in
          if negb (Js.includes supported normalizedCurrencyValue) then
            Throw ("The currency (" +:+ cur_value currency
                   +:+ ") of the request is not supported for this payment network.")
          else Ok tt
      end
  end.

(** [applyCreation]. *)
Definition applyCreation (extensionAction : IAction) (timestamp : Z)
    : result IState :=
  let p := parameters extensionAction in
  match network p with
  | None | Some "" => Throw "network is required"
  | Some _ =>
      match acceptedTokens p with
      | None | Some [] =>
          Throw "acceptedTokens is required and cannot be empty"
      | Some tokens =>
          if Js.some (fun address => negb (isValidAddress address)) tokens then
            Throw "acceptedTokens must contains only valid ethereum addresses"
          else
            feePNCreationAction ← super_applyCreation extensionAction timestamp;
            Ok {| state_id := state_id feePNCreationAction;
                  state_type := state_type feePNCreationAction;
                  state_version := state_version feePNCreationAction;
                  state_events :=
                    [ {| event_name := "create";
                         event_parameters :=
                           {[ "feeAddress" := Js.of_string (feeAddress p);
                              "feeAmount" := Js.of_string (feeAmount p);
                              "paymentAddress" := Js.of_string (paymentAddress p);
                              "refundAddress" := Js.of_string (refundAddress p);
                              "salt" := Js.of_string (salt p);
                              "network" :=
                                Js.Str (Js.or_string (network p) DEFAULT_NETWORK);
                              "acceptedTokens" := Js.of_strings (acceptedTokens p);
                              "maxRateTimespan" :=
                                Js.of_number (maxRateTimespan p) ]};
                         event_timestamp := timestamp |} ];
                  state_values :=
                    <[ "maxRateTimespan" := Js.of_number (maxRateTimespan p) ]>
                    (<[ "acceptedTokens" := Js.of_strings (acceptedTokens p) ]>
                    (<[ "network" :=
                          Js.Str (Js.or_string (network p) DEFAULT_NETWORK) ]>
                       (state_values feePNCreationAction))) |}
      end
  end.

(** [applyActionToExtension]. *)
Definition applyActionToExtension
    (extensionsState : gmap string IState) (extensionAction : IAction)
    (requestState : IRequest) (actionSigner : IIdentity) (timestamp : Z)
    : result (gmap string IState) :=
  _ ← checkSupportedCurrency (currency requestState)
        (Js.or_string (network (parameters extensionAction)) DEFAULT_NETWORK);
  let copiedExtensionState := deepCopy extensionsState in
  let exists_ :=
    bool_decide (is_Some (extensions requestState !! id extensionAction)) in
  if String.eqb (action extensionAction) ACTION.CREATE then
    if exists_ then Throw "This extension has already been created"
    else
      created ← applyCreation extensionAction timestamp;
      Ok (<[ id extensionAction := created ]> copiedExtensionState)
  else if negb exists_ then
    Throw "The extension should be created before receiving any other action"
  else if String.eqb (action extensionAction) ACTION.ADD_PAYMENT_ADDRESS then
    updated ← applyAddPaymentAddress isValidAddress
                (copiedExtensionState !! id extensionAction)
                extensionAction requestState actionSigner timestamp;
    Ok (<[ id extensionAction := updated ]> copiedExtensionState)
  else if String.eqb (action extensionAction) ACTION.ADD_REFUND_ADDRESS then
    updated ← applyAddRefundAddress isValidAddress
                (copiedExtensionState !! id extensionAction)
                extensionAction requestState actionSigner timestamp;
    Ok (<[ id extensionAction := updated ]> copiedExtensionState)
  else if String.eqb (action extensionAction) ACTION.ADD_FEE then
    updated ← applyAddFee
                (copiedExtensionState !! id extensionAction)
                extensionAction requestState actionSigner timestamp;
    Ok (<[ id extensionAction := updated ]> copiedExtensionState)
  else Throw ("Unknown action: " +:+ action extensionAction).

End Extension.

End AnyToErc20Proxy.


(* ===================================================================== *)
(** * [bn.js]: arbitrary-precision integers *)
(* ===================================================================== *)

Module BN.

(** A [bigNumber] is an integer of unbounded size: [Z], with no
    wrap-around and no rounding. [toString] prints it in base ten and
    [of_string] reads a base-ten string; on a string that is not a
    decimal integer bn.js gives no defined value and the model takes 0. *)
Definition toString (z : Z) : string := NilZero.string_of_int (Z.to_int z).

Definition of_string (s : string) : Z :=
  match NilZero.int_of_string s with
  | Some d => Z.of_int d
  | None => 0
  end.

(** [new bigNumber(balance || 0)] on a balance string. *)
Definition of_string_or_zero (s : string) : Z :=
  if String.eqb s "" then 0 else of_string s.

End BN.

(* ===================================================================== *)
(** * [erc20/address-based.ts] *)
(* ===================================================================== *)

Module Erc20AddressBased.

Import Types.

Definition supportedNetworks : list string := ["mainnet"; "rinkeby"; "private"].

(** [Types.EVENTS_NAMES]. *)
Inductive EVENTS_NAMES : Type := PAYMENT | REFUND.

(** [Types.IERC20PaymentEventParameters]. *)
Record IERC20PaymentEventParameters : Type := {
  from : string;
  to : string;
  block : option Z;
  txHash : option string;
}.

(** [Types.ERC20PaymentNetworkEvent]: the amount is a base-ten string, the
    timestamp is optional. *)
Record ERC20PaymentNetworkEvent : Type := {
  amount : string;
  name : EVENTS_NAMES;
  event_params : option IERC20PaymentEventParameters;
  timestamp : option Z;
}.

(** [Types.ERC20BalanceWithEvents]. *)
Record ERC20BalanceWithEvents : Type := {
  balance : string;
  events : list ERC20PaymentNetworkEvent;
}.

(** The arguments of [new Erc20InfoRetriever(...)]: one ledger query. *)
Record Query : Type := {
  tokenContractAddress : string;
  address : Js.value;
  eventName : EVENTS_NAMES;
  query_network : string;
}.

(** [Erc20InfoRetriever.getTransferEvents] is another file of the package
    and reads the ledger: it is taken as an interface. The retrieval may
    fail. *)
Class Erc20InfoRetriever : Type := {
  getTransferEvents : Query -> result (list ERC20PaymentNetworkEvent);
}.

(** What a call of [getBalance(request)] can touch: the request object it
    is handed (a reference to the caller's object, so an assignment to one
    of its fields is seen by the caller) and the ledger, of which the
    queries issued so far are recorded in order. The argument of
    [getBalance] is the [request] of the world the call starts in. *)
Record World : Type := {
  request : IRequest;
  queries : list Query;
}.

(** A computation that reads and writes the world and may throw; the world
    reached when the error is thrown is kept. *)
Definition M (A : Type) : Type := World -> result A * World.

#[global] Instance M_ret : MRet M := fun A (a : A) w => (Ok a, w).
#[global] Instance M_bind : MBind M :=
  fun A B (f : A -> M B) (m : M A) w =>
    match m w with
    | (Ok a, w') => f a w'
    | (Throw msg, w') => (Throw msg, w')
    end.

Definition throw {A} (msg : string) : M A := fun w => (Throw msg, w).

Definition getRequest : M IRequest := fun w => (Ok (request w), w).

(** [request.currency.network = n]. *)
Definition setCurrencyNetwork (n : string) : M unit := fun w =>
  let r := request w in
  let c := currency r in
  (Ok tt,
   {| request :=
        {| currency := {| cur_type := cur_type c;
                          cur_value := cur_value c;
                          cur_network := Some n |};
           extensions := extensions r;
           payee := payee r;
           payer := payer r |};
      queries := queries w |}).

Section Balance.
Context `{Retriever : Erc20InfoRetriever}.

(** [await infoRetriever.getTransferEvents()]: the query reaches the
    ledger, then its answer or its failure comes back. *)
Definition retrieve (q : Query) : M (list ERC20PaymentNetworkEvent) := fun w =>
  (getTransferEvents q,
   {| request := request w; queries := queries w ++ [q] |}).

(** The reducer of [extractBalanceAndEvents]:
    [acc.add(new bigNumber(event.amount))] from [new bigNumber(0)]. *)
Definition sumAmounts (evs : list ERC20PaymentNetworkEvent) : Z :=
  fold_left (fun acc event => acc + BN.of_string (amount event)) evs 0.

Definition extractBalanceAndEvents (address : Js.value)
    (eventName : EVENTS_NAMES) (network : string)
    (tokenContractAddress : string) : M ERC20BalanceWithEvents :=
  evs ← retrieve {| tokenContractAddress := tokenContractAddress;
                    address := address;
                    eventName := eventName;
                    query_network := network |};
  mret {| balance := BN.toString (sumAmounts evs); events := evs |}.

(** The key of the comparator [(a.timestamp || 0) - (b.timestamp || 0)]. *)
Definition timestampOrZero (e : ERC20PaymentNetworkEvent) : Z :=
  default 0 (timestamp e).

(** [Array.prototype.sort] with that comparator. The sort is stable, as
    ECMAScript requires since its 2019 edition: an event goes in front of
    the first event of the sorted rest whose key is not smaller than its
    own. *)
Fixpoint insertEvent (e : ERC20PaymentNetworkEvent)
    (sorted : list ERC20PaymentNetworkEvent) : list ERC20PaymentNetworkEvent :=
  match sorted with
  | [] => [e]
  | x :: rest =>
      if timestampOrZero e <=? timestampOrZero x then e :: x :: rest
      else x :: insertEvent e rest
  end.

Fixpoint sortEvents (l : list ERC20PaymentNetworkEvent)
    : list ERC20PaymentNetworkEvent :=
  match l with
  | [] => []
  | e :: rest => insertEvent e (sortEvents rest)
  end.

(** [request.extensions[ID].values.<field>]: a [TypeError] when the
    extension is not in the request, [undefined] when the field is not in
    its values. *)
Definition extensionValue (r : IRequest) (field : string) : M Js.value :=
  match extensions r !! PAYMENT_NETWORK_ERC20_ADDRESS_BASED with
  | None => throw "TypeError: Cannot read property 'values' of undefined"
  | Some st => mret (default Js.Undefined (state_values st !! field))
  end.

Definition emptyBalance : ERC20BalanceWithEvents :=
  {| balance := "0"; events := [] |}.

(** [getBalance]. *)
Definition getBalance : M ERC20BalanceWithEvents :=
  r0 ← getRequest;
  _ ← (if negb (Js.truthy (Js.of_string (cur_network (currency r0))))
       then setCurrencyNetwork "mainnet" else mret tt);
  r ← getRequest;
  let network := default "" (cur_network (currency r)) in
  if negb (Js.includes supportedNetworks network) then
    throw ("Payment network " +:+ network
           +:+ " not supported by ERC20 payment detection. Supported networks: "
           +:+ "mainnet, rinkeby, private")
  else
    paymentAddress ← extensionValue r "paymentAddress";
    refundAddress ← extensionValue r "refundAddress";
    payments ← (if Js.truthy paymentAddress then
                  extractBalanceAndEvents paymentAddress PAYMENT network
                    (cur_value (currency r))
                else mret emptyBalance);
    refunds ← (if Js.truthy refundAddress then
                 extractBalanceAndEvents refundAddress REFUND network
                   (cur_value (currency r))
               else mret emptyBalance);
    let balance :=
      BN.toString (BN.of_string_or_zero (balance payments)
                   - BN.of_string_or_zero (balance refunds)) in
    let events := sortEvents (events payments ++ events refunds) in
    mret {| balance := balance; events := events |}.

End Balance.

End Erc20AddressBased.

(* ===================================================================== *)
(** * [chainlinkConversionPathTools.ts]: the aggregator map *)
(* ===================================================================== *)

Module ChainlinkTools.

(** The arguments of an [AggregatorUpdated] event. *)
Record AggregatorUpdatedArgs : Type := {
  _input : string;
  _output : string;
  _aggregator : string;
}.

Definition ZERO_ADDRESS : string := "0x0000000000000000000000000000000000000000".

(** One step of the reducer of [getAggregators]. The accumulator is the
    [Map] input currency -> output currency -> aggregator address, taken
    as the finite map of its entries: the order in which a [Map] iterates
    is not part of the model. The inner [Map] is updated in place in the
    source; here the updated inner map is stored again under its key. *)
Definition updateAggregators (aggregators : gmap string (gmap string string))
    (args : AggregatorUpdatedArgs) : gmap string (gmap string string) :=
  if String.eqb (_aggregator args) ZERO_ADDRESS then
    (* aggregators.get(args._input)?.delete(args._output) *)
    let deleted :=
      match aggregators !! _input args with
      | Some outputs => <[ _input args := delete (_output args) outputs ]> aggregators
      | None => aggregators
      end in
    (* if (aggregators.get(args._input)?.size === 0) *)
    match deleted !! _input args with
    | Some outputs =>
        if Nat.eqb (size outputs) 0 then delete (_input args) deleted else deleted
    | None => deleted
    end
  else
    match aggregators !! _input args with
    | None =>
        <[ _input args := {[ _output args := _aggregator args ]} ]> aggregators
    | Some outputs =>
        <[ _input args := <[ _output args := _aggregator args ]> outputs ]> aggregators
    end.

(** [logs.reduce(..., new Map())] over the parsed logs. *)
Definition aggregatorsMaps (logs : list AggregatorUpdatedArgs)
    : gmap string (gmap string string) :=
  fold_left updateAggregators logs ∅.

End ChainlinkTools.

(* ===================================================================== *)
(** * The contract [ProxyChainlinkConversionPath] *)
(* ===================================================================== *)

Module SafeMath.

(** The library the contract uses for [uint256], a [Z] between 0 and
    [MAX_UINT256]: every operation reverts instead of wrapping around. In
    [mul] the product is the wrapped one and the division that follows
    detects the overflow. *)
Definition MAX_UINT256 : Z := 2 ^ 256 - 1.

Definition sub (a b : Z) : result Z :=
  if b <=? a then Ok (a - b) else Throw "SafeMath: subtraction overflow".

Definition mul (a b : Z) : result Z :=
  if a =? 0 then Ok 0
  else
    let c := (a * b) mod 2 ^ 256 in
    if c / a =? b then Ok c else Throw "SafeMath: multiplication overflow".

Definition div (a b : Z) : result Z :=
  if 0 <? b then Ok (a / b) else Throw "SafeMath: division by zero".

Definition add (a b : Z) : result Z :=
  let c := (a + b) mod 2 ^ 256 in
  if a <=? c then Ok c else Throw "SafeMath: addition overflow".

End SafeMath.

Module ProxyChainlinkConversionPath.

(** [uint256 public maxTimestampDeltaAcceptable = 600]; the contract has
    no function that assigns it. *)
Definition maxTimestampDeltaAcceptable : Z := 600.

(** [chainlinkConversionPath.getRate(_path)] is a call to another
    contract: it returns [(rate, oldestTimestampRate, decimals)] or
    reverts. *)
Class ChainlinkConversionPath : Type := {
  getRate : list string -> result (Z * Z * Z);
}.

Definition require (cond : bool) (msg : string) : result unit :=
  if cond then Ok tt else Throw msg.

Section Contract.
Context `{Oracle : ChainlinkConversionPath}.

(** [_amount.mul(rate).div(decimals)]. *)
Definition convert (amount rate decimals : Z) : result Z :=
  product ← SafeMath.mul amount rate;
  SafeMath.div product decimals.

(** [getConversions], run in a block whose timestamp is
    [block_timestamp]. *)
Definition getConversions (block_timestamp : Z) (_path : list string)
    (_requestAmount _feesRequestAmount : Z) : result (Z * Z) :=
  '(rate, oldestTimestampRate, decimals) ← getRate _path;
  delta ← SafeMath.sub block_timestamp oldestTimestampRate;
  _ ← require (delta <=? maxTimestampDeltaAcceptable) "aggregator rate is outdated";
  amountToPay ← convert _requestAmount rate decimals;
  amountToPayInFees ← convert _feesRequestAmount rate decimals;
  Ok (amountToPay, amountToPayInFees).

End Contract.

(** The arguments of the [delegatecall] to the payment proxy, which are
    those of its [transferFromWithReferenceAndFee]. *)
Record ProxyCall : Type := {
  call_tokenAddress : string;
  call_to : string;
  call_amount : Z;
  call_paymentReference : string;
  call_feeAmount : Z;
  call_feeAddress : string;
}.

(** The event [TransferWithReferenceAndFee]. *)
Record TransferWithReferenceAndFee : Type := {
  paymentCurrency : string;
  to : string;
  requestAmount : Z;
  requestCurrency : string;
  paymentReference : string;
  feesRequestAmount : Z;
  feesTo : string;
}.

(** What a transaction that does not revert has done: one call to the
    payment proxy and one event. A transaction that reverts leaves
    nothing. *)
Record Receipt : Type := {
  proxyCall : ProxyCall;
  emitted : TransferWithReferenceAndFee;
}.

(** [paymentProxy.delegatecall(...)]: the code of the payment proxy is
    another contract; the call gives back its status. *)
Class PaymentProxy : Type := {
  delegatecall : ProxyCall -> bool;
}.

(** The address [address(0x0)], an address being written as its
    hexadecimal string. *)
Definition ZERO_ADDRESS : string := "0x0000000000000000000000000000000000000000".

(** [_path[i]]: an index outside the array stops the transaction with no
    reason string. *)
Definition at_index (_path : list string) (i : nat) : result string :=
  match nth_error _path i with
  | Some a => Ok a
  | None => Throw ""
  end.

(** [_path[_path.length - 1]]: the subtraction is on [uint256] and is not
    checked, so that on the empty array the index is [2^256 - 1], outside
    the array. *)
Definition at_last (_path : list string) : result string :=
  match _path with
  | [] => Throw ""
  | _ => at_index _path (length _path - 1)
  end.

Section Transfer.
Context `{Oracle : ChainlinkConversionPath} `{Proxy : PaymentProxy}.

(** [transferFromWithReferenceAndFee], run in a block whose timestamp is
    [block_timestamp]. *)
Definition transferFromWithReferenceAndFee (block_timestamp : Z)
    (_to : string) (_requestAmount : Z) (_path : list string)
    (_paymentReference : string) (_feesRequestAmount : Z) (_feesTo : string)
    (_maxToSpend : Z) : result Receipt :=
  last ← at_last _path;
  _ ← require (negb (String.eqb last ZERO_ADDRESS)) "ETH not supported yet";
  '(amountToPay, amountToPayInFees) ←
    getConversions block_timestamp _path _requestAmount _feesRequestAmount;
  total ← SafeMath.add amountToPay amountToPayInFees;
  _ ← require (total <=? _maxToSpend) "Amount to pay is over the user limit";
  paymentCurrency ← at_last _path;
  let call :=
    {| call_tokenAddress := paymentCurrency;
       call_to := _to;
       call_amount := amountToPay;
       call_paymentReference := _paymentReference;
       call_feeAmount := amountToPayInFees;
       call_feeAddress := _feesTo |} in
  _ ← require (delegatecall call) "transferFromWithReferenceAndFee failed";
  paymentCurrency' ← at_last _path;
  requestCurrency ← at_index _path 0;
  Ok {| proxyCall := call;
        emitted :=
          {| paymentCurrency := paymentCurrency';
             to := _to;
             requestAmount := _requestAmount;
             requestCurrency := requestCurrency;
             paymentReference := _paymentReference;
             feesRequestAmount := _feesRequestAmount;
             feesTo := _feesTo |} |}.

End Transfer.

End ProxyChainlinkConversionPath.


(* ===================================================================== *)
(** * JavaScript [Map]s and objects with their iteration order *)
(* ===================================================================== *)

Module JsMap.

(** A [Map] with string keys is the list of its entries in the order in
    which it iterates, which is the order in which the keys were first
    set. A plain object whose keys are not array indices iterates in the
    same way and is modelled by the same lists. *)
Section Entries.
Context {V : Type}.

(** [m.get(k)], [m[k]]. *)
Fixpoint get (k : string) (m : list (string * V)) : option V :=
  match m with
  | [] => None
  | (k', v) :: rest => if String.eqb k k' then Some v else get k rest
  end.

(** [m.set(k, v)], [m[k] = v]: a key that is there keeps its place and
    takes the new value; a new key goes to the end. *)
Fixpoint set (k : string) (v : V) (m : list (string * V)) : list (string * V) :=
  match m with
  | [] => [(k, v)]
  | (k', v') :: rest =>
      if String.eqb k k' then (k', v) :: rest else (k', v') :: set k v rest
  end.

(** [m.delete(k)]. *)
Definition remove (k : string) (m : list (string * V)) : list (string * V) :=
  List.filter (fun entry => negb (String.eqb k (fst entry))) m.

(** [m.has(k)]. *)
Definition has (k : string) (m : list (string * V)) : bool :=
  match get k m with Some _ => true | None => false end.

(** The keys, in iteration order. *)
Definition keys (m : list (string * V)) : list string := map fst m.

End Entries.

End JsMap.

(* ===================================================================== *)
(** * [chainlinkConversionPathTools.ts]: logs, object and graph *)
(* ===================================================================== *)

Module ChainlinkConversionPathTools.

Import ChainlinkTools.

(** [parseLogArgs]: the reducer sets [prev[eventFragment.inputs[i].name]]
    to the i-th argument; an argument beyond the inputs of the fragment
    reads [name] of [undefined]. *)
Fixpoint parseLogArgsFrom {V} (prev : list (string * V))
    (args : list V) (inputs : list string) : result (list (string * V)) :=
  match args with
  | [] => Ok prev
  | current :: rest =>
      match inputs with
      | [] => Throw "TypeError: Cannot read property 'name' of undefined"
      | name :: names => parseLogArgsFrom (JsMap.set name current prev) rest names
      end
  end.

Definition parseLogArgs {V} (args : list V) (inputs : list string)
    : result (list (string * V)) :=
  parseLogArgsFrom [] args inputs.

(** The reducer of [getAggregators] on [Map]s with their order. The inner
    [Map] is changed in place, so that its entry keeps its place in the
    outer one. *)
Definition reduceLog (aggregators : list (string * list (string * string)))
    (args : AggregatorUpdatedArgs) : list (string * list (string * string)) :=
  if String.eqb (_aggregator args) ZERO_ADDRESS then
    let deleted :=
      match JsMap.get (_input args) aggregators with
      | Some outputs =>
          JsMap.set (_input args) (JsMap.remove (_output args) outputs) aggregators
      | None => aggregators
      end in
    match JsMap.get (_input args) deleted with
    | Some outputs =>
        if Nat.eqb (length outputs) 0 then JsMap.remove (_input args) deleted
        else deleted
    | None => deleted
    end
  else
    if negb (JsMap.has (_input args) aggregators) then
      JsMap.set (_input args) [(_output args, _aggregator args)] aggregators
    else
      JsMap.set (_input args)
        (JsMap.set (_output args) (_aggregator args)
           (default [] (JsMap.get (_input args) aggregators)))
        aggregators.

Definition aggregatorsMapsInOrder (logs : list AggregatorUpdatedArgs)
    : list (string * list (string * string)) :=
  fold_left reduceLog logs [].

(** [aggregatorsMaps.forEach(...)]: from the [Map]s to an object of
    objects with lower-cased keys. The entry of an outer key is first set
    to the empty object, then filled. [toLocaleLowerCase] is taken as
    [toLowerCase]. *)
Definition fillObject (keyL1 : string)
    (aggregatorsAsObject : list (string * list (string * string)))
    (inner : string * string) : list (string * list (string * string)) :=
  JsMap.set (Js.toLowerCase keyL1)
    (JsMap.set (Js.toLowerCase (fst inner)) (snd inner)
       (default [] (JsMap.get (Js.toLowerCase keyL1) aggregatorsAsObject)))
    aggregatorsAsObject.

Definition addToObject (aggregatorsAsObject : list (string * list (string * string)))
    (outer : string * list (string * string))
    : list (string * list (string * string)) :=
  fold_left (fillObject (fst outer)) (snd outer)
    (JsMap.set (Js.toLowerCase (fst outer)) [] aggregatorsAsObject).

Definition aggregatorsAsObject
    (aggregatorsMaps : list (string * list (string * string)))
    : list (string * list (string * string)) :=
  fold_left addToObject aggregatorsMaps [].

(** [getAggregators], from the parsed logs of the contract. *)
Definition getAggregators (logs : list AggregatorUpdatedArgs)
    : list (string * list (string * string)) :=
  aggregatorsAsObject (aggregatorsMapsInOrder logs).

(** The graph of [listAggregators] for one network,
    [aggregatorsNodesForDijkstra[network]]: an object of objects, taken by
    its content. *)
Definition ensureNode (ccy : string) (nodes : gmap string (gmap string Z))
    : gmap string (gmap string Z) :=
  match nodes !! ccy with
  | Some _ => nodes
  | None => <[ ccy := ∅ ]> nodes
  end.

(** [nodes[a][b] = 1]. *)
Definition setWeight (a b : string) (nodes : gmap string (gmap string Z))
    : gmap string (gmap string Z) :=
  <[ a := <[ b := 1 ]> (default ∅ (nodes !! a)) ]> nodes.

Definition addOutput (ccyIn : string) (nodes : gmap string (gmap string Z))
    (inner : string * string) : gmap string (gmap string Z) :=
  let ccyOut := Js.toLowerCase (fst inner) in
  setWeight ccyOut ccyIn (setWeight ccyIn ccyOut (ensureNode ccyOut nodes)).

Definition addInput (allAggregators : list (string * list (string * string)))
    (nodes : gmap string (gmap string Z)) (outer : string * list (string * string))
    : gmap string (gmap string Z) :=
  let ccyIn := Js.toLowerCase (fst outer) in
  fold_left (addOutput ccyIn)
    (default [] (JsMap.get ccyIn allAggregators))
    (ensureNode ccyIn nodes).

Definition aggregatorsNodesForDijkstra
    (allAggregators : list (string * list (string * string)))
    : gmap string (gmap string Z) :=
  fold_left (addInput allAggregators) allAggregators ∅.

End ChainlinkConversionPathTools.


(* ===================================================================== *)
(** * Sample collaborators and inputs, to run the embedding *)
(* ===================================================================== *)

Module Samples.

Import Types.

(** A stand-in for the address check of the parent class: forty-two
    characters. *)
Definition sampleIsValidAddress (s : string) : bool :=
  Nat.eqb (String.length s) 42.

Definition sampleState (a : IAction) (values : gmap string Js.value) : IState :=
  {| state_id := id a;
     state_type := "payment-network";
     state_version := default "0.1.0" (version a);
     state_values := values;
     state_events := [] |}.

(** A stand-in for the three functions that update an existing state:
    they fail on [undefined] and otherwise record one value. *)
Definition sampleUpdate (field : string) (value : option string)
    (st : option IState) (a : IAction) : result IState :=
  match st with
  | None => Throw "TypeError: Cannot read property 'values' of undefined"
  | Some s =>
      Ok {| state_id := state_id s;
            state_type := state_type s;
            state_version := state_version s;
            state_values := <[ field := Js.of_string value ]> (state_values s);
            state_events := state_events s |}
  end.

Definition sampleFeeProxy : AnyToErc20Proxy.Erc20FeeProxyPaymentNetwork := {|
  AnyToErc20Proxy.isValidAddress := sampleIsValidAddress;
  AnyToErc20Proxy.super_createCreationAction := fun p =>
    Ok {| action := ACTION.CREATE;
          id := "pn-any-to-erc20-proxy";
          parameters := p;
          version := Some "0.1.0" |};
  AnyToErc20Proxy.super_applyCreation := fun a _ =>
    Ok (sampleState a
          {[ "paymentAddress" := Js.of_string (paymentAddress (parameters a)) ]});
  AnyToErc20Proxy.applyAddFee := fun st a _ _ _ =>
    sampleUpdate "feeAddress" (feeAddress (parameters a)) st a;
|}.

Definition sampleReferenceBased : AnyToErc20Proxy.ReferenceBased := {|
  AnyToErc20Proxy.applyAddPaymentAddress := fun _ st a _ _ _ =>
    sampleUpdate "paymentAddress" (paymentAddress (parameters a)) st a;
  AnyToErc20Proxy.applyAddRefundAddress := fun _ st a _ _ _ =>
    sampleUpdate "refundAddress" (refundAddress (parameters a)) st a;
|}.

(** A stand-in for [Utils.deepCopy]: a round trip through JSON, which
    leaves out of every object the keys whose value is [undefined]. *)
Definition jsonValue (v : Js.value) : option Js.value :=
  match v with Js.Undefined => None | _ => Some v end.

Definition jsonEvent (e : IEvent) : IEvent :=
  {| event_name := event_name e;
     event_parameters := omap jsonValue (event_parameters e);
     event_timestamp := event_timestamp e |}.

Definition jsonState (s : IState) : IState :=
  {| state_id := state_id s;
     state_type := state_type s;
     state_version := state_version s;
     state_values := omap jsonValue (state_values s);
     state_events := map jsonEvent (state_events s) |}.

Definition sampleUtils : AnyToErc20Proxy.Utils := {|
  AnyToErc20Proxy.deepCopy := fmap jsonState;
  AnyToErc20Proxy.deepCopy_absent := fun states key absent =>
    eq_trans (lookup_fmap jsonState states key)
             (f_equal (fmap jsonState) absent);
|}.

(** A state of another extension with a value that is [undefined]. *)
Definition contentDataState : IState :=
  {| state_id := "content-data";
     state_type := "content-data";
     state_version := "0.1.0";
     state_values := {[ "content" := Js.Str "invoice"; "note" := Js.Undefined ]};
     state_events := [] |}.

Definition noParameters : Parameters :=
  {| feeAddress := None; feeAmount := None; paymentAddress := None;
     refundAddress := None; salt := None; network := None;
     acceptedTokens := None; maxRateTimespan := None |}.

Definition DAI : string := "0x6B175474E89094C44Da98b954EedeAC495271d0F".

Definition creationParameters : Parameters :=
  {| feeAddress := None; feeAmount := None;
     paymentAddress := Some "0x627306090abaB3A6e1400e9345bC60c78a8BEf57";
     refundAddress := None; salt := Some "ea3bc7caf64110ca";
     network := Some "mainnet";
     acceptedTokens := Some [DAI];
     maxRateTimespan := Some 1000000 |}.

(** Creation parameters with the given network and accepted tokens. *)
Definition tokensOn (net : option string) (tokens : option (list string))
    : Parameters :=
  {| feeAddress := None; feeAmount := None; paymentAddress := None;
     refundAddress := None; salt := None; network := net;
     acceptedTokens := tokens; maxRateTimespan := None |}.

Definition extensionId : string := "pn-any-to-erc20-proxy".

Definition mkAction (kind : string) (p : Parameters) : IAction :=
  {| action := kind; id := extensionId; parameters := p; version := Some "0.1.0" |}.

Definition signer : IIdentity :=
  {| identity_type := "ethereumAddress";
     identity_value := "0x627306090abab3a6e1400e9345bc60c78a8bef57" |}.

Definition mkCurrency (t : CURRENCY) (v : string) : ICurrency :=
  {| cur_type := t; cur_value := v; cur_network := None |}.

Definition mkRequest (c : ICurrency) (exts : gmap string IState) : IRequest :=
  {| currency := c; extensions := exts; payee := Some signer; payer := None |}.

Definition createdState : IState :=
  sampleState (mkAction ACTION.CREATE creationParameters) ∅.

(** A ledger with two payments to one address and one refund to
    another; a query about any other address fails. *)
Definition payee1 : string := "0x627306090abaB3A6e1400e9345bC60c78a8BEf57".
Definition payer1 : string := "0xf17f52151EbEF6C7334FAD080c5704D77216b732".

Definition transfer (kind : Erc20AddressBased.EVENTS_NAMES) (amt : string)
    (at_ : option Z) : Erc20AddressBased.ERC20PaymentNetworkEvent :=
  {| Erc20AddressBased.amount := amt;
     Erc20AddressBased.name := kind;
     Erc20AddressBased.event_params := None;
     Erc20AddressBased.timestamp := at_ |}.

Definition sampleRetriever : Erc20AddressBased.Erc20InfoRetriever := {|
  Erc20AddressBased.getTransferEvents := fun q =>
    match Erc20AddressBased.address q, Erc20AddressBased.eventName q with
    | Js.Str a, Erc20AddressBased.PAYMENT =>
        if String.eqb a payee1 then
          Ok [ transfer Erc20AddressBased.PAYMENT "100" (Some 1600000010);
               transfer Erc20AddressBased.PAYMENT "50" (Some 1600000030) ]
        else Throw "ledger access failed"
    | Js.Str a, Erc20AddressBased.REFUND =>
        if String.eqb a payer1 then
          Ok [ transfer Erc20AddressBased.REFUND "30" (Some 1600000020) ]
        else Throw "ledger access failed"
    | _, _ => Throw "ledger access failed"
    end;
|}.

(** A request in DAI with the address-based extension holding the given
    addresses, and the world in which no query has been issued yet. *)
Definition addressBasedState (pay refund : option string) : IState :=
  {| state_id := PAYMENT_NETWORK_ERC20_ADDRESS_BASED;
     state_type := "payment-network";
     state_version := "0.1.0";
     state_values :=
       match pay, refund with
       | Some p, Some r => {[ "paymentAddress" := Js.Str p; "refundAddress" := Js.Str r ]}
       | Some p, None => {[ "paymentAddress" := Js.Str p ]}
       | None, Some r => {[ "refundAddress" := Js.Str r ]}
       | None, None => ∅
       end;
     state_events := [] |}.

Definition daiRequest (net : option string) (pay refund : option string)
    : IRequest :=
  {| currency := {| cur_type := ERC20; cur_value := DAI; cur_network := net |};
     extensions :=
       {[ PAYMENT_NETWORK_ERC20_ADDRESS_BASED := addressBasedState pay refund ]};
     payee := Some signer;
     payer := None |}.

Definition freshWorld (r : IRequest) : Erc20AddressBased.World :=
  {| Erc20AddressBased.request := r; Erc20AddressBased.queries := [] |}.

(** Three [AggregatorUpdated] logs: two registrations and one removal. *)
Definition EUR_hash : string := "0x17B4158805772Ced11225E77339F90BeB5aAE968".
Definition USD_hash : string := "0x775EB53d00DD0Acd3EC1696472105d579B9b386b".
Definition aggregatorEurUsd : string := "0xb49f677943BC038e9857d61E7d053CaA2C1734C1".
Definition aggregatorUsdDai : string := "0x3d49406EDd4D52Fb7FFd25485f32E073b529C924".

Definition updated (i o a : string) : ChainlinkTools.AggregatorUpdatedArgs :=
  {| ChainlinkTools._input := i;
     ChainlinkTools._output := o;
     ChainlinkTools._aggregator := a |}.

Definition sampleLogs : list ChainlinkTools.AggregatorUpdatedArgs :=
  [ updated EUR_hash USD_hash aggregatorEurUsd;
    updated USD_hash DAI aggregatorUsdDai ].

(** A rate oracle whose oldest rate has the given timestamp: one euro
    cent is worth 12 * 10^15 units of the payment token. *)
Definition sampleOracle (oldest : Z)
    : ProxyChainlinkConversionPath.ChainlinkConversionPath := {|
  ProxyChainlinkConversionPath.getRate := fun path =>
    match path with
    | [] => Throw "No aggregator found"
    | _ => Ok (12 * 10 ^ 33, oldest, 10 ^ 18)
    end;
|}.

(** A well-formed address that is in no list of the table. *)
Definition unlistedToken : string := "0x9FBDa871d559710256a2502A2517b794B482Db40".

(** A payment proxy whose payer has approved and holds 200 tokens of 18
    decimals: the call succeeds up to that amount. *)
Definition samplePaymentProxy : ProxyChainlinkConversionPath.PaymentProxy := {|
  ProxyChainlinkConversionPath.delegatecall := fun c =>
    ProxyChainlinkConversionPath.call_amount c
    + ProxyChainlinkConversionPath.call_feeAmount c <=? 200 * 10 ^ 18;
|}.

End Samples.

(* ===================================================================== *)
(** * Vocabulary of the statements *)
(* ===================================================================== *)

Module Spec.

Import Types.

(** The value [checkSupportedCurrency] looks up in the table: the
    currency value, lower-cased unless the type is ISO4217. *)
Definition normalizedCurrencyValue (c : ICurrency) : string :=
  if bool_decide (cur_type c <> ISO4217)
  then Js.toLowerCase (cur_value c) else cur_value c.

(** The network of an action once the default is applied:
    [extensionAction.parameters.network || DEFAULT_NETWORK]. *)
Definition actionNetwork (a : IAction) : string :=
  Js.or_string (network (parameters a)) AnyToErc20Proxy.DEFAULT_NETWORK.

(** The four members of the action enumeration. *)
Definition knownActions : list string :=
  [ACTION.CREATE; ACTION.ADD_PAYMENT_ADDRESS; ACTION.ADD_REFUND_ADDRESS;
   ACTION.ADD_FEE].

(** The message of [createCreationAction] for a token that is not
    supported on a network. *)
Definition unsupportedTokenMessage (address network : string) : string :=
  "acceptedTokens must contain only supported token addresses (ERC20 only). "
  +:+ address +:+ " is not supported for " +:+ network +:+ ".".

(** The network [getBalance] works with: [request.currency.network], or
    ["mainnet"] when the request gives none. *)
Definition defaultedNetwork (r : IRequest) : string :=
  Js.or_string (cur_network (currency r)) "mainnet".

(** The request with [currency.network] set to ["mainnet"] when it was
    missing or empty, and with nothing else changed. *)
Definition withDefaultNetwork (r : IRequest) : IRequest :=
  if Js.truthy (Js.of_string (cur_network (currency r))) then r
  else {| currency := {| cur_type := cur_type (currency r);
                         cur_value := cur_value (currency r);
                         cur_network := Some "mainnet" |};
          extensions := extensions r;
          payee := payee r;
          payer := payer r |}.

(** The value of a field of the address-based extension of a request. *)
Definition addressOf (st : IState) (field : string) : Js.value :=
  default Js.Undefined (state_values st !! field).

(** The ledger query for one address of a request. *)
Definition queryFor (r : IRequest) (address : Js.value)
    (kind : Erc20AddressBased.EVENTS_NAMES) : Erc20AddressBased.Query :=
  {| Erc20AddressBased.tokenContractAddress := cur_value (currency r);
     Erc20AddressBased.address := address;
     Erc20AddressBased.eventName := kind;
     Erc20AddressBased.query_network := defaultedNetwork r |}.

(** The queries issued for an address: one when it is present, none when
    it is absent. *)
Definition issuedQueries (r : IRequest) (address : Js.value)
    (kind : Erc20AddressBased.EVENTS_NAMES) : list Erc20AddressBased.Query :=
  if Js.truthy address then [queryFor r address kind] else [].

(** The events retrieved for an address: the answer of the ledger when the
    address is present, no event when it is absent. *)
Definition retrievedEvents `{Erc20AddressBased.Erc20InfoRetriever}
    (r : IRequest) (address : Js.value) (kind : Erc20AddressBased.EVENTS_NAMES)
    : result (list Erc20AddressBased.ERC20PaymentNetworkEvent) :=
  if Js.truthy address
  then Erc20AddressBased.getTransferEvents (queryFor r address kind)
  else Ok [].

(** The sum of the amounts of a list of events. *)
Definition totalAmount (evs : list Erc20AddressBased.ERC20PaymentNetworkEvent) : Z :=
  foldr Z.add 0 (map (fun e => BN.of_string (Erc20AddressBased.amount e)) evs).

(** The order of the comparator on events. *)
Definition notLater (a b : Erc20AddressBased.ERC20PaymentNetworkEvent) : Prop :=
  Erc20AddressBased.timestampOrZero a <= Erc20AddressBased.timestampOrZero b.

(** The result and the final world of the part of [getBalance] that
    follows the reading of the two addresses. *)
Definition balanceOf `{Erc20AddressBased.Erc20InfoRetriever}
    (w : Erc20AddressBased.World) (st : IState)
    : result Erc20AddressBased.ERC20BalanceWithEvents * Erc20AddressBased.World :=
  let r := Erc20AddressBased.request w in
  let pay := addressOf st "paymentAddress" in
  let refund := addressOf st "refundAddress" in
  let after k :=
    {| Erc20AddressBased.request := withDefaultNetwork r;
       Erc20AddressBased.queries := (Erc20AddressBased.queries w ++ k)%list |} in
  match retrievedEvents r pay Erc20AddressBased.PAYMENT with
  | Throw msg => (Throw msg, after (issuedQueries r pay Erc20AddressBased.PAYMENT))
  | Ok payments =>
      match retrievedEvents r refund Erc20AddressBased.REFUND with
      | Throw msg =>
          (Throw msg,
           after (issuedQueries r pay Erc20AddressBased.PAYMENT
                  ++ issuedQueries r refund Erc20AddressBased.REFUND)%list)
      | Ok refunds =>
          (Ok {| Erc20AddressBased.balance := BN.toString (totalAmount payments - totalAmount refunds);
                 Erc20AddressBased.events :=
                   Erc20AddressBased.sortEvents (payments ++ refunds)%list |},
           after (issuedQueries r pay Erc20AddressBased.PAYMENT
                  ++ issuedQueries r refund Erc20AddressBased.REFUND)%list)
      end
  end.

(** The edge of the aggregator map from an input to an output currency:
    the aggregator registered for the pair, if any. *)
Definition edge (aggregators : gmap string (gmap string string))
    (input output : string) : option string :=
  aggregators !! input ≫= fun outputs => outputs !! output.

(** The removal event for an edge. *)
Definition removal (args : ChainlinkTools.AggregatorUpdatedArgs)
    : ChainlinkTools.AggregatorUpdatedArgs :=
  {| ChainlinkTools._input := ChainlinkTools._input args;
     ChainlinkTools._output := ChainlinkTools._output args;
     ChainlinkTools._aggregator := ChainlinkTools.ZERO_ADDRESS |}.

(** The currency pair an event is about. *)
Definition pairOf (args : ChainlinkTools.AggregatorUpdatedArgs) : string * string :=
  (ChainlinkTools._input args, ChainlinkTools._output args).

(** What an event leaves on its edge: nothing for the zero address, its
    aggregator otherwise. *)
Definition registered (args : ChainlinkTools.AggregatorUpdatedArgs) : option string :=
  if String.eqb (ChainlinkTools._aggregator args) ChainlinkTools.ZERO_ADDRESS
  then None else Some (ChainlinkTools._aggregator args).

(** No input currency is kept without an output currency. *)
Definition pruned (aggregators : gmap string (gmap string string)) : Prop :=
  forall input outputs, aggregators !! input = Some outputs -> outputs <> ∅.

(** The content of a [Map] or object: its entries without their order. *)
Definition contentOf {V} (m : list (string * V)) : gmap string V := list_to_map m.

Definition contentOf2 (m : list (string * list (string * string)))
    : gmap string (gmap string string) :=
  contentOf <$> contentOf m.

(** The value of [obj[x][y]], if both keys are there. *)
Definition objectEdge (obj : list (string * list (string * string)))
    (x y : string) : option string :=
  JsMap.get x obj ≫= JsMap.get y.

(** The value of [nodes[x][y]], if both keys are there. *)
Definition weight (nodes : gmap string (gmap string Z)) (x y : string) : option Z :=
  nodes !! x ≫= fun outputs => outputs !! y.

(** Every key of an object of objects is in lower case. *)
Definition lowerCased (obj : list (string * list (string * string))) : Prop :=
  Forall (fun outer =>
            Js.toLowerCase (fst outer) = fst outer /\
            Forall (fun inner => Js.toLowerCase (fst inner) = fst inner) (snd outer))
         obj.

(** No two addresses of the logs differ by the case of their letters
    only. *)
Definition sameCase (logs : list ChainlinkTools.AggregatorUpdatedArgs) : Prop :=
  forall e1 e2, In e1 logs -> In e2 logs ->
    (Js.toLowerCase (ChainlinkTools._input e1) = Js.toLowerCase (ChainlinkTools._input e2) ->
     ChainlinkTools._input e1 = ChainlinkTools._input e2) /\
    (Js.toLowerCase (ChainlinkTools._output e1) = Js.toLowerCase (ChainlinkTools._output e2) ->
     ChainlinkTools._output e1 = ChainlinkTools._output e2).

(** The keys of [Map]s of [Map]s are distinct, at both levels. *)
Definition distinctKeys (m : list (string * list (string * string))) : Prop :=
  NoDup (JsMap.keys m) /\ Forall (fun outer => NoDup (JsMap.keys (snd outer))) m.

(** The object made of the entries of a [Map] with their keys lower-cased,
    added to an object. *)
Definition lowerEntries (entries acc : list (string * string))
    : list (string * string) :=
  fold_left (fun o inner => JsMap.set (Js.toLowerCase (fst inner)) (snd inner) o)
    entries acc.

(** Two currencies are linked in the graph. *)
Definition linked (nodes : gmap string (gmap string Z)) (x y : string) : Prop :=
  weight nodes x y = Some 1.

(** Every weight of a graph is one. *)
Definition unitWeights (nodes : gmap string (gmap string Z)) : Prop :=
  forall x y w, weight nodes x y = Some w -> w = 1.

End Spec.


(* ===================================================================== *)
(** * Facts about the JavaScript helpers *)
(* ===================================================================== *)

Section JsFacts.

Lemma includes_true_iff (l : list string) (x : string) :
  Js.includes l x = true <-> In x l.
Proof.
  unfold Js.includes. rewrite existsb_exists. split.
  - intros (y & Hy & Heq). apply String.eqb_eq in Heq. now subst.
  - intros Hin. exists x. split; [assumption | apply String.eqb_refl].
Qed.

Lemma includes_false_iff (l : list string) (x : string) :
  Js.includes l x = false <-> ~ In x l.
Proof.
  rewrite <- includes_true_iff. destruct (Js.includes l x); split; intros; congruence.
Qed.

Lemma lower_ascii_idempotent (c : ascii) :
  Js.lower_ascii (Js.lower_ascii c) = Js.lower_ascii c.
Proof.
  destruct c as [[] [] [] [] [] [] [] []]; reflexivity.
Qed.

Lemma toLowerCase_idempotent (s : string) :
  Js.toLowerCase (Js.toLowerCase s) = Js.toLowerCase s.
Proof.
  induction s as [| c s IH]; simpl; [reflexivity |].
  now rewrite lower_ascii_idempotent, IH.
Qed.

(** No lower-cased character is the capital letter E. *)
Lemma lower_ascii_not_E (c : ascii) : Js.lower_ascii c <> "E"%char.
Proof.
  destruct c as [[] [] [] [] [] [] [] []]; vm_compute; discriminate.
Qed.

Lemma toLowerCase_not_ETH (s : string) : Js.toLowerCase s <> "ETH".
Proof.
  destruct s as [| c s]; simpl; [discriminate |].
  intros H. injection H as Hc _. now apply lower_ascii_not_E in Hc.
Qed.

Lemma or_string_spec (o : option string) (d : string) :
  Js.or_string o d = match o with
                     | Some s => if decide (s = "") then d else s
                     | None => d
                     end.
Proof.
  destruct o as [s |]; simpl; [| reflexivity].
  destruct (String.eqb_spec s ""); destruct (decide (s = "")); congruence.
Qed.

End JsFacts.

(* ===================================================================== *)
(** * Facts about [any-to-erc20-proxy.ts] *)
(* ===================================================================== *)

Section AnyToErc20ProxyFacts.

Import Types AnyToErc20Proxy Spec.
Context `{Super : Erc20FeeProxyPaymentNetwork} `{Ref : ReferenceBased}
        `{Copy : Utils}.

(** The table has the three networks and, for each, the four currency
    types. *)
Lemma supportedCurrencies_networks (net : string) table :
  supportedCurrencies !! net = Some table ->
  net = "private" \/ net = "rinkeby" \/ net = "mainnet".
Proof.
  unfold supportedCurrencies. intros H.
  apply lookup_insert_Some in H as [[<- _] | [_ H]]; [tauto |].
  apply lookup_insert_Some in H as [[<- _] | [_ H]]; [tauto |].
  apply lookup_singleton_Some in H as [<- _]. tauto.
Qed.

Lemma supportedCurrencies_types (net : string) table (t : CURRENCY) :
  supportedCurrencies !! net = Some table -> is_Some (table !! t).
Proof.
  intros H. pose proof (supportedCurrencies_networks _ _ H) as Hnet.
  destruct Hnet as [-> | [-> | ->]]; vm_compute in H; injection H as <-;
    destruct t; vm_compute; eauto.
Qed.

(** The three outcomes of the read [supportedCurrencies[network]]. *)
Lemma supportedCurrenciesOf_own (net : string) table :
  supportedCurrencies !! net = Some table ->
  supportedCurrenciesOf net = Some (Js.Own table).
Proof. unfold supportedCurrenciesOf, Js.read. now intros ->. Qed.

Lemma supportedCurrenciesOf_inherited (net : string) :
  In net Js.objectPrototypeKeys ->
  supportedCurrencies !! net = None /\
  supportedCurrenciesOf net = Some (Js.Inherited net).
Proof.
  intros Hin. simpl in Hin.
  repeat (destruct Hin as [<- | Hin]; [split; reflexivity |]).
  destruct Hin.
Qed.

Lemma supportedCurrenciesOf_missing (net : string) :
  supportedCurrencies !! net = None -> ~ In net Js.objectPrototypeKeys ->
  supportedCurrenciesOf net = None.
Proof.
  intros Hnone Hnot. unfold supportedCurrenciesOf, Js.read. rewrite Hnone.
  destruct (Js.includes Js.objectPrototypeKeys net) eqn:E; [| reflexivity].
  apply includes_true_iff in E. contradiction.
Qed.

(** A list of currencies is found only in an own entry of the table. *)
Lemma currenciesOfType_Some (net : string) entry (t : CURRENCY) supported :
  supportedCurrenciesOf net = Some entry ->
  currenciesOfType entry t = Some supported ->
  exists table, supportedCurrencies !! net = Some table /\
                entry = Js.Own table /\ table !! t = Some supported.
Proof.
  unfold supportedCurrenciesOf, Js.read. intros Hread Hs.
  destruct (supportedCurrencies !! net) as [table |].
  - injection Hread as <-. eauto.
  - destruct (Js.includes Js.objectPrototypeKeys net); [| discriminate].
    injection Hread as <-. discriminate.
Qed.

Lemma checkSupportedCurrency_ok_iff (c : ICurrency) (net : string) :
  checkSupportedCurrency c net = Ok tt <->
  exists table supported,
    supportedCurrencies !! net = Some table /\
    table !! cur_type c = Some supported /\
    Js.includes supported (normalizedCurrencyValue c) = true.
Proof.
  unfold checkSupportedCurrency, normalizedCurrencyValue. split.
  - destruct (supportedCurrenciesOf net) as [entry |] eqn:Hread; [| discriminate].
    destruct (currenciesOfType entry (cur_type c)) as [supported |] eqn:Ht;
      [| discriminate].
    destruct (Js.includes supported _) eqn:E; simpl; [| discriminate].
    intros _.
    destruct (currenciesOfType_Some _ _ _ _ Hread Ht) as (table & H1 & _ & H2).
    exists table, supported. auto.
  - intros (table & supported & Ht & Hs & Hin).
    rewrite (supportedCurrenciesOf_own _ _ Ht). simpl. rewrite Hs.
    now rewrite Hin.
Qed.

Lemma checkSupportedCurrency_cases (c : ICurrency) (net : string) :
  checkSupportedCurrency c net = Ok tt \/
  exists msg, checkSupportedCurrency c net = Throw msg.
Proof.
  destruct (checkSupportedCurrency c net) as [[] | msg]; eauto.
Qed.

(** The state the dispatch works on, after the currency check. *)
Lemma applyActionToExtension_after_check st a req who ts :
  checkSupportedCurrency (currency req) (actionNetwork a) = Ok tt ->
  applyActionToExtension st a req who ts =
  if String.eqb (action a) ACTION.CREATE then
    if bool_decide (is_Some (extensions req !! id a)) then
      Throw "This extension has already been created"
    else created ← applyCreation a ts; Ok (<[ id a := created ]> (deepCopy st))
  else if negb (bool_decide (is_Some (extensions req !! id a))) then
    Throw "The extension should be created before receiving any other action"
  else if String.eqb (action a) ACTION.ADD_PAYMENT_ADDRESS then
    updated ← applyAddPaymentAddress isValidAddress (deepCopy st !! id a)
                a req who ts;
    Ok (<[ id a := updated ]> (deepCopy st))
  else if String.eqb (action a) ACTION.ADD_REFUND_ADDRESS then
    updated ← applyAddRefundAddress isValidAddress (deepCopy st !! id a)
                a req who ts;
    Ok (<[ id a := updated ]> (deepCopy st))
  else if String.eqb (action a) ACTION.ADD_FEE then
    updated ← applyAddFee (deepCopy st !! id a) a req who ts;
    Ok (<[ id a := updated ]> (deepCopy st))
  else Throw ("Unknown action: " +:+ action a).
Proof.
  intros Hok. unfold applyActionToExtension, actionNetwork in *.
  rewrite Hok. reflexivity.
Qed.

(** C4. Whatever the action type, [applyActionToExtension] begins with
    the check of the request currency against the table of the action's
    network, ["mainnet"] when the action gives none: when the network is
    not in the table, or the currency type is not in the network's entry,
    or the (normalized) currency value is not in the list of that type,
    the call throws the error of [checkSupportedCurrency] itself, so no
    dispatch happens and no extension state is produced. *)
Theorem applyActionToExtension_checks_currency_first
    (st : gmap string IState) (a : IAction) (req : IRequest)
    (who : IIdentity) (ts : Z) :
  (network (parameters a) = None -> actionNetwork a = "mainnet") /\
  (~ (exists table supported,
        supportedCurrencies !! actionNetwork a = Some table /\
        table !! cur_type (currency req) = Some supported /\
        Js.includes supported (normalizedCurrencyValue (currency req)) = true) ->
   exists msg,
     checkSupportedCurrency (currency req) (actionNetwork a) = Throw msg /\
     applyActionToExtension st a req who ts = Throw msg).
Proof.
  split.
  - intros Hnone. unfold actionNetwork. now rewrite Hnone.
  - intros Hnot. rewrite <- checkSupportedCurrency_ok_iff in Hnot.
    destruct (checkSupportedCurrency_cases (currency req) (actionNetwork a))
      as [Hok | [msg Hmsg]]; [contradiction |].
    exists msg. split; [assumption |].
    unfold applyActionToExtension. fold (actionNetwork a). now rewrite Hmsg.
Qed.


Lemma unknown_action_eqbs (k : string) :
  ~ In k knownActions ->
  String.eqb k ACTION.CREATE = false /\
  String.eqb k ACTION.ADD_PAYMENT_ADDRESS = false /\
  String.eqb k ACTION.ADD_REFUND_ADDRESS = false /\
  String.eqb k ACTION.ADD_FEE = false.
Proof.
  unfold knownActions. simpl. intros H.
  repeat split; apply String.eqb_neq; intros ->; tauto.
Qed.

(** C1, as the code has it. Once the currency check has passed:
    a CREATE action throws the already-created error when
    [requestState.extensions] has a state for the extension id; every
    other action, of a known or of an unknown type, throws the
    should-be-created error when it has none; an action of a type outside
    the enumeration throws the unknown-action error when it has one. *)
Theorem applyActionToExtension_dispatch_errors
    (st : gmap string IState) (a : IAction) (req : IRequest)
    (who : IIdentity) (ts : Z) :
  checkSupportedCurrency (currency req) (actionNetwork a) = Ok tt ->
  (action a = ACTION.CREATE -> is_Some (extensions req !! id a) ->
   applyActionToExtension st a req who ts =
   Throw "This extension has already been created") /\
  (action a <> ACTION.CREATE -> extensions req !! id a = None ->
   applyActionToExtension st a req who ts =
   Throw "The extension should be created before receiving any other action") /\
  (~ In (action a) knownActions -> is_Some (extensions req !! id a) ->
   applyActionToExtension st a req who ts =
   Throw ("Unknown action: " +:+ action a)).
Proof.
  intros Hok. rewrite (applyActionToExtension_after_check _ _ _ _ _ Hok).
  repeat split.
  - intros -> Hsome. simpl. now rewrite bool_decide_eq_true_2.
  - intros Hne Hnone. apply String.eqb_neq in Hne. rewrite Hne.
    rewrite bool_decide_eq_false_2; [reflexivity |].
    rewrite Hnone. intros [x Hx]. discriminate.
  - intros Hunknown Hsome.
    destruct (unknown_action_eqbs _ Hunknown) as (-> & -> & -> & ->).
    now rewrite bool_decide_eq_true_2.
Qed.

(** C9, as the code has it. Existence is read from
    [requestState.extensions], not from the [extensionsState] argument.
    Once the currency check has passed: when [extensionsState] has an
    entry for the id and the request has none, a CREATE action whose
    creation is accepted returns the copy of [extensionsState] with that
    entry overwritten by the created state; when the request has the id
    and [extensionsState] has not, an action that is not CREATE passes the
    creation-before-use check and is dispatched on an undefined state. *)
Theorem applyActionToExtension_existence_from_requestState
    (st : gmap string IState) (a : IAction) (req : IRequest)
    (who : IIdentity) (ts : Z) :
  checkSupportedCurrency (currency req) (actionNetwork a) = Ok tt ->
  (action a = ACTION.CREATE -> is_Some (st !! id a) ->
   extensions req !! id a = None ->
   forall created, applyCreation a ts = Ok created ->
     applyActionToExtension st a req who ts
     = Ok (<[ id a := created ]> (deepCopy st))) /\
  (action a <> ACTION.CREATE -> is_Some (extensions req !! id a) ->
   st !! id a = None ->
   applyActionToExtension st a req who ts =
   if String.eqb (action a) ACTION.ADD_PAYMENT_ADDRESS then
     updated ← applyAddPaymentAddress isValidAddress None a req who ts;
     Ok (<[ id a := updated ]> (deepCopy st))
   else if String.eqb (action a) ACTION.ADD_REFUND_ADDRESS then
     updated ← applyAddRefundAddress isValidAddress None a req who ts;
     Ok (<[ id a := updated ]> (deepCopy st))
   else if String.eqb (action a) ACTION.ADD_FEE then
     updated ← applyAddFee None a req who ts;
     Ok (<[ id a := updated ]> (deepCopy st))
   else Throw ("Unknown action: " +:+ action a)).
Proof.
  intros Hok. rewrite (applyActionToExtension_after_check _ _ _ _ _ Hok).
  split.
  - intros -> _ Hnone created Hcreated. simpl.
    rewrite bool_decide_eq_false_2 by (rewrite Hnone; intros [x Hx]; discriminate).
    now rewrite Hcreated.
  - intros Hne Hsome Hnone. apply String.eqb_neq in Hne. rewrite Hne.
    rewrite bool_decide_eq_true_2 by assumption. simpl.
    now rewrite (deepCopy_absent _ _ Hnone).
Qed.

(** ** [createCreationAction] *)

Lemma some_invalid_iff (tokens : list string) :
  Js.some (fun address => negb (isValidAddress address)) tokens = true <->
  exists address, In address tokens /\ isValidAddress address = false.
Proof.
  unfold Js.some. rewrite existsb_exists.
  split; intros (x & Hin & Hx); exists x; split; try assumption.
  - now apply negb_true_iff in Hx.
  - now apply negb_true_iff.
Qed.

Lemma some_invalid_false (tokens : list string) :
  (forall address, In address tokens -> isValidAddress address = true) ->
  Js.some (fun address => negb (isValidAddress address)) tokens = false.
Proof.
  intros Hall. destruct (Js.some _ tokens) eqn:E; [| reflexivity].
  apply some_invalid_iff in E as (x & Hin & Hx). rewrite (Hall x Hin) in Hx.
  discriminate.
Qed.

Lemma checkAcceptedTokens_all_supported (erc : list string) (net : string)
    (tokens : list string) :
  (forall address, In address tokens ->
     Js.includes erc (Js.toLowerCase address) = true) ->
  checkAcceptedTokens erc net tokens = Ok tt.
Proof.
  induction tokens as [| x rest IH]; simpl; intros Hall; [reflexivity |].
  rewrite (Hall x) by auto. simpl. apply IH. auto.
Qed.

(** The loop stops at the first unsupported address and names it. *)
Lemma checkAcceptedTokens_first_unsupported (erc : list string) (net : string)
    (tokens : list string) :
  (exists address, In address tokens /\
     Js.includes erc (Js.toLowerCase address) = false) ->
  exists before address after,
    tokens = (before ++ address :: after)%list /\
    (forall x, In x before -> Js.includes erc (Js.toLowerCase x) = true) /\
    Js.includes erc (Js.toLowerCase address) = false /\
    checkAcceptedTokens erc net tokens =
    Throw (unsupportedTokenMessage address net).
Proof.
  induction tokens as [| x rest IH]; intros (address & Hin & Hbad).
  - destruct Hin.
  - simpl. destruct (Js.includes erc (Js.toLowerCase x)) eqn:Ex; simpl.
    + destruct Hin as [-> | Hin]; [congruence |].
      destruct IH as (before & b & after & -> & Hbefore & Hb & Hres); [eauto |].
      exists (x :: before), b, after. repeat split; try assumption.
      intros y [<- | Hy]; auto.
    + exists [], x, rest. repeat split; try assumption. intros y [].
Qed.

(** C3. [createCreationAction] throws when [acceptedTokens] is missing or
    empty; throws when one of its entries is not a valid address; then,
    the tokens being in order, throws when the network is missing and
    names the network when the read of the table finds nothing; then
    throws an error that names the first address whose lower-cased form is
    not in the ERC20 list of the network, together with the network; and
    when every check passes it returns what the parent's
    [createCreationAction] returns. The read of the table finds the
    members of [Object.prototype] too: a network named after one of them
    is not in the table, yet passes for supported, and the call ends on
    the [TypeError] of [includes] read on [undefined] instead of the error
    that names the network. *)
Theorem createCreationAction_validation (p : Parameters) :
  (acceptedTokens p = None \/ acceptedTokens p = Some [] ->
   createCreationAction p = Throw "acceptedTokens is required") /\
  (forall tokens, acceptedTokens p = Some tokens ->
     (exists address, In address tokens /\ isValidAddress address = false) ->
     createCreationAction p =
     Throw "acceptedTokens must contains only valid ethereum addresses") /\
  (forall tokens, acceptedTokens p = Some tokens -> tokens <> [] ->
     (forall address, In address tokens -> isValidAddress address = true) ->
     (network p = None \/ network p = Some "" ->
      createCreationAction p = Throw "network is required") /\
     (forall net, network p = Some net -> net <> "" ->
        (supportedCurrencies !! net = None -> ~ In net Js.objectPrototypeKeys ->
         createCreationAction p = Throw ("network " +:+ net +:+ " not supported")) /\
        (In net Js.objectPrototypeKeys ->
         supportedCurrencies !! net = None /\
         createCreationAction p
         = Throw "TypeError: Cannot read property 'includes' of undefined") /\
        (forall table erc,
           supportedCurrencies !! net = Some table -> table !! ERC20 = Some erc ->
           ((exists address, In address tokens /\
               Js.includes erc (Js.toLowerCase address) = false) ->
            exists address, In address tokens /\
              Js.includes erc (Js.toLowerCase address) = false /\
              createCreationAction p = Throw (unsupportedTokenMessage address net)) /\
           ((forall address, In address tokens ->
               Js.includes erc (Js.toLowerCase address) = true) ->
            createCreationAction p = super_createCreationAction p)))).
Proof.
  unfold createCreationAction. split; [| split].
  - intros [-> | ->]; reflexivity.
  - intros tokens -> Hbad.
    destruct tokens as [| t rest]; [destruct Hbad as (? & [] & _) |].
    apply some_invalid_iff in Hbad. now rewrite Hbad.
  - intros tokens -> Hne Hvalid.
    destruct tokens as [| t rest]; [congruence |].
    rewrite (some_invalid_false _ Hvalid). split.
    + intros [-> | ->]; reflexivity.
    + intros net -> Hnet. apply String.eqb_neq in Hnet. rewrite Hnet.
      split; [| split].
      * intros Hnone Hnot.
        now rewrite (supportedCurrenciesOf_missing _ Hnone Hnot).
      * intros Hin.
        destruct (supportedCurrenciesOf_inherited _ Hin) as [Hnone Hread].
        split; [exact Hnone |]. now rewrite Hread.
      * intros table erc Htable Herc.
        rewrite (supportedCurrenciesOf_own _ _ Htable).
        cbn [currenciesOfType]. rewrite Herc. split.
        -- intros Hbad.
           destruct (checkAcceptedTokens_first_unsupported erc net _ Hbad)
             as (before & b & after & Heq & _ & Hb & Hres).
           exists b. repeat split; [| assumption |].
           ++ rewrite Heq. apply in_or_app. right. now left.
           ++ now rewrite Hres.
        -- intros Hall. now rewrite (checkAcceptedTokens_all_supported _ _ _ Hall).
Qed.

Lemma checkSupportedCurrency_ETH_value (value : string) (cnet : option string)
    (net : string) :
  is_throw (checkSupportedCurrency
              {| cur_type := ETH; cur_value := value; cur_network := cnet |} net).
Proof.
  destruct (checkSupportedCurrency _ net) as [[] |] eqn:E; [| exact I].
  apply checkSupportedCurrency_ok_iff in E as (table & supported & Ht & Hs & Hin).
  pose proof (supportedCurrencies_networks _ _ Ht) as Hnet.
  assert (supported = ["ETH"]) as ->.
  { destruct Hnet as [-> | [-> | ->]]; vm_compute in Ht; injection Ht as <-;
      vm_compute in Hs; congruence. }
  apply includes_true_iff in Hin. simpl in Hin. destruct Hin as [Hin | []].
  unfold normalizedCurrencyValue in Hin. simpl in Hin.
  symmetry in Hin. now apply toLowerCase_not_ETH in Hin.
Qed.

(** C10. The value of a currency is lower-cased before the lookup exactly
    when its type is not ISO4217, and the table lists the type ETH with
    the upper-case entry [ETH]: the currency [ETH] of type ETH is refused
    on the main network, and no value of type ETH is accepted on any
    network, so that ETH values are not matched against the table whatever
    their case. *)
Theorem checkSupportedCurrency_rejects_ETH :
  checkSupportedCurrency
    {| cur_type := ETH; cur_value := "ETH"; cur_network := None |} "mainnet"
  = Throw "The currency (ETH) of the request is not supported for this payment network."
  /\
  (forall (value : string) (cnet : option string) (net : string),
     is_throw (checkSupportedCurrency
                 {| cur_type := ETH; cur_value := value; cur_network := cnet |}
                 net)).
Proof.
  split; [reflexivity | apply checkSupportedCurrency_ETH_value].
Qed.

(** What the check does with the other two kinds of value: an ERC20
    address is looked up lower-cased, an ISO4217 code as it is written. *)
Lemma checkSupportedCurrency_ERC20_case_insensitive
    (v1 v2 : string) (n1 n2 : option string) (net : string) :
  Js.toLowerCase v1 = Js.toLowerCase v2 ->
  is_ok (checkSupportedCurrency
           {| cur_type := ERC20; cur_value := v1; cur_network := n1 |} net) <->
  is_ok (checkSupportedCurrency
           {| cur_type := ERC20; cur_value := v2; cur_network := n2 |} net).
Proof.
  intros Heq. unfold checkSupportedCurrency. simpl. rewrite Heq.
  destruct (supportedCurrenciesOf net) as [entry |]; [| reflexivity].
  destruct (currenciesOfType entry ERC20) as [supported |]; [| reflexivity].
  destruct (Js.includes supported _); reflexivity.
Qed.

Lemma checkSupportedCurrency_ISO4217_exact (v : string) (n : option string)
    (net : string) :
  checkSupportedCurrency
    {| cur_type := ISO4217; cur_value := v; cur_network := n |} net = Ok tt <->
  exists table supported,
    supportedCurrencies !! net = Some table /\
    table !! ISO4217 = Some supported /\ In v supported.
Proof.
  rewrite checkSupportedCurrency_ok_iff. unfold normalizedCurrencyValue. simpl.
  split; intros (table & supported & Ht & Hs & Hin); exists table, supported;
    repeat split; try assumption; now apply includes_true_iff.
Qed.

End AnyToErc20ProxyFacts.

(** ** Worked inputs for the extension *)

#[local] Existing Instance Samples.sampleFeeProxy.
#[local] Existing Instance Samples.sampleReferenceBased.
#[local] Existing Instance Samples.sampleUtils.

Lemma applyActionToExtension_checks_currency_first_witness :
  Spec.actionNetwork (Samples.mkAction Types.ACTION.ADD_FEE Samples.noParameters)
  = "mainnet" /\
  exists msg,
    AnyToErc20Proxy.applyActionToExtension ∅
      (Samples.mkAction Types.ACTION.ADD_FEE Samples.noParameters)
      (Samples.mkRequest (Samples.mkCurrency Types.BTC "BTC") ∅)
      Samples.signer 1600000000 = Throw msg.
Proof.
  pose proof (applyActionToExtension_checks_currency_first ∅
                (Samples.mkAction Types.ACTION.ADD_FEE Samples.noParameters)
                (Samples.mkRequest (Samples.mkCurrency Types.BTC "BTC") ∅)
                Samples.signer 1600000000) as [Hdefault Hthrows].
  split.
  - apply Hdefault. reflexivity.
  - destruct Hthrows as (msg & _ & Hmsg).
    + intros (table & supported & Ht & Hs & Hin).
      vm_compute in Ht. injection Ht as <-.
      vm_compute in Hs. injection Hs as <-.
      discriminate Hin.
    + exists msg. exact Hmsg.
Defined.

Lemma applyActionToExtension_dispatch_errors_witness :
  AnyToErc20Proxy.applyActionToExtension ∅
    (Samples.mkAction Types.ACTION.CREATE Samples.creationParameters)
    (Samples.mkRequest (Samples.mkCurrency Types.ISO4217 "USD")
       {[ Samples.extensionId := Samples.createdState ]})
    Samples.signer 1600000000
  = Throw "This extension has already been created" /\
  AnyToErc20Proxy.applyActionToExtension ∅
    (Samples.mkAction Types.ACTION.ADD_FEE Samples.creationParameters)
    (Samples.mkRequest (Samples.mkCurrency Types.ISO4217 "USD") ∅)
    Samples.signer 1600000000
  = Throw "The extension should be created before receiving any other action" /\
  AnyToErc20Proxy.applyActionToExtension ∅
    (Samples.mkAction "cancel" Samples.creationParameters)
    (Samples.mkRequest (Samples.mkCurrency Types.ISO4217 "USD")
       {[ Samples.extensionId := Samples.createdState ]})
    Samples.signer 1600000000
  = Throw "Unknown action: cancel".
Proof.
  split; [| split].
  - apply applyActionToExtension_dispatch_errors;
      [reflexivity | reflexivity | vm_compute; eauto].
  - apply applyActionToExtension_dispatch_errors;
      [reflexivity | discriminate | reflexivity].
  - apply (proj2 (proj2 (applyActionToExtension_dispatch_errors ∅
             (Samples.mkAction "cancel" Samples.creationParameters)
             (Samples.mkRequest (Samples.mkCurrency Types.ISO4217 "USD")
                {[ Samples.extensionId := Samples.createdState ]})
             Samples.signer 1600000000 eq_refl))).
    + unfold Spec.knownActions. simpl.
      intros [H | [H | [H | [H | []]]]]; discriminate H.
    + vm_compute. eauto.
Defined.

(** An action of an unknown type on a request that has no state for the
    extension: the currency is supported, the type is none of the four,
    and the error is the should-be-created one, not the unknown-action
    one. *)
Lemma unknown_action_without_state_counterexample :
  let a := Samples.mkAction "cancel" Samples.creationParameters in
  let req := Samples.mkRequest (Samples.mkCurrency Types.ISO4217 "USD") ∅ in
  ~ In (Types.action a) Spec.knownActions /\
  AnyToErc20Proxy.checkSupportedCurrency (Types.currency req) (Spec.actionNetwork a)
  = Ok tt /\
  AnyToErc20Proxy.applyActionToExtension ∅ a req Samples.signer 1600000000
  = Throw "The extension should be created before receiving any other action" /\
  AnyToErc20Proxy.applyActionToExtension ∅ a req Samples.signer 1600000000
  <> Throw ("Unknown action: " +:+ Types.action a).
Proof.
  simpl. split; [| split; [| split]].
  - unfold Spec.knownActions. simpl.
    intros [H | [H | [H | [H | []]]]]; discriminate H.
  - reflexivity.
  - reflexivity.
  - vm_compute. discriminate.
Qed.

Lemma applyActionToExtension_existence_from_requestState_witness :
  (exists created,
     AnyToErc20Proxy.applyCreation
       (Samples.mkAction Types.ACTION.CREATE Samples.creationParameters) 1600000000
     = Ok created /\
     AnyToErc20Proxy.applyActionToExtension
       {[ Samples.extensionId := Samples.createdState ]}
       (Samples.mkAction Types.ACTION.CREATE Samples.creationParameters)
       (Samples.mkRequest (Samples.mkCurrency Types.ISO4217 "USD") ∅)
       Samples.signer 1600000000
     = Ok (<[ Samples.extensionId := created ]>
             (AnyToErc20Proxy.deepCopy
                {[ Samples.extensionId := Samples.createdState ]}))) /\
  AnyToErc20Proxy.applyActionToExtension ∅
    (Samples.mkAction Types.ACTION.ADD_FEE Samples.creationParameters)
    (Samples.mkRequest (Samples.mkCurrency Types.ISO4217 "USD")
       {[ Samples.extensionId := Samples.createdState ]})
    Samples.signer 1600000000
  = Throw "TypeError: Cannot read property 'values' of undefined".
Proof.
  split.
  - destruct (AnyToErc20Proxy.applyCreation
                (Samples.mkAction Types.ACTION.CREATE Samples.creationParameters)
                1600000000) as [created | msg] eqn:Hcreated;
      [| vm_compute in Hcreated; discriminate Hcreated].
    exists created. split; [reflexivity |].
    apply (proj1 (applyActionToExtension_existence_from_requestState
                    {[ Samples.extensionId := Samples.createdState ]}
                    (Samples.mkAction Types.ACTION.CREATE Samples.creationParameters)
                    (Samples.mkRequest (Samples.mkCurrency Types.ISO4217 "USD") ∅)
                    Samples.signer 1600000000 eq_refl));
      [reflexivity | vm_compute; eauto | reflexivity | exact Hcreated].
  - rewrite (proj2 (applyActionToExtension_existence_from_requestState ∅
                      (Samples.mkAction Types.ACTION.ADD_FEE Samples.creationParameters)
                      (Samples.mkRequest (Samples.mkCurrency Types.ISO4217 "USD")
                         {[ Samples.extensionId := Samples.createdState ]})
                      Samples.signer 1600000000 eq_refl));
      [reflexivity | discriminate | vm_compute; eauto | reflexivity].
Defined.

(** Two CREATE actions on a request that has no state for the extension
    while [extensionsState] has one: the first names no network, the second
    comes with a request in a currency that is not supported. Neither
    succeeds. *)
Lemma create_with_stale_state_counterexample :
  let st : gmap string Types.IState :=
    {[ Samples.extensionId := Samples.createdState ]} in
  let unnamed :=
    Samples.mkAction Types.ACTION.CREATE
      (Samples.tokensOn None (Some [Samples.DAI])) in
  let named := Samples.mkAction Types.ACTION.CREATE Samples.creationParameters in
  let usd := Samples.mkRequest (Samples.mkCurrency Types.ISO4217 "USD") ∅ in
  let btc := Samples.mkRequest (Samples.mkCurrency Types.BTC "BTC") ∅ in
  Types.action unnamed = Types.ACTION.CREATE /\
  Types.action named = Types.ACTION.CREATE /\
  is_Some (st !! Types.id unnamed) /\
  is_Some (st !! Types.id named) /\
  Types.extensions usd !! Types.id unnamed = None /\
  Types.extensions btc !! Types.id named = None /\
  AnyToErc20Proxy.applyActionToExtension st unnamed usd Samples.signer 1600000000
  = Throw "network is required" /\
  AnyToErc20Proxy.applyActionToExtension st named btc Samples.signer 1600000000
  = Throw "The currency (BTC) of the request is not supported for this payment network.".
Proof.
  cbv zeta. split; [reflexivity |]. split; [reflexivity |].
  split; [vm_compute; eauto |]. split; [vm_compute; eauto |].
  split; [reflexivity |]. split; [reflexivity |].
  split; reflexivity.
Qed.

Lemma createCreationAction_validation_witness :
  AnyToErc20Proxy.createCreationAction (Samples.tokensOn (Some "mainnet") None)
  = Throw "acceptedTokens is required" /\
  AnyToErc20Proxy.createCreationAction
    (Samples.tokensOn (Some "mainnet") (Some [Samples.DAI; "0xnotanaddress"]))
  = Throw "acceptedTokens must contains only valid ethereum addresses" /\
  AnyToErc20Proxy.createCreationAction
    (Samples.tokensOn None (Some [Samples.DAI]))
  = Throw "network is required" /\
  AnyToErc20Proxy.createCreationAction
    (Samples.tokensOn (Some "kovan") (Some [Samples.DAI]))
  = Throw "network kovan not supported" /\
  (AnyToErc20Proxy.supportedCurrencies !! "constructor" = None /\
   AnyToErc20Proxy.createCreationAction
     (Samples.tokensOn (Some "constructor") (Some [Samples.DAI]))
   = Throw "TypeError: Cannot read property 'includes' of undefined") /\
  (exists address,
     AnyToErc20Proxy.createCreationAction
       (Samples.tokensOn (Some "rinkeby") (Some [Samples.DAI]))
     = Throw (Spec.unsupportedTokenMessage address "rinkeby")) /\
  AnyToErc20Proxy.createCreationAction
    (Samples.tokensOn (Some "mainnet") (Some [Samples.DAI]))
  = AnyToErc20Proxy.super_createCreationAction
      (Samples.tokensOn (Some "mainnet") (Some [Samples.DAI])).
Proof.
  assert (Hvalid : forall address, In address [Samples.DAI] ->
                     AnyToErc20Proxy.isValidAddress address = true)
    by (intros address [<- | []]; reflexivity).
  assert (Hne : [Samples.DAI] <> []) by discriminate.
  split; [| split; [| split; [| split; [| split; [| split]]]]].
  - apply (proj1 (createCreationAction_validation
                    (Samples.tokensOn (Some "mainnet") None))).
    left. reflexivity.
  - apply (proj1 (proj2 (createCreationAction_validation
             (Samples.tokensOn (Some "mainnet")
                (Some [Samples.DAI; "0xnotanaddress"])))) _ eq_refl).
    exists "0xnotanaddress". split; [right; left; reflexivity | reflexivity].
  - apply (proj2 (proj2 (createCreationAction_validation
             (Samples.tokensOn None (Some [Samples.DAI])))) _ eq_refl Hne Hvalid).
    left. reflexivity.
  - destruct (proj2 (proj2 (createCreationAction_validation
                (Samples.tokensOn (Some "kovan") (Some [Samples.DAI]))))
                _ eq_refl Hne Hvalid) as [_ Hnet].
    destruct (Hnet "kovan" eq_refl) as [Hmissing _]; [discriminate |].
    apply Hmissing; [reflexivity |].
    simpl. intuition discriminate.
  - destruct (proj2 (proj2 (createCreationAction_validation
                (Samples.tokensOn (Some "constructor") (Some [Samples.DAI]))))
                _ eq_refl Hne Hvalid) as [_ Hnet].
    destruct (Hnet "constructor" eq_refl) as (_ & Hinherited & _); [discriminate |].
    apply Hinherited. left. reflexivity.
  - destruct (proj2 (proj2 (createCreationAction_validation
                (Samples.tokensOn (Some "rinkeby") (Some [Samples.DAI]))))
                _ eq_refl Hne Hvalid) as [_ Hnet].
    destruct (Hnet "rinkeby" eq_refl) as (_ & _ & Htable); [discriminate |].
    destruct (Htable _ ["0xfab46e002bbf0b4509813474841e0716e6730136"]
                eq_refl eq_refl) as [Hbad _].
    destruct Hbad as (address & _ & _ & Hres).
    + exists Samples.DAI. split; [left; reflexivity | reflexivity].
    + exists address. exact Hres.
  - destruct (proj2 (proj2 (createCreationAction_validation
                (Samples.tokensOn (Some "mainnet") (Some [Samples.DAI]))))
                _ eq_refl Hne Hvalid) as [_ Hnet].
    destruct (Hnet "mainnet" eq_refl) as (_ & _ & Htable); [discriminate |].
    destruct (supportedCurrencies_types "mainnet" _ Types.ERC20 eq_refl)
      as [erc Herc].
    destruct (Htable _ erc eq_refl Herc) as [_ Hgood].
    apply Hgood. intros address [<- | []].
    vm_compute in Herc. injection Herc as <-. reflexivity.
Defined.

(** Three more readings of the table on the main network: [usd] of type
    ISO4217 is refused, [USD] is accepted, and an ERC20 address written
    with capital letters is accepted. *)
Example checkSupportedCurrency_on_mainnet :
  AnyToErc20Proxy.checkSupportedCurrency (Samples.mkCurrency Types.ISO4217 "usd") "mainnet"
  = Throw "The currency (usd) of the request is not supported for this payment network."
  /\
  AnyToErc20Proxy.checkSupportedCurrency (Samples.mkCurrency Types.ISO4217 "USD") "mainnet"
  = Ok tt /\
  AnyToErc20Proxy.checkSupportedCurrency (Samples.mkCurrency Types.ERC20 Samples.DAI) "mainnet"
  = Ok tt.
Proof. split; [| split]; reflexivity. Qed.

(* ===================================================================== *)
(** * Facts about [bn.js] *)
(* ===================================================================== *)

Section BNFacts.

Lemma to_int_not_nil (z : Z) :
  Z.to_int z <> Decimal.Pos Decimal.Nil /\ Z.to_int z <> Decimal.Neg Decimal.Nil.
Proof.
  pose proof (DecimalZ.to_of (Z.to_int z)) as H.
  rewrite DecimalZ.of_to in H.
  split; intros E; rewrite E in H; vm_compute in H; discriminate.
Qed.

Lemma of_string_toString (z : Z) : BN.of_string (BN.toString z) = z.
Proof.
  unfold BN.of_string, BN.toString.
  destruct (to_int_not_nil z) as [Hp Hn].
  rewrite (NilZero.isi _ Hp Hn). apply DecimalZ.of_to.
Qed.

Lemma toString_not_empty (z : Z) : BN.toString z <> "".
Proof.
  intros E. pose proof (of_string_toString z) as H. rewrite E in H.
  vm_compute in H. subst z. vm_compute in E. discriminate.
Qed.

Lemma of_string_or_zero_toString (z : Z) :
  BN.of_string_or_zero (BN.toString z) = z.
Proof.
  unfold BN.of_string_or_zero.
  destruct (String.eqb_spec (BN.toString z) "") as [E | _].
  - now apply toString_not_empty in E.
  - apply of_string_toString.
Qed.

End BNFacts.

(* ===================================================================== *)
(** * Facts about [erc20/address-based.ts] *)
(* ===================================================================== *)

Section Erc20AddressBasedFacts.

Import Types Erc20AddressBased Spec.
Context `{Retriever : Erc20InfoRetriever}.

(** ** The sort *)

Lemma insertEvent_Permutation e l : Permutation (e :: l) (insertEvent e l).
Proof.
  induction l as [| x rest IH]; simpl; [reflexivity |].
  destruct (timestampOrZero e <=? timestampOrZero x); [reflexivity |].
  rewrite perm_swap. now apply perm_skip.
Qed.

Lemma sortEvents_Permutation l : Permutation l (sortEvents l).
Proof.
  induction l as [| e rest IH]; simpl; [reflexivity |].
  rewrite <- insertEvent_Permutation. now apply perm_skip.
Qed.

Lemma insertEvent_HdRel a e l :
  notLater a e -> HdRel notLater a l -> HdRel notLater a (insertEvent e l).
Proof.
  intros Hae Hal. destruct l as [| x rest]; simpl; [now constructor |].
  destruct (timestampOrZero e <=? timestampOrZero x); constructor;
    [assumption | now inversion Hal].
Qed.

Lemma insertEvent_Sorted e l :
  Sorted notLater l -> Sorted notLater (insertEvent e l).
Proof.
  induction l as [| x rest IH]; simpl; intros Hs.
  - repeat constructor.
  - destruct (Z.leb_spec (timestampOrZero e) (timestampOrZero x)) as [Hle | Hgt].
    + constructor; [assumption | now constructor].
    + inversion Hs as [| ? ? Hrest Hhd]; subst.
      constructor; [now apply IH |].
      apply insertEvent_HdRel; [unfold notLater; lia | assumption].
Qed.

Lemma sortEvents_Sorted l : Sorted notLater (sortEvents l).
Proof.
  induction l as [| e rest IH]; simpl; [constructor |].
  now apply insertEvent_Sorted.
Qed.

(** The sort is stable: the events of one timestamp keep their order. *)
Lemma insertEvent_same_timestamp t e l :
  List.filter (fun x => timestampOrZero x =? t) (insertEvent e l) =
  List.filter (fun x => timestampOrZero x =? t) (e :: l).
Proof.
  induction l as [| x rest IH]; simpl; [reflexivity |].
  destruct (Z.leb_spec (timestampOrZero e) (timestampOrZero x)) as [Hle | Hgt];
    [reflexivity |].
  simpl. simpl in IH. rewrite IH.
  destruct (Z.eqb_spec (timestampOrZero e) t) as [He | He];
    destruct (Z.eqb_spec (timestampOrZero x) t) as [Hx | Hx];
    try reflexivity; lia.
Qed.

Lemma sortEvents_stable t l :
  List.filter (fun x => timestampOrZero x =? t) (sortEvents l) =
  List.filter (fun x => timestampOrZero x =? t) l.
Proof.
  induction l as [| e rest IH]; simpl; [reflexivity |].
  rewrite insertEvent_same_timestamp. simpl. now rewrite IH.
Qed.

(** ** The sum *)

Lemma fold_left_add_shift (f : ERC20PaymentNetworkEvent -> Z) l acc :
  fold_left (fun a e => a + f e) l acc =
  acc + foldr Z.add 0 (map f l).
Proof.
  revert acc. induction l as [| e rest IH]; intros acc; simpl; [lia |].
  rewrite IH. lia.
Qed.

Lemma sumAmounts_total l : sumAmounts l = totalAmount l.
Proof.
  unfold sumAmounts, totalAmount. now rewrite fold_left_add_shift.
Qed.

(** ** [getBalance] step by step *)

Lemma defaulted_network_of_request (r : IRequest) :
  default "" (cur_network (currency (withDefaultNetwork r))) = defaultedNetwork r /\
  cur_value (currency (withDefaultNetwork r)) = cur_value (currency r) /\
  extensions (withDefaultNetwork r) = extensions r.
Proof.
  unfold withDefaultNetwork, defaultedNetwork.
  destruct r as [[t v [n |]] exts pe pr]; simpl; [| auto].
  destruct (String.eqb n ""); simpl; auto.
Qed.

Lemma getBalance_unfold (w : World) :
  getBalance w =
  let r := request w in
  let stopped := {| request := withDefaultNetwork r; queries := queries w |} in
  if negb (Js.includes supportedNetworks (defaultedNetwork r)) then
    (Throw ("Payment network " +:+ defaultedNetwork r
            +:+ " not supported by ERC20 payment detection. Supported networks: "
            +:+ "mainnet, rinkeby, private"), stopped)
  else
    match extensions r !! PAYMENT_NETWORK_ERC20_ADDRESS_BASED with
    | None =>
        (Throw "TypeError: Cannot read property 'values' of undefined", stopped)
    | Some st => balanceOf w st
    end.
Proof.
  destruct (defaulted_network_of_request (request w)) as (Hnet & Hval & Hext).
  assert (Hstep : forall (k : IRequest -> M ERC20BalanceWithEvents),
    (r0 ← getRequest;
     _ ← (if negb (Js.truthy (Js.of_string (cur_network (currency r0))))
          then setCurrencyNetwork "mainnet" else mret tt);
     r ← getRequest; k r) w =
    k (withDefaultNetwork (request w))
      {| request := withDefaultNetwork (request w); queries := queries w |}).
  { intros k. unfold mbind, M_bind, getRequest, withDefaultNetwork. simpl.
    destruct w as [r q]. simpl.
    destruct (Js.truthy (Js.of_string (cur_network (currency r)))); reflexivity. }
  unfold getBalance. rewrite Hstep. clear Hstep. cbv zeta.
  rewrite Hnet.
  destruct (negb (Js.includes supportedNetworks (defaultedNetwork (request w))));
    [reflexivity |].
  unfold extensionValue. rewrite Hext, Hval.
  destruct (extensions (request w) !! PAYMENT_NETWORK_ERC20_ADDRESS_BASED)
    as [st |]; [| reflexivity].
  unfold balanceOf, retrievedEvents, issuedQueries, extractBalanceAndEvents,
    retrieve, queryFor, addressOf.
  unfold mbind, M_bind, mret, M_ret, throw. simpl.
  destruct (Js.truthy (default Js.Undefined (state_values st !! "paymentAddress")));
    destruct (Js.truthy (default Js.Undefined (state_values st !! "refundAddress")));
    simpl;
    repeat match goal with
           | |- context [getTransferEvents ?q] =>
               destruct (getTransferEvents q) as [? | ?]; simpl
           end;
    rewrite ?app_nil_r, <- ?app_assoc; simpl;
    rewrite ?of_string_or_zero_toString, ?sumAmounts_total;
    try reflexivity.
Qed.

Lemma includes_supportedNetworks (net : string) :
  Js.includes supportedNetworks net = true <-> In net supportedNetworks.
Proof. apply includes_true_iff. Qed.

Lemma getBalance_supported (w : World) (st : IState) :
  In (defaultedNetwork (request w)) supportedNetworks ->
  extensions (request w) !! PAYMENT_NETWORK_ERC20_ADDRESS_BASED = Some st ->
  getBalance w = balanceOf w st.
Proof.
  intros Hnet Hext. rewrite getBalance_unfold. cbv zeta.
  apply includes_supportedNetworks in Hnet. rewrite Hnet, Hext. reflexivity.
Qed.

(** C2. On a supported network, for every pair of retrieved lists of
    payment and refund events, [getBalance] returns the base-ten string of
    the sum of the payment amounts minus the sum of the refund amounts,
    computed on unbounded integers, and the two lists merged and sorted by
    ascending timestamp: the events are a permutation of the two lists,
    they are in ascending order of timestamp, and events of the same
    timestamp keep the order they had. With payments of 100 and 50 and a
    refund of 30 the balance is the string 120 and there are 3 events. *)
Theorem getBalance_balance_and_events
    (w : World) (st : IState)
    (payments refunds : list ERC20PaymentNetworkEvent) :
  In (defaultedNetwork (request w)) supportedNetworks ->
  extensions (request w) !! PAYMENT_NETWORK_ERC20_ADDRESS_BASED = Some st ->
  retrievedEvents (request w) (addressOf st "paymentAddress") PAYMENT = Ok payments ->
  retrievedEvents (request w) (addressOf st "refundAddress") REFUND = Ok refunds ->
  exists res,
    fst (getBalance w) = Ok res /\
    balance res = BN.toString (totalAmount payments - totalAmount refunds) /\
    BN.of_string (balance res) = totalAmount payments - totalAmount refunds /\
    events res = sortEvents (payments ++ refunds) /\
    Permutation (payments ++ refunds) (events res) /\
    Sorted notLater (events res) /\
    (forall t,
       List.filter (fun e => timestampOrZero e =? t) (events res) =
       List.filter (fun e => timestampOrZero e =? t) (payments ++ refunds)) /\
    (map amount payments = ["100"; "50"] -> map amount refunds = ["30"] ->
     balance res = "120" /\ length (events res) = 3%nat).
Proof.
  intros Hnet Hext Hpay Hrefund.
  rewrite (getBalance_supported w st Hnet Hext).
  unfold balanceOf. rewrite Hpay, Hrefund. simpl.
  eexists. split; [reflexivity |]. simpl.
  split; [reflexivity |].
  split; [apply of_string_toString |].
  split; [reflexivity |].
  split; [apply sortEvents_Permutation |].
  split; [apply sortEvents_Sorted |].
  split; [intros t; apply sortEvents_stable |].
  intros Hp Hr. split.
  - unfold totalAmount. rewrite <- !(map_map amount BN.of_string), Hp, Hr.
    reflexivity.
  - rewrite <- (Permutation_length (sortEvents_Permutation _)), length_app.
    rewrite <- (length_map amount payments), <- (length_map amount refunds).
    now rewrite Hp, Hr.
Qed.

(** C7. When the network of the request, once defaulted, is not one of
    the supported networks, [getBalance] throws and the ledger has
    received no query. On a supported network, an absent payment address
    stands for a balance of zero and no event, without any query for
    payments; an absent refund address likewise. *)
Theorem getBalance_unsupported_network_and_absent_addresses (w : World) :
  (~ In (defaultedNetwork (request w)) supportedNetworks ->
   (exists msg, fst (getBalance w) = Throw msg) /\
   queries (snd (getBalance w)) = queries w) /\
  (forall st,
     In (defaultedNetwork (request w)) supportedNetworks ->
     extensions (request w) !! PAYMENT_NETWORK_ERC20_ADDRESS_BASED = Some st ->
     (Js.truthy (addressOf st "paymentAddress") = false ->
      forall refunds,
        retrievedEvents (request w) (addressOf st "refundAddress") REFUND
        = Ok refunds ->
        fst (getBalance w) =
        Ok {| balance := BN.toString (0 - totalAmount refunds);
              events := sortEvents refunds |} /\
        queries (snd (getBalance w)) =
        queries w ++ issuedQueries (request w) (addressOf st "refundAddress") REFUND) /\
     (Js.truthy (addressOf st "refundAddress") = false ->
      forall payments,
        retrievedEvents (request w) (addressOf st "paymentAddress") PAYMENT
        = Ok payments ->
        fst (getBalance w) =
        Ok {| balance := BN.toString (totalAmount payments - 0);
              events := sortEvents payments |} /\
        queries (snd (getBalance w)) =
        queries w ++ issuedQueries (request w) (addressOf st "paymentAddress") PAYMENT)).
Proof.
  split.
  - intros Hnet. rewrite <- includes_supportedNetworks in Hnet.
    apply not_true_is_false in Hnet.
    rewrite getBalance_unfold. cbv zeta. rewrite Hnet. simpl. eauto.
  - intros st Hnet Hext. rewrite (getBalance_supported w st Hnet Hext).
    unfold balanceOf. split.
    + intros Habsent refunds Hrefund.
      assert (Hnone : retrievedEvents (request w) (addressOf st "paymentAddress")
                        PAYMENT = Ok [])
        by (unfold retrievedEvents; now rewrite Habsent).
      assert (Hq : issuedQueries (request w) (addressOf st "paymentAddress")
                     PAYMENT = [])
        by (unfold issuedQueries; now rewrite Habsent).
      rewrite Hnone, Hrefund, Hq. simpl. auto.
    + intros Habsent payments Hpay.
      assert (Hnone : retrievedEvents (request w) (addressOf st "refundAddress")
                        REFUND = Ok [])
        by (unfold retrievedEvents; now rewrite Habsent).
      assert (Hq : issuedQueries (request w) (addressOf st "refundAddress")
                     REFUND = [])
        by (unfold issuedQueries; now rewrite Habsent).
      rewrite Hpay, Hnone, Hq. simpl. rewrite !app_nil_r. auto.
Qed.

(** C8, as the code has it. After a call of [getBalance] the request
    object is the one it was handed with [currency.network] set to
    ["mainnet"] when that field was missing or empty: a request that names
    its network is unchanged, and in every case the currency type and
    value, the extensions, the payee and the payer are unchanged. *)
Theorem getBalance_request_after (w : World) :
  request (snd (getBalance w)) = withDefaultNetwork (request w) /\
  (Js.truthy (Js.of_string (cur_network (currency (request w)))) = true ->
   request (snd (getBalance w)) = request w) /\
  (Js.truthy (Js.of_string (cur_network (currency (request w)))) = false ->
   cur_network (currency (request (snd (getBalance w)))) = Some "mainnet") /\
  cur_type (currency (request (snd (getBalance w)))) = cur_type (currency (request w)) /\
  cur_value (currency (request (snd (getBalance w)))) = cur_value (currency (request w)) /\
  extensions (request (snd (getBalance w))) = extensions (request w) /\
  payee (request (snd (getBalance w))) = payee (request w) /\
  payer (request (snd (getBalance w))) = payer (request w).
Proof.
  assert (Hreq : request (snd (getBalance w)) = withDefaultNetwork (request w)).
  { rewrite getBalance_unfold. cbv zeta.
    destruct (negb (Js.includes supportedNetworks _)); [reflexivity |].
    destruct (extensions (request w) !! PAYMENT_NETWORK_ERC20_ADDRESS_BASED)
      as [st |]; [| reflexivity].
    unfold balanceOf.
    destruct (retrievedEvents _ _ PAYMENT); [| reflexivity].
    destruct (retrievedEvents _ _ REFUND); reflexivity. }
  rewrite Hreq. unfold withDefaultNetwork.
  destruct (Js.truthy (Js.of_string (cur_network (currency (request w)))));
    repeat split; intros; try reflexivity; discriminate.
Qed.

End Erc20AddressBasedFacts.

(** ** Worked inputs for the balance *)

#[local] Existing Instance Samples.sampleRetriever.

Lemma getBalance_balance_and_events_witness :
  fst (Erc20AddressBased.getBalance
         (Samples.freshWorld
            (Samples.daiRequest (Some "mainnet")
               (Some Samples.payee1) (Some Samples.payer1))))
  = Ok {| Erc20AddressBased.balance := "120";
          Erc20AddressBased.events :=
            [ Samples.transfer Erc20AddressBased.PAYMENT "100" (Some 1600000010);
              Samples.transfer Erc20AddressBased.REFUND "30" (Some 1600000020);
              Samples.transfer Erc20AddressBased.PAYMENT "50" (Some 1600000030) ] |}.
Proof.
  destruct (getBalance_balance_and_events
              (Samples.freshWorld
                 (Samples.daiRequest (Some "mainnet")
                    (Some Samples.payee1) (Some Samples.payer1)))
              (Samples.addressBasedState (Some Samples.payee1) (Some Samples.payer1))
              [ Samples.transfer Erc20AddressBased.PAYMENT "100" (Some 1600000010);
                Samples.transfer Erc20AddressBased.PAYMENT "50" (Some 1600000030) ]
              [ Samples.transfer Erc20AddressBased.REFUND "30" (Some 1600000020) ])
    as (res & Hres & Hbalance & _ & Hevents & _).
  - simpl. left. reflexivity.
  - reflexivity.
  - reflexivity.
  - reflexivity.
  - rewrite Hres. destruct res as [b evs]. simpl in Hbalance, Hevents.
    rewrite Hbalance, Hevents. reflexivity.
Defined.

Lemma getBalance_unsupported_network_and_absent_addresses_witness :
  ((exists msg,
      fst (Erc20AddressBased.getBalance
             (Samples.freshWorld
                (Samples.daiRequest (Some "kovan")
                   (Some Samples.payee1) (Some Samples.payer1)))) = Throw msg) /\
   Erc20AddressBased.queries
     (snd (Erc20AddressBased.getBalance
             (Samples.freshWorld
                (Samples.daiRequest (Some "kovan")
                   (Some Samples.payee1) (Some Samples.payer1))))) = []) /\
  fst (Erc20AddressBased.getBalance
         (Samples.freshWorld
            (Samples.daiRequest (Some "rinkeby") None (Some Samples.payer1))))
  = Ok {| Erc20AddressBased.balance := "-30";
          Erc20AddressBased.events :=
            [ Samples.transfer Erc20AddressBased.REFUND "30" (Some 1600000020) ] |} /\
  fst (Erc20AddressBased.getBalance
         (Samples.freshWorld
            (Samples.daiRequest None (Some Samples.payee1) None)))
  = Ok {| Erc20AddressBased.balance := "150";
          Erc20AddressBased.events :=
            [ Samples.transfer Erc20AddressBased.PAYMENT "100" (Some 1600000010);
              Samples.transfer Erc20AddressBased.PAYMENT "50" (Some 1600000030) ] |}.
Proof.
  split; [| split].
  - apply (proj1 (getBalance_unsupported_network_and_absent_addresses
                    (Samples.freshWorld
                       (Samples.daiRequest (Some "kovan")
                          (Some Samples.payee1) (Some Samples.payer1))))).
    simpl. intros [H | [H | [H | []]]]; discriminate H.
  - destruct (proj2 (getBalance_unsupported_network_and_absent_addresses
                       (Samples.freshWorld
                          (Samples.daiRequest (Some "rinkeby") None
                             (Some Samples.payer1))))
                (Samples.addressBasedState None (Some Samples.payer1))
                (or_intror (or_introl eq_refl)) eq_refl) as [Habsent _].
    destruct (Habsent eq_refl
                [ Samples.transfer Erc20AddressBased.REFUND "30" (Some 1600000020) ]
                eq_refl) as [Hres _].
    rewrite Hres. reflexivity.
  - destruct (proj2 (getBalance_unsupported_network_and_absent_addresses
                       (Samples.freshWorld
                          (Samples.daiRequest None (Some Samples.payee1) None)))
                (Samples.addressBasedState (Some Samples.payee1) None)
                (or_introl eq_refl) eq_refl) as [_ Habsent].
    destruct (Habsent eq_refl
                [ Samples.transfer Erc20AddressBased.PAYMENT "100" (Some 1600000010);
                  Samples.transfer Erc20AddressBased.PAYMENT "50" (Some 1600000030) ]
                eq_refl) as [Hres _].
    rewrite Hres. reflexivity.
Defined.

Lemma getBalance_request_after_witness :
  Erc20AddressBased.request
    (snd (Erc20AddressBased.getBalance
            (Samples.freshWorld
               (Samples.daiRequest (Some "rinkeby")
                  (Some Samples.payee1) (Some Samples.payer1)))))
  = Samples.daiRequest (Some "rinkeby") (Some Samples.payee1) (Some Samples.payer1)
  /\
  Types.cur_network
    (Types.currency
       (Erc20AddressBased.request
          (snd (Erc20AddressBased.getBalance
                  (Samples.freshWorld
                     (Samples.daiRequest None (Some Samples.payee1) None))))))
  = Some "mainnet".
Proof.
  split.
  - apply (proj1 (proj2 (getBalance_request_after
                           (Samples.freshWorld
                              (Samples.daiRequest (Some "rinkeby")
                                 (Some Samples.payee1) (Some Samples.payer1)))))).
    reflexivity.
  - apply (proj1 (proj2 (proj2 (getBalance_request_after
                                  (Samples.freshWorld
                                     (Samples.daiRequest None
                                        (Some Samples.payee1) None)))))).
    reflexivity.
Defined.

(** A request that gives no network: the call succeeds, and the request
    object is not the one that was passed, its [currency.network] having
    become ["mainnet"]. *)
Lemma getBalance_mutates_request_counterexample :
  let before := Samples.daiRequest None (Some Samples.payee1) None in
  let after :=
    Erc20AddressBased.request
      (snd (Erc20AddressBased.getBalance (Samples.freshWorld before))) in
  is_ok (fst (Erc20AddressBased.getBalance (Samples.freshWorld before))) /\
  Types.cur_network (Types.currency before) = None /\
  Types.cur_network (Types.currency after) = Some "mainnet" /\
  after <> before.
Proof.
  cbv zeta. split; [| split; [| split]].
  - vm_compute. exact I.
  - reflexivity.
  - reflexivity.
  - intros H. apply (f_equal (fun r => Types.cur_network (Types.currency r))) in H.
    vm_compute in H. discriminate H.
Qed.

(* ===================================================================== *)
(** * Facts about the aggregator map *)
(* ===================================================================== *)

Section ChainlinkToolsFacts.

Import ChainlinkTools Spec.

Implicit Types (m : gmap string (gmap string string)).
Implicit Types (args : AggregatorUpdatedArgs).

Lemma aggregatorsMaps_snoc (logs : list AggregatorUpdatedArgs) args :
  aggregatorsMaps (logs ++ [args]) = updateAggregators (aggregatorsMaps logs) args.
Proof. unfold aggregatorsMaps. now rewrite fold_left_app. Qed.

(** What a removal does to the entry of its input currency. *)
Lemma removal_entry m args :
  _aggregator args = ZERO_ADDRESS ->
  updateAggregators m args =
  match m !! _input args with
  | None => m
  | Some outputs =>
      if decide (delete (_output args) outputs = ∅)
      then delete (_input args) m
      else <[ _input args := delete (_output args) outputs ]> m
  end.
Proof.
  intros Hzero. unfold updateAggregators. rewrite Hzero, String.eqb_refl.
  destruct (m !! _input args) as [outputs |] eqn:Hin.
  - rewrite lookup_insert_eq.
    destruct (decide (delete (_output args) outputs = ∅)) as [Hempty | Hne].
    + rewrite Hempty. simpl. rewrite map_size_empty. simpl.
      now rewrite delete_insert_eq.
    + destruct (Nat.eqb_spec (size (delete (_output args) outputs)) 0) as [Hs | _];
        [apply map_size_empty_iff in Hs; contradiction | reflexivity].
  - now rewrite Hin.
Qed.

(** What any other event does to it. *)
Lemma upsert_entry m args :
  _aggregator args <> ZERO_ADDRESS ->
  updateAggregators m args =
  <[ _input args :=
       <[ _output args := _aggregator args ]> (default ∅ (m !! _input args)) ]> m.
Proof.
  intros Hnz. unfold updateAggregators.
  apply String.eqb_neq in Hnz. rewrite Hnz.
  destruct (m !! _input args); simpl; [reflexivity |].
  now rewrite insert_empty.
Qed.

Lemma removal_edges m args i o :
  _aggregator args = ZERO_ADDRESS ->
  edge (updateAggregators m args) i o =
  if decide (i = _input args /\ o = _output args) then None else edge m i o.
Proof.
  intros Hzero. rewrite (removal_entry _ _ Hzero). unfold edge.
  destruct (m !! _input args) as [outputs |] eqn:Hin.
  - destruct (decide (delete (_output args) outputs = ∅)) as [Hempty | Hne].
    + destruct (decide (i = _input args)) as [-> | Hi].
      * rewrite lookup_delete_eq, Hin. simpl.
        destruct (decide (_ /\ o = _output args)) as [_ | Hno]; [reflexivity |].
        assert (o <> _output args) as Ho by tauto.
        rewrite <- (lookup_delete_ne outputs (_output args) o) by congruence.
        now rewrite Hempty, lookup_empty.
      * rewrite lookup_delete_ne by congruence.
        destruct (decide (i = _ /\ _)); [tauto | reflexivity].
    + destruct (decide (i = _input args)) as [-> | Hi].
      * rewrite lookup_insert_eq, Hin. simpl.
        destruct (decide (_ /\ o = _output args)) as [[_ ->] | Hno].
        -- apply lookup_delete_eq.
        -- apply lookup_delete_ne. intros <-. tauto.
      * rewrite lookup_insert_ne by congruence.
        destruct (decide (i = _ /\ _)); [tauto | reflexivity].
  - destruct (decide (i = _input args /\ o = _output args)) as [[-> _] | _];
      [now rewrite Hin | reflexivity].
Qed.

Lemma upsert_edges m args i o :
  _aggregator args <> ZERO_ADDRESS ->
  edge (updateAggregators m args) i o =
  if decide (i = _input args /\ o = _output args)
  then Some (_aggregator args) else edge m i o.
Proof.
  intros Hnz. rewrite (upsert_entry _ _ Hnz). unfold edge.
  destruct (decide (i = _input args)) as [-> | Hi].
  - rewrite lookup_insert_eq. simpl.
    destruct (decide (_ /\ o = _output args)) as [[_ ->] | Hno].
    + apply lookup_insert_eq.
    + rewrite lookup_insert_ne by (intros <-; tauto).
      destruct (m !! _input args); simpl; [reflexivity | apply lookup_empty].
  - rewrite lookup_insert_ne by congruence.
    destruct (decide (i = _ /\ _)); [tauto | reflexivity].
Qed.

Lemma removal_then_same_edge m args :
  _aggregator args <> ZERO_ADDRESS ->
  edge m (_input args) (_output args) = Some (_aggregator args) ->
  updateAggregators (updateAggregators m (removal args)) args = m.
Proof.
  intros Hnz Hedge. unfold edge in Hedge.
  destruct (m !! _input args) as [outputs |] eqn:Hin; simpl in Hedge;
    [| discriminate].
  rewrite (removal_entry m (removal args)) by reflexivity. simpl. rewrite Hin.
  rewrite (upsert_entry _ _ Hnz).
  destruct (decide (delete (_output args) outputs = ∅)) as [Hempty | Hne].
  - rewrite lookup_delete_eq. simpl. rewrite insert_delete_eq.
    rewrite <- Hempty, (insert_delete_id _ _ _ Hedge).
    now apply insert_id.
  - rewrite lookup_insert_eq. simpl. rewrite insert_insert_eq.
    rewrite (insert_delete_id _ _ _ Hedge).
    now apply insert_id.
Qed.

(** C5. The fold that rebuilds the aggregator map is a function of the
    event stream, one event at a time. An event with the zero address
    removes the edge from its input to its output, leaves every other edge
    as it was, and removes the input key when no output is left; any other
    event sets that edge to its aggregator and leaves every other edge as
    it was. Removing an edge and then registering it again with the same
    aggregator gives back the map as it was before. *)
Theorem aggregators_rebuild m (logs1 logs2 : list AggregatorUpdatedArgs) args :
  (logs1 = logs2 -> aggregatorsMaps logs1 = aggregatorsMaps logs2) /\
  aggregatorsMaps (logs1 ++ [args]) = updateAggregators (aggregatorsMaps logs1) args /\
  (_aggregator args = ZERO_ADDRESS ->
   edge (updateAggregators m args) (_input args) (_output args) = None /\
   (forall i o, (i, o) <> (_input args, _output args) ->
      edge (updateAggregators m args) i o = edge m i o) /\
   (forall outputs, m !! _input args = Some outputs ->
      updateAggregators m args !! _input args =
      if decide (delete (_output args) outputs = ∅) then None
      else Some (delete (_output args) outputs))) /\
  (_aggregator args <> ZERO_ADDRESS ->
   edge (updateAggregators m args) (_input args) (_output args)
   = Some (_aggregator args) /\
   (forall i o, (i, o) <> (_input args, _output args) ->
      edge (updateAggregators m args) i o = edge m i o) /\
   (edge m (_input args) (_output args) = Some (_aggregator args) ->
    updateAggregators (updateAggregators m (removal args)) args = m)).
Proof.
  split; [now intros -> |]. split; [apply aggregatorsMaps_snoc |]. split.
  - intros Hzero. split; [| split].
    + rewrite (removal_edges _ _ _ _ Hzero).
      destruct (decide (_ /\ _)); [reflexivity | tauto].
    + intros i o Hne. rewrite (removal_edges _ _ _ _ Hzero).
      destruct (decide (i = _ /\ o = _)) as [[-> ->] | _]; [congruence | reflexivity].
    + intros outputs Hin. rewrite (removal_entry _ _ Hzero), Hin.
      destruct (decide (delete (_output args) outputs = ∅));
        [apply lookup_delete_eq | apply lookup_insert_eq].
  - intros Hnz. split; [| split].
    + rewrite (upsert_edges _ _ _ _ Hnz).
      destruct (decide (_ /\ _)); [reflexivity | tauto].
    + intros i o Hne. rewrite (upsert_edges _ _ _ _ Hnz).
      destruct (decide (i = _ /\ o = _)) as [[-> ->] | _]; [congruence | reflexivity].
    + now apply removal_then_same_edge.
Qed.

End ChainlinkToolsFacts.

Lemma aggregators_rebuild_witness :
  Spec.edge
    (ChainlinkTools.updateAggregators
       (ChainlinkTools.aggregatorsMaps Samples.sampleLogs)
       (Spec.removal (Samples.updated Samples.EUR_hash Samples.USD_hash
                        Samples.aggregatorEurUsd)))
    Samples.EUR_hash Samples.USD_hash = None /\
  ChainlinkTools.updateAggregators
    (ChainlinkTools.aggregatorsMaps Samples.sampleLogs)
    (Spec.removal (Samples.updated Samples.EUR_hash Samples.USD_hash
                     Samples.aggregatorEurUsd))
  !! Samples.EUR_hash = None /\
  ChainlinkTools.updateAggregators
    (ChainlinkTools.updateAggregators
       (ChainlinkTools.aggregatorsMaps Samples.sampleLogs)
       (Spec.removal (Samples.updated Samples.EUR_hash Samples.USD_hash
                        Samples.aggregatorEurUsd)))
    (Samples.updated Samples.EUR_hash Samples.USD_hash Samples.aggregatorEurUsd)
  = ChainlinkTools.aggregatorsMaps Samples.sampleLogs.
Proof.
  pose proof (aggregators_rebuild
                (ChainlinkTools.aggregatorsMaps Samples.sampleLogs)
                Samples.sampleLogs Samples.sampleLogs
                (Spec.removal (Samples.updated Samples.EUR_hash Samples.USD_hash
                                 Samples.aggregatorEurUsd)))
    as (_ & _ & Hremove & _).
  pose proof (aggregators_rebuild
                (ChainlinkTools.aggregatorsMaps Samples.sampleLogs)
                Samples.sampleLogs Samples.sampleLogs
                (Samples.updated Samples.EUR_hash Samples.USD_hash
                   Samples.aggregatorEurUsd))
    as (Hsame & _ & _ & Hupsert).
  destruct (Hremove eq_refl) as (Hedge & _ & Hkey).
  destruct Hupsert as (_ & _ & Hrestore); [discriminate |].
  split; [exact Hedge |]. split.
  - etransitivity;
      [exact (Hkey {[ Samples.USD_hash := Samples.aggregatorEurUsd ]} eq_refl)
      | reflexivity].
  - apply Hrestore. reflexivity.
Defined.

(* ===================================================================== *)
(** * Facts about [ProxyChainlinkConversionPath] *)
(* ===================================================================== *)

Section ProxyChainlinkConversionPathFacts.

Import ProxyChainlinkConversionPath.
Context `{Oracle : ChainlinkConversionPath}.

Lemma mul_no_overflow (a b : Z) :
  0 <= a -> 0 <= b -> a * b <= SafeMath.MAX_UINT256 ->
  SafeMath.mul a b = Ok (a * b).
Proof.
  unfold SafeMath.mul, SafeMath.MAX_UINT256. intros Ha Hb Hmax.
  destruct (Z.eqb_spec a 0) as [-> | Hne]; [reflexivity |].
  rewrite Z.mod_small by nia.
  rewrite (Z.mul_comm a b), Z.div_mul by assumption.
  now rewrite Z.eqb_refl.
Qed.

Lemma convert_no_overflow (amount rate decimals : Z) :
  0 <= amount -> 0 <= rate -> amount * rate <= SafeMath.MAX_UINT256 ->
  0 < decimals ->
  convert amount rate decimals = Ok (amount * rate / decimals).
Proof.
  intros Ha Hr Hmax Hd. unfold convert.
  rewrite (mul_no_overflow _ _ Ha Hr Hmax). simpl.
  unfold SafeMath.div. apply Z.ltb_lt in Hd. now rewrite Hd.
Qed.

(** The only messages the conversion itself can revert with are those of
    the arithmetic library. *)
Lemma convert_not_outdated (amount rate decimals : Z) :
  convert amount rate decimals <> Throw "aggregator rate is outdated".
Proof.
  unfold convert, SafeMath.mul, SafeMath.div.
  destruct (amount =? 0); simpl.
  - destruct (0 <? decimals); discriminate.
  - destruct (_ =? rate); simpl; [| discriminate].
    destruct (0 <? decimals); discriminate.
Qed.

Lemma getConversions_after_rate (now : Z) (path : list string)
    (requestAmount feesRequestAmount rate oldest decimals : Z) :
  getRate path = Ok (rate, oldest, decimals) ->
  oldest <= now ->
  getConversions now path requestAmount feesRequestAmount =
  if now - oldest <=? maxTimestampDeltaAcceptable then
    amountToPay ← convert requestAmount rate decimals;
    amountToPayInFees ← convert feesRequestAmount rate decimals;
    Ok (amountToPay, amountToPayInFees)
  else Throw "aggregator rate is outdated".
Proof.
  intros Hrate Hle. unfold getConversions. rewrite Hrate. simpl.
  unfold SafeMath.sub. apply Z.leb_le in Hle. rewrite Hle. simpl.
  destruct (now - oldest <=? maxTimestampDeltaAcceptable); reflexivity.
Qed.

(** C6. The freshness window is 600 seconds. When the oldest rate of the
    path is more than 600 seconds older than the block, [getConversions]
    reverts with the outdated-rate message; when it is at most 600 seconds
    older the check passes: the result is that of the two conversions,
    which is never the outdated-rate error and is the pair of converted
    amounts when the products fit in 256 bits and the divisor is
    positive. A rate 601 seconds old fails, a rate 599 seconds old
    passes. *)
Theorem getConversions_freshness (now : Z) (path : list string)
    (requestAmount feesRequestAmount rate oldest decimals : Z) :
  getRate path = Ok (rate, oldest, decimals) ->
  oldest <= now ->
  maxTimestampDeltaAcceptable = 600 /\
  (600 < now - oldest ->
   getConversions now path requestAmount feesRequestAmount
   = Throw "aggregator rate is outdated") /\
  (now - oldest <= 600 ->
   getConversions now path requestAmount feesRequestAmount
   = (amountToPay ← convert requestAmount rate decimals;
      amountToPayInFees ← convert feesRequestAmount rate decimals;
      Ok (amountToPay, amountToPayInFees)) /\
   getConversions now path requestAmount feesRequestAmount
   <> Throw "aggregator rate is outdated" /\
   (0 <= requestAmount -> 0 <= feesRequestAmount -> 0 <= rate -> 0 < decimals ->
    requestAmount * rate <= SafeMath.MAX_UINT256 ->
    feesRequestAmount * rate <= SafeMath.MAX_UINT256 ->
    getConversions now path requestAmount feesRequestAmount
    = Ok (requestAmount * rate / decimals, feesRequestAmount * rate / decimals))) /\
  (now - oldest = 601 ->
   getConversions now path requestAmount feesRequestAmount
   = Throw "aggregator rate is outdated") /\
  (now - oldest = 599 ->
   getConversions now path requestAmount feesRequestAmount
   <> Throw "aggregator rate is outdated").
Proof.
  intros Hrate Hle.
  pose proof (getConversions_after_rate now path requestAmount feesRequestAmount
                rate oldest decimals Hrate Hle) as Hrun.
  unfold maxTimestampDeltaAcceptable in Hrun.
  assert (Hstale : 600 < now - oldest ->
                   getConversions now path requestAmount feesRequestAmount
                   = Throw "aggregator rate is outdated").
  { intros Hold. rewrite Hrun.
    destruct (Z.leb_spec (now - oldest) 600); [lia | reflexivity]. }
  assert (Hfresh : now - oldest <= 600 ->
                   getConversions now path requestAmount feesRequestAmount
                   = (amountToPay ← convert requestAmount rate decimals;
                      amountToPayInFees ← convert feesRequestAmount rate decimals;
                      Ok (amountToPay, amountToPayInFees))).
  { intros Hnew. rewrite Hrun.
    destruct (Z.leb_spec (now - oldest) 600); [reflexivity | lia]. }
  assert (Hpass : now - oldest <= 600 ->
                  getConversions now path requestAmount feesRequestAmount
                  <> Throw "aggregator rate is outdated").
  { intros Hnew. rewrite (Hfresh Hnew).
    pose proof (convert_not_outdated requestAmount rate decimals) as H1.
    pose proof (convert_not_outdated feesRequestAmount rate decimals) as H2.
    unfold mbind, result_bind.
    destruct (convert requestAmount rate decimals) as [x |];
      [| intros E; injection E as ->; now apply H1].
    destruct (convert feesRequestAmount rate decimals) as [y |];
      [discriminate | intros E; injection E as ->; now apply H2]. }
  split; [reflexivity |]. split; [exact Hstale |]. split; [| split].
  - intros Hnew. split; [now apply Hfresh |]. split; [now apply Hpass |].
    intros Ha Hf Hr Hd Hmax1 Hmax2. rewrite (Hfresh Hnew).
    rewrite (convert_no_overflow _ _ _ Ha Hr Hmax1 Hd). simpl.
    now rewrite (convert_no_overflow _ _ _ Hf Hr Hmax2 Hd).
  - intros H601. apply Hstale. lia.
  - intros H599. apply Hpass. lia.
Qed.

(** X30. A rate dated after the block makes the subtraction revert:
    [getConversions] then fails with the error of [SafeMath.sub] and not
    with the one of the freshness check. *)
Lemma getConversions_rate_from_the_future (now : Z) (path : list string)
    (requestAmount feesRequestAmount rate oldest decimals : Z) :
  getRate path = Ok (rate, oldest, decimals) ->
  now < oldest ->
  getConversions now path requestAmount feesRequestAmount
  = Throw "SafeMath: subtraction overflow".
Proof.
  intros Hrate Hlt. unfold getConversions. rewrite Hrate. simpl.
  unfold SafeMath.sub. apply Z.leb_gt in Hlt. now rewrite Hlt.
Qed.

End ProxyChainlinkConversionPathFacts.

Lemma getConversions_freshness_witness :
  @ProxyChainlinkConversionPath.getConversions
    (Samples.sampleOracle (1600000000 - 601))
    1600000000 [Samples.EUR_hash; Samples.DAI] 10000 100
  = Throw "aggregator rate is outdated" /\
  @ProxyChainlinkConversionPath.getConversions
    (Samples.sampleOracle (1600000000 - 599))
    1600000000 [Samples.EUR_hash; Samples.DAI] 10000 100
  = Ok (120000000000000000000, 1200000000000000000) /\
  @ProxyChainlinkConversionPath.getConversions
    (Samples.sampleOracle (1600000000 - 600))
    1600000000 [Samples.EUR_hash; Samples.DAI] 10000 100
  <> Throw "aggregator rate is outdated".
Proof.
  split; [| split].
  - apply (@getConversions_freshness (Samples.sampleOracle (1600000000 - 601))
             1600000000 [Samples.EUR_hash; Samples.DAI] 10000 100
             (12 * 10 ^ 33) (1600000000 - 601) (10 ^ 18) eq_refl);
      [lia | lia].
  - destruct (@getConversions_freshness (Samples.sampleOracle (1600000000 - 599))
                1600000000 [Samples.EUR_hash; Samples.DAI] 10000 100
                (12 * 10 ^ 33) (1600000000 - 599) (10 ^ 18) eq_refl)
      as (_ & _ & Hfresh & _); [lia |].
    destruct Hfresh as (_ & _ & Hvalue); [lia |].
    rewrite Hvalue; [reflexivity | lia | lia | lia | lia | | ];
      unfold SafeMath.MAX_UINT256; lia.
  - destruct (@getConversions_freshness (Samples.sampleOracle (1600000000 - 600))
                1600000000 [Samples.EUR_hash; Samples.DAI] 10000 100
                (12 * 10 ^ 33) (1600000000 - 600) (10 ^ 18) eq_refl)
      as (_ & _ & Hfresh & _); [lia |].
    destruct Hfresh as (_ & Hpass & _); [lia |]. exact Hpass.
Defined.

(* ===================================================================== *)
(** * More facts about [any-to-erc20-proxy.ts] *)
(* ===================================================================== *)

Section AnyToErc20ProxyMore.

Import Types AnyToErc20Proxy Spec.
Context `{Super : Erc20FeeProxyPaymentNetwork} `{Ref : ReferenceBased}
        `{Copy : Utils}.

(** The state [applyCreation] builds from the state of the parent. *)
Lemma applyCreation_after_checks (a : IAction) (ts : Z)
    (net : string) (tokens : list string) :
  network (parameters a) = Some net -> net <> "" ->
  acceptedTokens (parameters a) = Some tokens -> tokens <> [] ->
  (forall t, In t tokens -> isValidAddress t = true) ->
  applyCreation a ts =
  base ← super_applyCreation a ts;
  Ok {| state_id := state_id base;
        state_type := state_type base;
        state_version := state_version base;
        state_events :=
          [ {| event_name := "create";
               event_parameters :=
                 {[ "feeAddress" := Js.of_string (feeAddress (parameters a));
                    "feeAmount" := Js.of_string (feeAmount (parameters a));
                    "paymentAddress" := Js.of_string (paymentAddress (parameters a));
                    "refundAddress" := Js.of_string (refundAddress (parameters a));
                    "salt" := Js.of_string (salt (parameters a));
                    "network" := Js.Str net;
                    "acceptedTokens" := Js.Strs tokens;
                    "maxRateTimespan" :=
                      Js.of_number (maxRateTimespan (parameters a)) ]};
               event_timestamp := ts |} ];
        state_values :=
          <[ "maxRateTimespan" := Js.of_number (maxRateTimespan (parameters a)) ]>
          (<[ "acceptedTokens" := Js.Strs tokens ]>
          (<[ "network" := Js.Str net ]> (state_values base))) |}.
Proof.
  intros Hnet Hne Htok Hnonempty Hvalid. unfold applyCreation.
  rewrite Hnet, Htok.
  destruct net as [| c net']; [congruence |].
  destruct tokens as [| t rest]; [congruence |].
  rewrite (some_invalid_false _ Hvalid). reflexivity.
Qed.

(** X1. A state returned by [applyCreation] comes from an action that
    names a network and a non-empty list of valid token addresses and that
    the parent accepted. The state keeps the id, type and version of the
    parent's state, stores the network of the action itself (the default
    network is never stored), the accepted tokens and the rate timespan,
    keeps every other value of the parent, and has exactly one event,
    [create], at the timestamp of the action: the events of the parent's
    state are replaced. *)
Theorem applyCreation_ok_inv (a : IAction) (ts : Z) (st : IState) :
  applyCreation a ts = Ok st ->
  exists net tokens base,
    network (parameters a) = Some net /\ net <> "" /\
    acceptedTokens (parameters a) = Some tokens /\ tokens <> [] /\
    (forall t, In t tokens -> isValidAddress t = true) /\
    super_applyCreation a ts = Ok base /\
    state_id st = state_id base /\
    state_type st = state_type base /\
    state_version st = state_version base /\
    state_values st !! "network" = Some (Js.Str net) /\
    state_values st !! "acceptedTokens" = Some (Js.Strs tokens) /\
    state_values st !! "maxRateTimespan"
    = Some (Js.of_number (maxRateTimespan (parameters a))) /\
    (forall k, k <> "network" -> k <> "acceptedTokens" -> k <> "maxRateTimespan" ->
       state_values st !! k = state_values base !! k) /\
    exists ev,
      state_events st = [ev] /\ event_name ev = "create" /\
      event_timestamp ev = ts /\
      event_parameters ev !! "network" = Some (Js.Str net) /\
      event_parameters ev !! "acceptedTokens" = Some (Js.Strs tokens).
Proof.
  intros Hok.
  destruct (network (parameters a)) as [net |] eqn:Hnet;
    [| unfold applyCreation in Hok; rewrite Hnet in Hok; discriminate].
  destruct (String.eqb_spec net "") as [-> | Hne];
    [unfold applyCreation in Hok; rewrite Hnet in Hok; discriminate |].
  destruct (acceptedTokens (parameters a)) as [tokens |] eqn:Htok; cycle 1.
  { unfold applyCreation in Hok. rewrite Hnet, Htok in Hok.
    destruct net as [| c n]; discriminate. }
  destruct tokens as [| t rest] eqn:Hts.
  { unfold applyCreation in Hok. rewrite Hnet, Htok in Hok.
    destruct net as [| c n]; discriminate. }
  rewrite <- Hts in *.
  assert (Hnonempty : tokens <> []) by (rewrite Hts; discriminate).
  destruct (Js.some (fun address => negb (isValidAddress address)) tokens) eqn:Hsome.
  { unfold applyCreation in Hok. rewrite Hnet, Htok in Hok.
    destruct net as [| c n]; [congruence |].
    rewrite Hts in Hok, Hsome. rewrite Hsome in Hok. discriminate. }
  assert (Hvalid : forall t0, In t0 tokens -> isValidAddress t0 = true).
  { intros t0 Hin. destruct (isValidAddress t0) eqn:E; [reflexivity |].
    assert (Js.some (fun address => negb (isValidAddress address)) tokens = true)
      by (apply some_invalid_iff; eauto).
    congruence. }
  rewrite (applyCreation_after_checks a ts net tokens Hnet Hne Htok Hnonempty Hvalid)
    in Hok.
  destruct (super_applyCreation a ts) as [base |] eqn:Hbase; [| discriminate].
  simpl in Hok. injection Hok as <-.
  exists net, tokens, base. simpl.
  repeat (split; [first [assumption | reflexivity] |]).
  split; [now rewrite lookup_insert_ne, lookup_insert_ne, lookup_insert_eq |].
  split; [now rewrite lookup_insert_ne, lookup_insert_eq |].
  split; [now rewrite lookup_insert_eq |].
  split.
  - intros k H1 H2 H3. now rewrite !lookup_insert_ne by congruence.
  - eexists. split; [reflexivity |]. simpl.
    repeat split; reflexivity.
Qed.


Lemma applyCreation_without_network (a : IAction) (ts : Z) :
  network (parameters a) = None \/ network (parameters a) = Some "" ->
  applyCreation a ts = Throw "network is required".
Proof. unfold applyCreation. intros [-> | ->]; reflexivity. Qed.

(** X2. The checks of [applyCreation] in their order: the network of the
    action is required first, then a non-empty list of accepted tokens,
    then the validity of every token; an action that passes them fails
    exactly when the parent refuses it, with the parent's error. *)
Theorem applyCreation_errors (a : IAction) (ts : Z) :
  (network (parameters a) = None \/ network (parameters a) = Some "" ->
   applyCreation a ts = Throw "network is required") /\
  (forall net, network (parameters a) = Some net -> net <> "" ->
     (acceptedTokens (parameters a) = None \/ acceptedTokens (parameters a) = Some [] ->
      applyCreation a ts = Throw "acceptedTokens is required and cannot be empty") /\
     (forall tokens, acceptedTokens (parameters a) = Some tokens ->
        (exists t, In t tokens /\ isValidAddress t = false) ->
        applyCreation a ts =
        Throw "acceptedTokens must contains only valid ethereum addresses") /\
     (forall tokens msg, acceptedTokens (parameters a) = Some tokens ->
        tokens <> [] -> (forall t, In t tokens -> isValidAddress t = true) ->
        super_applyCreation a ts = Throw msg ->
        applyCreation a ts = Throw msg)).
Proof.
  split.
  - apply applyCreation_without_network.
  - intros net Hnet Hne. split; [| split].
    + unfold applyCreation. rewrite Hnet.
      destruct net as [| c n]; [congruence |].
      intros [-> | ->]; reflexivity.
    + intros tokens Htok Hbad. unfold applyCreation. rewrite Hnet, Htok.
      destruct net as [| c n]; [congruence |].
      destruct tokens as [| t rest]; [destruct Hbad as (? & [] & _) |].
      apply some_invalid_iff in Hbad. now rewrite Hbad.
    + intros tokens msg Htok Hnonempty Hvalid Hsuper.
      rewrite (applyCreation_after_checks a ts net tokens Hnet Hne Htok
                 Hnonempty Hvalid).
      now rewrite Hsuper.
Qed.

(** X3. A CREATE action that names no network is never applied: the
    currency of the request is checked against the main network, and a
    request that passes this check and has no state for the extension is
    then refused by the creation itself, for want of a network. *)
Theorem create_without_network_is_refused
    (st : gmap string IState) (a : IAction) (req : IRequest)
    (who : IIdentity) (ts : Z) :
  action a = ACTION.CREATE ->
  network (parameters a) = None \/ network (parameters a) = Some "" ->
  is_throw (applyActionToExtension st a req who ts) /\
  (checkSupportedCurrency (currency req) "mainnet" = Ok tt ->
   extensions req !! id a = None ->
   applyActionToExtension st a req who ts = Throw "network is required").
Proof.
  intros Hcreate Hnet.
  assert (Hdefault : actionNetwork a = "mainnet")
    by (unfold actionNetwork; destruct Hnet as [-> | ->]; reflexivity).
  assert (Hcreation : applyCreation a ts = Throw "network is required")
    by (apply applyCreation_without_network; assumption).
  assert (Hrefused : checkSupportedCurrency (currency req) "mainnet" = Ok tt ->
                     extensions req !! id a = None ->
                     applyActionToExtension st a req who ts
                     = Throw "network is required").
  { intros Hok Hnone. rewrite <- Hdefault in Hok.
    rewrite (applyActionToExtension_after_check _ _ _ _ _ Hok), Hcreate. simpl.
    rewrite bool_decide_eq_false_2 by (rewrite Hnone; intros [x Hx]; discriminate).
    now rewrite Hcreation. }
  split; [| exact Hrefused].
  destruct (checkSupportedCurrency_cases (currency req) (actionNetwork a))
    as [Hok | [msg Hmsg]].
  - rewrite (applyActionToExtension_after_check _ _ _ _ _ Hok), Hcreate. simpl.
    destruct (bool_decide (is_Some (extensions req !! id a))); [exact I |].
    now rewrite Hcreation.
  - unfold applyActionToExtension. fold (actionNetwork a). now rewrite Hmsg.
Qed.

(** X4. What a successful [applyActionToExtension] tells: the currency of
    the request is supported on the network of the action; the action type
    is one of the four of the enumeration; it is CREATE exactly when the
    request had no state for the extension; and the returned states are
    the deep copy of the given ones with the entry of the extension id
    replaced: every other entry is the one of the copy, and no entry is
    added under another key. *)
Theorem applyActionToExtension_ok_inv
    (st st' : gmap string IState) (a : IAction) (req : IRequest)
    (who : IIdentity) (ts : Z) :
  applyActionToExtension st a req who ts = Ok st' ->
  checkSupportedCurrency (currency req) (actionNetwork a) = Ok tt /\
  In (action a) knownActions /\
  (action a = ACTION.CREATE <-> extensions req !! id a = None) /\
  (exists s, st' = <[ id a := s ]> (deepCopy st)) /\
  (forall k, k <> id a -> st' !! k = deepCopy st !! k) /\
  (forall k, k <> id a -> st !! k = None -> st' !! k = None).
Proof.
  intros Hres.
  destruct (checkSupportedCurrency_cases (currency req) (actionNetwork a))
    as [Hok | [msg Hmsg]]; cycle 1.
  { unfold applyActionToExtension in Hres. fold (actionNetwork a) in Hres.
    rewrite Hmsg in Hres. discriminate. }
  rewrite (applyActionToExtension_after_check _ _ _ _ _ Hok) in Hres.
  assert (Hshape : In (action a) knownActions /\
                   (action a = ACTION.CREATE <-> extensions req !! id a = None) /\
                   exists s, st' = <[ id a := s ]> (deepCopy st)).
  { unfold knownActions.
    destruct (String.eqb_spec (action a) ACTION.CREATE) as [Hc | Hc].
    - destruct (extensions req !! id a) as [x |] eqn:Hext.
      + rewrite bool_decide_eq_true_2 in Hres by eauto. discriminate.
      + rewrite bool_decide_eq_false_2 in Hres by (intros [x Hx]; discriminate).
        destruct (applyCreation a ts) as [s |]; [| discriminate].
        injection Hres as <-. split; [now left |]. split; [tauto | eauto].
    - destruct (extensions req !! id a) as [x |] eqn:Hext; cycle 1.
      { rewrite bool_decide_eq_false_2 in Hres by (intros [x Hx]; discriminate).
        discriminate. }
      rewrite bool_decide_eq_true_2 in Hres by eauto. cbn [negb] in Hres.
      assert (Hiff : action a = ACTION.CREATE <-> Some x = None)
        by (split; [tauto | discriminate]).
      destruct (String.eqb_spec (action a) ACTION.ADD_PAYMENT_ADDRESS) as [H1 | H1].
      { destruct (applyAddPaymentAddress _ _ _ _ _ _) as [s |]; [| discriminate].
        injection Hres as <-. split; [right; now left |]. split; eauto. }
      destruct (String.eqb_spec (action a) ACTION.ADD_REFUND_ADDRESS) as [H2 | H2].
      { destruct (applyAddRefundAddress _ _ _ _ _ _) as [s |]; [| discriminate].
        injection Hres as <-. split; [right; right; now left |]. split; eauto. }
      destruct (String.eqb_spec (action a) ACTION.ADD_FEE) as [H3 | H3].
      { destruct (applyAddFee _ _ _ _ _) as [s |]; [| discriminate].
        injection Hres as <-. split; [right; right; right; now left |].
        split; eauto. }
      discriminate. }
  destruct Hshape as (Hin & Hiff & s & ->).
  repeat (split; [assumption |]). split; [eauto |]. split.
  - intros k Hk. now rewrite lookup_insert_ne by congruence.
  - intros k Hk Hnone. rewrite lookup_insert_ne by congruence.
    now apply deepCopy_absent.
Qed.

(** X5. The currencies the payment network accepts for a request: a
    currency passes [checkSupportedCurrency] exactly when the network is
    in the table and either the currency is of type ISO4217 with its code
    as written in the list of the network, or of type ERC20 with its
    lower-cased address in the list of the network. No currency of type
    ETH or BTC passes. *)
Theorem checkSupportedCurrency_accepts_only_ISO4217_and_ERC20
    (c : ICurrency) (net : string) :
  checkSupportedCurrency c net = Ok tt <->
  exists table values,
    supportedCurrencies !! net = Some table /\
    ((cur_type c = ISO4217 /\ table !! ISO4217 = Some values /\
      In (cur_value c) values) \/
     (cur_type c = ERC20 /\ table !! ERC20 = Some values /\
      In (Js.toLowerCase (cur_value c)) values)).
Proof.
  rewrite checkSupportedCurrency_ok_iff. unfold normalizedCurrencyValue. split.
  - intros (table & supported & Ht & Hs & Hin).
    apply includes_true_iff in Hin.
    destruct c as [[] v n]; simpl in *.
    + exists table, supported. split; [assumption |]. left. auto.
    + exists table, supported. split; [assumption |]. right. auto.
    + exfalso.
      pose proof (checkSupportedCurrency_ETH_value v n net) as Hthrow.
      assert (Hok : checkSupportedCurrency
                      {| cur_type := ETH; cur_value := v; cur_network := n |} net
                    = Ok tt).
      { apply checkSupportedCurrency_ok_iff. exists table, supported.
        repeat (split; [assumption |]). now apply includes_true_iff. }
      rewrite Hok in Hthrow. exact Hthrow.
    + exfalso.
      destruct (supportedCurrencies_networks _ _ Ht) as [-> | [-> | ->]];
        vm_compute in Ht; injection Ht as <-; vm_compute in Hs;
        injection Hs as <-; destruct Hin.
  - intros (table & values & Ht & [(Hty & Hs & Hin) | (Hty & Hs & Hin)]);
      exists table, values; rewrite Hty; simpl;
      (split; [assumption |]); (split; [assumption |]);
      now apply includes_true_iff.
Qed.

(** X6. What a successful [createCreationAction] tells: the parameters
    name a network and a non-empty list of tokens, every token is a valid
    address and, taken as an ERC20 currency, passes the currency check of
    that network, and the action returned is the one the parent built. *)
Theorem createCreationAction_ok_inv (p : Parameters) (act : IAction) :
  createCreationAction p = Ok act ->
  exists net tokens,
    network p = Some net /\ acceptedTokens p = Some tokens /\ tokens <> [] /\
    (forall t, In t tokens ->
       isValidAddress t = true /\
       forall n, checkSupportedCurrency
                   {| cur_type := ERC20; cur_value := t; cur_network := n |} net
                 = Ok tt) /\
    super_createCreationAction p = Ok act.
Proof.
  unfold createCreationAction. intros Hres.
  destruct (acceptedTokens p) as [[| t0 rest] |] eqn:Htok; try discriminate.
  destruct (Js.some _ (t0 :: rest)) eqn:Hsome; [discriminate |].
  destruct (network p) as [net |] eqn:Hnet; [| discriminate].
  destruct (String.eqb net ""); [discriminate |].
  destruct (supportedCurrenciesOf net) as [entry |] eqn:Hread; [| discriminate].
  destruct (currenciesOfType entry ERC20) as [erc |] eqn:Herc; [| discriminate].
  destruct (currenciesOfType_Some _ _ _ _ Hread Herc) as (table & Ht & _ & He).
  destruct (checkAcceptedTokens erc net (t0 :: rest)) as [[] | msg] eqn:Hcheck;
    [| discriminate].
  simpl in Hres.
  exists net, (t0 :: rest). repeat (split; [first [reflexivity | discriminate] |]).
  split; [| assumption].
  intros t Hin. split.
  - destruct (isValidAddress t) eqn:E; [reflexivity |].
    assert (Js.some (fun address => negb (isValidAddress address)) (t0 :: rest) = true)
      by (apply some_invalid_iff; eauto).
    congruence.
  - intros n. apply checkSupportedCurrency_ok_iff.
    exists table, erc. repeat (split; [assumption |]).
    unfold normalizedCurrencyValue. simpl.
    destruct (Js.includes erc (Js.toLowerCase t)) eqn:E; [reflexivity |].
    destruct (checkAcceptedTokens_first_unsupported erc net (t0 :: rest))
      as (? & ? & ? & _ & _ & _ & Hthrow); [eauto |].
    rewrite Hthrow in Hcheck. discriminate.
Qed.

(** X7. Applying a CREATE action does not look the accepted tokens up in
    the table: on a request with a supported currency and no state for the
    extension, an action with a network and a non-empty list of valid
    addresses that the parent accepts is applied, whether the tokens are
    supported on that network or not: the result is the deep copy of the
    given states with the created state under the extension id, and this
    state records the tokens. *)
Theorem create_is_applied_without_token_support
    (st : gmap string IState) (a : IAction) (req : IRequest)
    (who : IIdentity) (ts : Z) (net : string) (tokens : list string)
    (base : IState) :
  action a = ACTION.CREATE ->
  network (parameters a) = Some net -> net <> "" ->
  checkSupportedCurrency (currency req) net = Ok tt ->
  extensions req !! id a = None ->
  acceptedTokens (parameters a) = Some tokens -> tokens <> [] ->
  (forall t, In t tokens -> isValidAddress t = true) ->
  super_applyCreation a ts = Ok base ->
  exists created,
    applyActionToExtension st a req who ts
    = Ok (<[ id a := created ]> (deepCopy st)) /\
    state_values created !! "acceptedTokens" = Some (Js.Strs tokens) /\
    state_values created !! "network" = Some (Js.Str net).
Proof.
  intros Hcreate Hnet Hne Hcur Hnone Htok Hnonempty Hvalid Hbase.
  assert (Hdefault : actionNetwork a = net).
  { unfold actionNetwork. rewrite Hnet. simpl.
    destruct (String.eqb_spec net ""); congruence. }
  rewrite <- Hdefault in Hcur.
  rewrite (applyActionToExtension_after_check _ _ _ _ _ Hcur), Hcreate. simpl.
  rewrite bool_decide_eq_false_2 by (rewrite Hnone; intros [x Hx]; discriminate).
  rewrite (applyCreation_after_checks a ts net tokens Hnet Hne Htok Hnonempty Hvalid).
  rewrite Hbase. simpl. eexists. split; [reflexivity |]. simpl.
  split; [now rewrite lookup_insert_ne, lookup_insert_eq |].
  now rewrite lookup_insert_ne, lookup_insert_ne, lookup_insert_eq.
Qed.

End AnyToErc20ProxyMore.

(** ** Worked inputs for these facts *)

Lemma applyCreation_ok_inv_witness :
  exists st,
    AnyToErc20Proxy.applyCreation
      (Samples.mkAction Types.ACTION.CREATE Samples.creationParameters) 1600000000
    = Ok st /\
    Types.state_values st !! "network" = Some (Js.Str "mainnet") /\
    length (Types.state_events st) = 1%nat.
Proof.
  destruct (AnyToErc20Proxy.applyCreation
              (Samples.mkAction Types.ACTION.CREATE Samples.creationParameters)
              1600000000) as [st | msg] eqn:Hst;
    [| vm_compute in Hst; discriminate Hst].
  exists st. split; [reflexivity |].
  destruct (applyCreation_ok_inv _ _ _ Hst)
    as (net & tokens & base & Hnet & _ & _ & _ & _ & _ & _ & _ & _ & Hvalue
        & _ & _ & _ & ev & Hev & _).
  injection Hnet as <-. split; [exact Hvalue |]. now rewrite Hev.
Defined.

Lemma applyCreation_errors_witness :
  AnyToErc20Proxy.applyCreation
    (Samples.mkAction Types.ACTION.CREATE (Samples.tokensOn None (Some [Samples.DAI])))
    1600000000
  = Throw "network is required" /\
  AnyToErc20Proxy.applyCreation
    (Samples.mkAction Types.ACTION.CREATE (Samples.tokensOn (Some "mainnet") (Some [])))
    1600000000
  = Throw "acceptedTokens is required and cannot be empty" /\
  AnyToErc20Proxy.applyCreation
    (Samples.mkAction Types.ACTION.CREATE
       (Samples.tokensOn (Some "mainnet") (Some [Samples.DAI; "0xnotanaddress"])))
    1600000000
  = Throw "acceptedTokens must contains only valid ethereum addresses".
Proof.
  split; [| split].
  - apply (proj1 (applyCreation_errors
                    (Samples.mkAction Types.ACTION.CREATE
                       (Samples.tokensOn None (Some [Samples.DAI])))
                    1600000000)).
    left. reflexivity.
  - destruct (proj2 (applyCreation_errors
                       (Samples.mkAction Types.ACTION.CREATE
                          (Samples.tokensOn (Some "mainnet") (Some [])))
                       1600000000) "mainnet" eq_refl) as [Hempty _];
      [discriminate |].
    apply Hempty. right. reflexivity.
  - destruct (proj2 (applyCreation_errors
                       (Samples.mkAction Types.ACTION.CREATE
                          (Samples.tokensOn (Some "mainnet")
                             (Some [Samples.DAI; "0xnotanaddress"])))
                       1600000000) "mainnet" eq_refl) as (_ & Hbad & _);
      [discriminate |].
    apply (Hbad _ eq_refl).
    exists "0xnotanaddress". split; [right; left; reflexivity | reflexivity].
Defined.

Lemma create_without_network_is_refused_witness :
  AnyToErc20Proxy.applyActionToExtension ∅
    (Samples.mkAction Types.ACTION.CREATE (Samples.tokensOn None (Some [Samples.DAI])))
    (Samples.mkRequest (Samples.mkCurrency Types.ISO4217 "EUR") ∅)
    Samples.signer 1600000000
  = Throw "network is required".
Proof.
  apply (proj2 (create_without_network_is_refused ∅
                  (Samples.mkAction Types.ACTION.CREATE
                     (Samples.tokensOn None (Some [Samples.DAI])))
                  (Samples.mkRequest (Samples.mkCurrency Types.ISO4217 "EUR") ∅)
                  Samples.signer 1600000000 eq_refl (or_introl eq_refl)));
    reflexivity.
Defined.

Lemma applyActionToExtension_ok_inv_witness :
  exists st',
    AnyToErc20Proxy.applyActionToExtension
      {[ "content-data" := Samples.contentDataState ]}
      (Samples.mkAction Types.ACTION.CREATE Samples.creationParameters)
      (Samples.mkRequest (Samples.mkCurrency Types.ISO4217 "EUR") ∅)
      Samples.signer 1600000000 = Ok st' /\
    is_Some (st' !! Samples.extensionId) /\
    st' !! "content-data" = Some (Samples.jsonState Samples.contentDataState) /\
    st' !! "other-extension" = None.
Proof.
  destruct (AnyToErc20Proxy.applyActionToExtension
              {[ "content-data" := Samples.contentDataState ]}
              (Samples.mkAction Types.ACTION.CREATE Samples.creationParameters)
              (Samples.mkRequest (Samples.mkCurrency Types.ISO4217 "EUR") ∅)
              Samples.signer 1600000000) as [st' | msg] eqn:Hres;
    [| vm_compute in Hres; discriminate Hres].
  exists st'. split; [reflexivity |].
  destruct (applyActionToExtension_ok_inv _ _ _ _ _ _ Hres)
    as (_ & _ & _ & (s & Hs) & Hframe & Hnew).
  split; [| split].
  - rewrite Hs. exists s. apply lookup_insert_eq.
  - rewrite (Hframe "content-data"); [reflexivity | discriminate].
  - apply (Hnew "other-extension"); [discriminate | reflexivity].
Defined.

Lemma createCreationAction_ok_inv_witness :
  exists act,
    AnyToErc20Proxy.createCreationAction Samples.creationParameters = Ok act /\
    AnyToErc20Proxy.checkSupportedCurrency
      (Samples.mkCurrency Types.ERC20 Samples.DAI) "mainnet" = Ok tt.
Proof.
  destruct (AnyToErc20Proxy.createCreationAction Samples.creationParameters)
    as [act | msg] eqn:Hres; [| vm_compute in Hres; discriminate Hres].
  exists act. split; [reflexivity |].
  destruct (createCreationAction_ok_inv _ _ Hres)
    as (net & tokens & Hnet & Htok & _ & Hall & _).
  injection Hnet as <-. injection Htok as <-.
  apply (Hall Samples.DAI). left. reflexivity.
Defined.

Lemma create_is_applied_without_token_support_witness :
  is_throw (AnyToErc20Proxy.createCreationAction
              (Samples.tokensOn (Some "mainnet") (Some [Samples.unlistedToken]))) /\
  exists created,
    AnyToErc20Proxy.applyActionToExtension
      {[ "content-data" := Samples.contentDataState ]}
      (Samples.mkAction Types.ACTION.CREATE
         (Samples.tokensOn (Some "mainnet") (Some [Samples.unlistedToken])))
      (Samples.mkRequest (Samples.mkCurrency Types.ISO4217 "EUR") ∅)
      Samples.signer 1600000000
    = Ok (<[ Samples.extensionId := created ]>
            (AnyToErc20Proxy.deepCopy
               {[ "content-data" := Samples.contentDataState ]})) /\
    Types.state_values created !! "acceptedTokens"
    = Some (Js.Strs [Samples.unlistedToken]).
Proof.
  split; [vm_compute; exact I |].
  destruct (create_is_applied_without_token_support
              {[ "content-data" := Samples.contentDataState ]}
              (Samples.mkAction Types.ACTION.CREATE
                 (Samples.tokensOn (Some "mainnet") (Some [Samples.unlistedToken])))
              (Samples.mkRequest (Samples.mkCurrency Types.ISO4217 "EUR") ∅)
              Samples.signer 1600000000 "mainnet" [Samples.unlistedToken]
              (Samples.sampleState
                 (Samples.mkAction Types.ACTION.CREATE
                    (Samples.tokensOn (Some "mainnet")
                       (Some [Samples.unlistedToken])))
                 {[ "paymentAddress" := Js.Undefined ]}))
    as (created & Hres & Htokens & _);
    try reflexivity; try discriminate.
  - intros t [<- | []]. reflexivity.
  - exists created. split; [exact Hres | exact Htokens].
Defined.

(* ===================================================================== *)
(** * More facts about [erc20/address-based.ts] *)
(* ===================================================================== *)

Section Erc20AddressBasedMore.

Import Types Erc20AddressBased Spec.
Context `{Retriever : Erc20InfoRetriever}.

Lemma insertEvent_head e l :
  HdRel notLater e l -> insertEvent e l = e :: l.
Proof.
  intros Hhd. destruct l as [| x rest]; simpl; [reflexivity |].
  inversion Hhd as [| ? ? Hle]; subst. unfold notLater in Hle.
  apply Z.leb_le in Hle. now rewrite Hle.
Qed.

Lemma sortEvents_sorted l : Sorted notLater l -> sortEvents l = l.
Proof.
  induction 1 as [| e rest Hrest IH Hhd]; simpl; [reflexivity |].
  rewrite IH. now apply insertEvent_head.
Qed.

Lemma withDefaultNetwork_idempotent (r : IRequest) :
  withDefaultNetwork (withDefaultNetwork r) = withDefaultNetwork r.
Proof.
  unfold withDefaultNetwork.
  destruct (Js.truthy (Js.of_string (cur_network (currency r)))) eqn:E.
  - now rewrite E.
  - reflexivity.
Qed.

Lemma defaultedNetwork_withDefaultNetwork (r : IRequest) :
  defaultedNetwork (withDefaultNetwork r) = defaultedNetwork r.
Proof.
  unfold withDefaultNetwork, defaultedNetwork.
  destruct r as [[t v [n |]] exts pe pr]; simpl; [| reflexivity].
  destruct (String.eqb n "") eqn:E; simpl; [reflexivity | now rewrite E].
Qed.

(** X8. A request on a supported network that does not carry the
    address-based extension makes [getBalance] fail on the read of its
    values, before any ledger query. *)
Theorem getBalance_without_extension (w : World) :
  In (defaultedNetwork (request w)) supportedNetworks ->
  extensions (request w) !! PAYMENT_NETWORK_ERC20_ADDRESS_BASED = None ->
  fst (getBalance w) = Throw "TypeError: Cannot read property 'values' of undefined" /\
  queries (snd (getBalance w)) = queries w.
Proof.
  intros Hnet Hext. rewrite getBalance_unfold. cbv zeta.
  apply includes_supportedNetworks in Hnet. rewrite Hnet, Hext. simpl. auto.
Qed.

(** X9. The ledger queries of one call of [getBalance], exactly. On an
    unsupported network, or without the extension, no query is added. On
    a supported network with the extension: when the payments are
    retrieved (or the payment address is absent), the call adds the
    payment query if the payment address is present, then the refund
    query if the refund address is present, whatever the refund query
    answers; when the retrieval of the payments fails, it adds the payment
    query alone. With both addresses present and the payments retrieved,
    these are two queries, for the payments then for the refunds, each for
    the token of the request on its defaulted network. *)
Theorem getBalance_queries (w : World) :
  (~ In (defaultedNetwork (request w)) supportedNetworks \/
   extensions (request w) !! PAYMENT_NETWORK_ERC20_ADDRESS_BASED = None ->
   queries (snd (getBalance w)) = queries w) /\
  (forall st,
     In (defaultedNetwork (request w)) supportedNetworks ->
     extensions (request w) !! PAYMENT_NETWORK_ERC20_ADDRESS_BASED = Some st ->
     (forall payments,
        retrievedEvents (request w) (addressOf st "paymentAddress") PAYMENT
        = Ok payments ->
        queries (snd (getBalance w)) =
        queries w
        ++ issuedQueries (request w) (addressOf st "paymentAddress") PAYMENT
        ++ issuedQueries (request w) (addressOf st "refundAddress") REFUND) /\
     (forall msg,
        retrievedEvents (request w) (addressOf st "paymentAddress") PAYMENT
        = Throw msg ->
        queries (snd (getBalance w)) =
        queries w
        ++ [queryFor (request w) (addressOf st "paymentAddress") PAYMENT]) /\
     (forall payments,
        Js.truthy (addressOf st "paymentAddress") = true ->
        Js.truthy (addressOf st "refundAddress") = true ->
        getTransferEvents
          (queryFor (request w) (addressOf st "paymentAddress") PAYMENT)
        = Ok payments ->
        queries (snd (getBalance w)) =
        queries w
        ++ [ {| tokenContractAddress := cur_value (currency (request w));
                address := addressOf st "paymentAddress";
                eventName := PAYMENT;
                query_network := defaultedNetwork (request w) |};
             {| tokenContractAddress := cur_value (currency (request w));
                address := addressOf st "refundAddress";
                eventName := REFUND;
                query_network := defaultedNetwork (request w) |} ])).
Proof.
  assert (Hfull : forall st payments,
            In (defaultedNetwork (request w)) supportedNetworks ->
            extensions (request w) !! PAYMENT_NETWORK_ERC20_ADDRESS_BASED = Some st ->
            retrievedEvents (request w) (addressOf st "paymentAddress") PAYMENT
            = Ok payments ->
            queries (snd (getBalance w)) =
            queries w
            ++ issuedQueries (request w) (addressOf st "paymentAddress") PAYMENT
            ++ issuedQueries (request w) (addressOf st "refundAddress") REFUND).
  { intros st payments Hnet Hext Hpay.
    rewrite (getBalance_supported w st Hnet Hext). unfold balanceOf.
    rewrite Hpay.
    destruct (retrievedEvents (request w) (addressOf st "refundAddress") REFUND);
      reflexivity. }
  split.
  - intros Hstop. rewrite getBalance_unfold. cbv zeta.
    destruct (Js.includes supportedNetworks (defaultedNetwork (request w)))
      eqn:Hnet; [| reflexivity].
    apply includes_supportedNetworks in Hnet.
    destruct Hstop as [Hnot | Hext]; [contradiction |].
    rewrite Hext. reflexivity.
  - intros st Hnet Hext. split; [| split].
    + intros payments Hpay. now apply (Hfull st payments).
    + intros msg Hpay.
      rewrite (getBalance_supported w st Hnet Hext). unfold balanceOf.
      rewrite Hpay. cbn [snd queries].
      unfold retrievedEvents in Hpay. unfold issuedQueries.
      destruct (Js.truthy (addressOf st "paymentAddress"));
        [reflexivity | discriminate].
    + intros payments Hp Hr Hpay.
      rewrite (Hfull st payments Hnet Hext)
        by (unfold retrievedEvents; now rewrite Hp).
      unfold issuedQueries. rewrite Hp, Hr. reflexivity.
Qed.

(** X10. A failed retrieval ends the call with the error of the ledger.
    When the payments cannot be retrieved the refunds are not asked for;
    when the refunds cannot be retrieved the payments retrieved before are
    dropped. *)
Theorem getBalance_retrieval_failure (w : World) (st : IState) (msg : string) :
  In (defaultedNetwork (request w)) supportedNetworks ->
  extensions (request w) !! PAYMENT_NETWORK_ERC20_ADDRESS_BASED = Some st ->
  (Js.truthy (addressOf st "paymentAddress") = true ->
   getTransferEvents (queryFor (request w) (addressOf st "paymentAddress") PAYMENT)
   = Throw msg ->
   fst (getBalance w) = Throw msg /\
   queries (snd (getBalance w)) =
   queries w ++ [queryFor (request w) (addressOf st "paymentAddress") PAYMENT]) /\
  (forall payments,
     retrievedEvents (request w) (addressOf st "paymentAddress") PAYMENT = Ok payments ->
     Js.truthy (addressOf st "refundAddress") = true ->
     getTransferEvents (queryFor (request w) (addressOf st "refundAddress") REFUND)
     = Throw msg ->
     fst (getBalance w) = Throw msg).
Proof.
  intros Hnet Hext. rewrite (getBalance_supported w st Hnet Hext).
  unfold balanceOf. split.
  - intros Hpay Hfail.
    assert (Hr : retrievedEvents (request w) (addressOf st "paymentAddress") PAYMENT
                 = Throw msg)
      by (unfold retrievedEvents; now rewrite Hpay).
    rewrite Hr. simpl. unfold issuedQueries. now rewrite Hpay.
  - intros payments Hpayments Hrefund Hfail.
    assert (Hr : retrievedEvents (request w) (addressOf st "refundAddress") REFUND
                 = Throw msg)
      by (unfold retrievedEvents; now rewrite Hrefund).
    now rewrite Hpayments, Hr.
Qed.

(** X11. The default written into the request changes no later call: on
    the world whose request already has the default network written in,
    [getBalance] gives the same result and the same final world. A request
    without network is therefore handled as a request on the main
    network. *)
Theorem getBalance_on_defaulted_request (w : World) :
  getBalance {| request := withDefaultNetwork (request w); queries := queries w |}
  = getBalance w.
Proof.
  rewrite !getBalance_unfold. cbv zeta. cbn [request queries].
  rewrite withDefaultNetwork_idempotent, defaultedNetwork_withDefaultNetwork.
  destruct (defaulted_network_of_request (request w)) as (_ & Hval & Hext).
  rewrite Hext.
  destruct (negb (Js.includes supportedNetworks (defaultedNetwork (request w))));
    [reflexivity |].
  destruct (extensions (request w) !! PAYMENT_NETWORK_ERC20_ADDRESS_BASED)
    as [st |]; [| reflexivity].
  unfold balanceOf. cbn [request queries].
  unfold retrievedEvents, issuedQueries, queryFor.
  now rewrite withDefaultNetwork_idempotent, defaultedNetwork_withDefaultNetwork, Hval.
Qed.

(** X12. Events that are already in order come back as they are: when
    the payments followed by the refunds are in ascending order of
    timestamp, the events returned are the payments followed by the
    refunds. *)
Theorem getBalance_keeps_ordered_events
    (w : World) (st : IState)
    (payments refunds : list ERC20PaymentNetworkEvent) :
  In (defaultedNetwork (request w)) supportedNetworks ->
  extensions (request w) !! PAYMENT_NETWORK_ERC20_ADDRESS_BASED = Some st ->
  retrievedEvents (request w) (addressOf st "paymentAddress") PAYMENT = Ok payments ->
  retrievedEvents (request w) (addressOf st "refundAddress") REFUND = Ok refunds ->
  Sorted notLater (payments ++ refunds) ->
  fst (getBalance w) =
  Ok {| balance := BN.toString (totalAmount payments - totalAmount refunds);
        events := payments ++ refunds |}.
Proof.
  intros Hnet Hext Hpay Hrefund Hsorted.
  rewrite (getBalance_supported w st Hnet Hext).
  unfold balanceOf. rewrite Hpay, Hrefund. simpl.
  now rewrite (sortEvents_sorted _ Hsorted).
Qed.

End Erc20AddressBasedMore.

Lemma getBalance_without_extension_witness :
  fst (Erc20AddressBased.getBalance
         (Samples.freshWorld
            (Samples.mkRequest (Samples.mkCurrency Types.ERC20 Samples.DAI) ∅)))
  = Throw "TypeError: Cannot read property 'values' of undefined".
Proof.
  apply (getBalance_without_extension
           (Samples.freshWorld
              (Samples.mkRequest (Samples.mkCurrency Types.ERC20 Samples.DAI) ∅))).
  - simpl. left. reflexivity.
  - reflexivity.
Defined.

Lemma getBalance_queries_witness :
  Erc20AddressBased.queries
    (snd (Erc20AddressBased.getBalance
            (Samples.freshWorld
               (Samples.daiRequest None (Some Samples.payee1) (Some Samples.payer1)))))
  = [ {| Erc20AddressBased.tokenContractAddress := Samples.DAI;
         Erc20AddressBased.address := Js.Str Samples.payee1;
         Erc20AddressBased.eventName := Erc20AddressBased.PAYMENT;
         Erc20AddressBased.query_network := "mainnet" |};
      {| Erc20AddressBased.tokenContractAddress := Samples.DAI;
         Erc20AddressBased.address := Js.Str Samples.payer1;
         Erc20AddressBased.eventName := Erc20AddressBased.REFUND;
         Erc20AddressBased.query_network := "mainnet" |} ] /\
  Erc20AddressBased.queries
    (snd (Erc20AddressBased.getBalance
            (Samples.freshWorld
               (Samples.daiRequest (Some "kovan")
                  (Some Samples.payee1) (Some Samples.payer1)))))
  = [].
Proof.
  split.
  - destruct (proj2 (getBalance_queries
                       (Samples.freshWorld
                          (Samples.daiRequest None
                             (Some Samples.payee1) (Some Samples.payer1))))
                (Samples.addressBasedState (Some Samples.payee1) (Some Samples.payer1))
                (or_introl eq_refl) eq_refl) as (_ & _ & Hboth).
    exact (Hboth
             [ Samples.transfer Erc20AddressBased.PAYMENT "100" (Some 1600000010);
               Samples.transfer Erc20AddressBased.PAYMENT "50" (Some 1600000030) ]
             eq_refl eq_refl eq_refl).
  - apply (proj1 (getBalance_queries
                    (Samples.freshWorld
                       (Samples.daiRequest (Some "kovan")
                          (Some Samples.payee1) (Some Samples.payer1))))).
    left. simpl. intuition discriminate.
Defined.

Lemma getBalance_retrieval_failure_witness :
  fst (Erc20AddressBased.getBalance
         (Samples.freshWorld
            (Samples.daiRequest (Some "rinkeby")
               (Some Samples.payer1) (Some Samples.payer1))))
  = Throw "ledger access failed" /\
  Erc20AddressBased.queries
    (snd (Erc20AddressBased.getBalance
            (Samples.freshWorld
               (Samples.daiRequest (Some "rinkeby")
                  (Some Samples.payer1) (Some Samples.payer1)))))
  = [ Spec.queryFor
        (Samples.daiRequest (Some "rinkeby")
           (Some Samples.payer1) (Some Samples.payer1))
        (Js.Str Samples.payer1) Erc20AddressBased.PAYMENT ] /\
  fst (Erc20AddressBased.getBalance
         (Samples.freshWorld
            (Samples.daiRequest (Some "rinkeby")
               (Some Samples.payee1) (Some Samples.payee1))))
  = Throw "ledger access failed".
Proof.
  destruct (getBalance_retrieval_failure
              (Samples.freshWorld
                 (Samples.daiRequest (Some "rinkeby")
                    (Some Samples.payer1) (Some Samples.payer1)))
              (Samples.addressBasedState (Some Samples.payer1) (Some Samples.payer1))
              "ledger access failed"
              (or_intror (or_introl eq_refl)) eq_refl) as [Hpay _].
  destruct (getBalance_retrieval_failure
              (Samples.freshWorld
                 (Samples.daiRequest (Some "rinkeby")
                    (Some Samples.payee1) (Some Samples.payee1)))
              (Samples.addressBasedState (Some Samples.payee1) (Some Samples.payee1))
              "ledger access failed"
              (or_intror (or_introl eq_refl)) eq_refl) as [_ Hrefund].
  destruct (Hpay eq_refl eq_refl) as [Hres Hqueries].
  split; [exact Hres |]. split; [exact Hqueries |].
  exact (Hrefund
           [ Samples.transfer Erc20AddressBased.PAYMENT "100" (Some 1600000010);
             Samples.transfer Erc20AddressBased.PAYMENT "50" (Some 1600000030) ]
           eq_refl eq_refl eq_refl).
Defined.

Lemma getBalance_keeps_ordered_events_witness :
  fst (Erc20AddressBased.getBalance
         (Samples.freshWorld
            (Samples.daiRequest None (Some Samples.payee1) None)))
  = Ok {| Erc20AddressBased.balance := "150";
          Erc20AddressBased.events :=
            [ Samples.transfer Erc20AddressBased.PAYMENT "100" (Some 1600000010);
              Samples.transfer Erc20AddressBased.PAYMENT "50" (Some 1600000030) ] |}.
Proof.
  apply (getBalance_keeps_ordered_events
           (Samples.freshWorld
              (Samples.daiRequest None (Some Samples.payee1) None))
           (Samples.addressBasedState (Some Samples.payee1) None)
           [ Samples.transfer Erc20AddressBased.PAYMENT "100" (Some 1600000010);
             Samples.transfer Erc20AddressBased.PAYMENT "50" (Some 1600000030) ]
           []).
  - simpl. left. reflexivity.
  - reflexivity.
  - reflexivity.
  - reflexivity.
  - simpl.
    apply Sorted_cons;
      [apply Sorted_cons; [apply Sorted_nil | apply HdRel_nil] | apply HdRel_cons].
    unfold Spec.notLater. vm_compute. discriminate.
Defined.

(* ===================================================================== *)
(** * More facts about the aggregator map *)
(* ===================================================================== *)

Section ChainlinkToolsMore.

Import ChainlinkTools Spec.

Implicit Types (m : gmap string (gmap string string)).
Implicit Types (args : AggregatorUpdatedArgs).

Lemma updateAggregators_edges m args i o :
  edge (updateAggregators m args) i o =
  if decide (i = _input args /\ o = _output args) then registered args
  else edge m i o.
Proof.
  unfold registered.
  destruct (String.eqb_spec (_aggregator args) ZERO_ADDRESS) as [Hz | Hnz].
  - apply removal_edges. exact Hz.
  - apply upsert_edges. exact Hnz.
Qed.

Lemma updateAggregators_pruned m args :
  pruned m -> pruned (updateAggregators m args).
Proof.
  intros Hm i outs.
  destruct (String.eqb_spec (_aggregator args) ZERO_ADDRESS) as [Hz | Hnz].
  - rewrite (removal_entry _ _ Hz).
    destruct (m !! _input args) as [outputs |] eqn:Hin; [| apply Hm].
    destruct (decide (delete (_output args) outputs = ∅)) as [He | Hne].
    + intros Hl. apply lookup_delete_Some in Hl as [_ Hl]. now apply Hm in Hl.
    + intros Hl. apply lookup_insert_Some in Hl as [[_ <-] | [_ Hl]];
        [assumption | now apply Hm in Hl].
  - rewrite (upsert_entry _ _ Hnz). intros Hl.
    apply lookup_insert_Some in Hl as [[_ <-] | [_ Hl]];
      [apply insert_non_empty | now apply Hm in Hl].
Qed.

Lemma aggregatorsMaps_from m (logs : list AggregatorUpdatedArgs) :
  pruned m -> pruned (fold_left updateAggregators logs m).
Proof.
  revert m. induction logs as [| e rest IH]; intros m Hm; simpl; [assumption |].
  apply IH. now apply updateAggregators_pruned.
Qed.

Lemma aggregatorsMaps_pruned (logs : list AggregatorUpdatedArgs) :
  pruned (aggregatorsMaps logs).
Proof.
  apply aggregatorsMaps_from. intros i outs Hl. now rewrite lookup_empty in Hl.
Qed.

(** Two pruned maps with the same edges are the same map. *)
Lemma pruned_maps_equal m1 m2 :
  pruned m1 -> pruned m2 ->
  (forall i o, edge m1 i o = edge m2 i o) -> m1 = m2.
Proof.
  intros H1 H2 Hedges. apply map_eq. intros i.
  destruct (m1 !! i) as [o1 |] eqn:E1; destruct (m2 !! i) as [o2 |] eqn:E2.
  - f_equal. apply map_eq. intros o.
    specialize (Hedges i o). unfold edge in Hedges.
    now rewrite E1, E2 in Hedges.
  - exfalso. apply (H1 _ _ E1). apply map_eq. intros o.
    specialize (Hedges i o). unfold edge in Hedges.
    rewrite E1, E2 in Hedges. simpl in Hedges. now rewrite lookup_empty.
  - exfalso. apply (H2 _ _ E2). apply map_eq. intros o.
    specialize (Hedges i o). unfold edge in Hedges.
    rewrite E1, E2 in Hedges. simpl in Hedges. now rewrite lookup_empty.
  - reflexivity.
Qed.

Lemma fold_edges_of_other_pairs m (logs : list AggregatorUpdatedArgs) i o :
  Forall (fun x => pairOf x <> (i, o)) logs ->
  edge (fold_left updateAggregators logs m) i o = edge m i o.
Proof.
  revert m. induction logs as [| e rest IH]; intros m Hall; simpl; [reflexivity |].
  inversion Hall as [| ? ? He Hrest]; subst.
  rewrite (IH _ Hrest), updateAggregators_edges.
  destruct (decide (i = _input e /\ o = _output e)) as [[-> ->] | _];
    [now contradiction He | reflexivity].
Qed.

(** X13. The last event about a pair of currencies decides its edge,
    whatever came before and whatever was logged since about other pairs:
    the edge carries the aggregator of that event, or is absent when that
    event has the zero address. A pair no event is about has no edge. *)
Theorem aggregators_last_event_wins
    (before after : list AggregatorUpdatedArgs) args :
  (Forall (fun x => pairOf x <> pairOf args) after ->
   edge (aggregatorsMaps (before ++ args :: after)) (_input args) (_output args)
   = registered args) /\
  (forall i o, Forall (fun x => pairOf x <> (i, o)) after ->
     edge (aggregatorsMaps after) i o = None).
Proof.
  split.
  - intros Hafter. unfold aggregatorsMaps. rewrite fold_left_app. simpl.
    rewrite (fold_edges_of_other_pairs _ _ _ _ Hafter), updateAggregators_edges.
    destruct (decide (_ /\ _)); [reflexivity | tauto].
  - intros i o Hall. unfold aggregatorsMaps.
    rewrite (fold_edges_of_other_pairs _ _ _ _ Hall). reflexivity.
Qed.

(** X14. Two invariants of the rebuilt map: no input currency is left
    with an empty map of outputs, and no edge carries the zero address. *)
Theorem aggregators_invariants (logs : list AggregatorUpdatedArgs) :
  (forall input outputs,
     aggregatorsMaps logs !! input = Some outputs -> outputs <> ∅) /\
  (forall input output aggregator,
     edge (aggregatorsMaps logs) input output = Some aggregator ->
     aggregator <> ZERO_ADDRESS).
Proof.
  split; [apply aggregatorsMaps_pruned |].
  induction logs as [| e logs IH] using rev_ind; intros i o a.
  - unfold aggregatorsMaps, edge. simpl. now rewrite lookup_empty.
  - rewrite aggregatorsMaps_snoc, updateAggregators_edges.
    destruct (decide (_ /\ _)) as [_ | _]; [| apply IH].
    unfold registered.
    destruct (String.eqb_spec (_aggregator e) ZERO_ADDRESS); [discriminate |].
    intros [= <-]. assumption.
Qed.

(** X15. Events about different pairs of currencies can be exchanged:
    swapping two neighbours of the stream that are about different pairs
    gives the same map. *)
Theorem aggregators_swap_unrelated
    (before after : list AggregatorUpdatedArgs) (e1 e2 : AggregatorUpdatedArgs) :
  pairOf e1 <> pairOf e2 ->
  aggregatorsMaps (before ++ e1 :: e2 :: after)
  = aggregatorsMaps (before ++ e2 :: e1 :: after).
Proof.
  intros Hne. unfold aggregatorsMaps. rewrite !fold_left_app. simpl. f_equal.
  fold (aggregatorsMaps before).
  apply pruned_maps_equal.
  - do 2 apply updateAggregators_pruned. apply aggregatorsMaps_pruned.
  - do 2 apply updateAggregators_pruned. apply aggregatorsMaps_pruned.
  - intros i o. rewrite !updateAggregators_edges. unfold pairOf in Hne.
    destruct (decide (i = _input e2 /\ o = _output e2)) as [[-> ->] | _];
      destruct (decide (_ = _input e1 /\ _ = _output e1)) as [[H1 H2] | _];
      try reflexivity.
    exfalso. apply Hne. congruence.
Qed.

(** X16. A log that comes twice changes nothing: an event repeated right
    after itself gives the map of the single event. *)
Theorem aggregators_repeated_event (logs : list AggregatorUpdatedArgs) args :
  aggregatorsMaps (logs ++ [args; args]) = aggregatorsMaps (logs ++ [args]).
Proof.
  replace (logs ++ [args; args]) with ((logs ++ [args]) ++ [args])
    by now rewrite <- app_assoc.
  rewrite (aggregatorsMaps_snoc (logs ++ [args])).
  apply pruned_maps_equal.
  - apply updateAggregators_pruned, aggregatorsMaps_pruned.
  - apply aggregatorsMaps_pruned.
  - intros i o. rewrite updateAggregators_edges.
    destruct (decide (i = _input args /\ o = _output args)) as [[-> ->] | _];
      [| reflexivity].
    rewrite aggregatorsMaps_snoc, updateAggregators_edges.
    destruct (decide (_ /\ _)); [reflexivity | tauto].
Qed.

(** X17. Removing an edge that is not there changes nothing. *)
Theorem aggregators_remove_absent_edge (logs : list AggregatorUpdatedArgs) args :
  edge (aggregatorsMaps logs) (_input args) (_output args) = None ->
  aggregatorsMaps (logs ++ [removal args]) = aggregatorsMaps logs.
Proof.
  intros Habsent. rewrite aggregatorsMaps_snoc.
  apply pruned_maps_equal.
  - apply updateAggregators_pruned, aggregatorsMaps_pruned.
  - apply aggregatorsMaps_pruned.
  - intros i o. rewrite updateAggregators_edges. simpl.
    destruct (decide (i = _input args /\ o = _output args)) as [[-> ->] | _];
      [now rewrite Habsent | reflexivity].
Qed.

End ChainlinkToolsMore.

Lemma aggregators_last_event_wins_witness :
  Spec.edge
    (ChainlinkTools.aggregatorsMaps
       ([ Samples.updated Samples.EUR_hash Samples.USD_hash Samples.aggregatorUsdDai ]
        ++ Samples.updated Samples.EUR_hash Samples.USD_hash Samples.aggregatorEurUsd
        :: [ Samples.updated Samples.USD_hash Samples.DAI Samples.aggregatorUsdDai ]))
    Samples.EUR_hash Samples.USD_hash
  = Some Samples.aggregatorEurUsd /\
  Spec.edge (ChainlinkTools.aggregatorsMaps Samples.sampleLogs)
    Samples.DAI Samples.USD_hash = None.
Proof.
  split.
  - apply (proj1 (aggregators_last_event_wins
                    [ Samples.updated Samples.EUR_hash Samples.USD_hash
                        Samples.aggregatorUsdDai ]
                    [ Samples.updated Samples.USD_hash Samples.DAI
                        Samples.aggregatorUsdDai ]
                    (Samples.updated Samples.EUR_hash Samples.USD_hash
                       Samples.aggregatorEurUsd))).
    repeat constructor. discriminate.
  - apply (proj2 (aggregators_last_event_wins [] Samples.sampleLogs
                    (Samples.updated Samples.EUR_hash Samples.USD_hash
                       Samples.aggregatorEurUsd))).
    repeat constructor; discriminate.
Defined.

Lemma aggregators_invariants_witness :
  Spec.edge (ChainlinkTools.aggregatorsMaps Samples.sampleLogs)
    Samples.EUR_hash Samples.USD_hash = Some Samples.aggregatorEurUsd /\
  Samples.aggregatorEurUsd <> ChainlinkTools.ZERO_ADDRESS.
Proof.
  split; [reflexivity |].
  apply (proj2 (aggregators_invariants Samples.sampleLogs)
           Samples.EUR_hash Samples.USD_hash).
  reflexivity.
Defined.

Lemma aggregators_swap_unrelated_witness :
  ChainlinkTools.aggregatorsMaps
    ([] ++ Samples.updated Samples.EUR_hash Samples.USD_hash Samples.aggregatorEurUsd
        :: Samples.updated Samples.USD_hash Samples.DAI Samples.aggregatorUsdDai
        :: [])
  = ChainlinkTools.aggregatorsMaps
      ([] ++ Samples.updated Samples.USD_hash Samples.DAI Samples.aggregatorUsdDai
          :: Samples.updated Samples.EUR_hash Samples.USD_hash Samples.aggregatorEurUsd
          :: []).
Proof.
  apply aggregators_swap_unrelated. discriminate.
Defined.

Lemma aggregators_remove_absent_edge_witness :
  ChainlinkTools.aggregatorsMaps
    (Samples.sampleLogs
     ++ [ Spec.removal (Samples.updated Samples.EUR_hash Samples.DAI
                          Samples.aggregatorEurUsd) ])
  = ChainlinkTools.aggregatorsMaps Samples.sampleLogs.
Proof.
  apply aggregators_remove_absent_edge. reflexivity.
Defined.

(* ===================================================================== *)
(** * More facts about [ProxyChainlinkConversionPath] *)
(* ===================================================================== *)

Section ProxyChainlinkConversionPathMore.

Import ProxyChainlinkConversionPath.
Context `{Oracle : ChainlinkConversionPath} `{Proxy : PaymentProxy}.

(** [SafeMath.mul] detects the overflow exactly. *)
Lemma mul_spec (a b : Z) :
  0 <= a <= SafeMath.MAX_UINT256 -> 0 <= b <= SafeMath.MAX_UINT256 ->
  SafeMath.mul a b =
  if a * b <=? SafeMath.MAX_UINT256 then Ok (a * b)
  else Throw "SafeMath: multiplication overflow".
Proof.
  intros Ha Hb.
  destruct (Z.leb_spec (a * b) SafeMath.MAX_UINT256) as [Hfit | Hover].
  - apply mul_no_overflow; lia.
  - unfold SafeMath.mul, SafeMath.MAX_UINT256 in *.
    destruct (Z.eqb_spec a 0) as [-> | Hne]; [lia |].
    destruct (Z.eqb_spec ((a * b) mod 2 ^ 256 / a) b) as [Heq | _]; [| reflexivity].
    exfalso.
    pose proof (Z.mod_pos_bound (a * b) (2 ^ 256) ltac:(lia)) as Hmod.
    pose proof (Z.mul_div_le ((a * b) mod 2 ^ 256) a ltac:(lia)) as Hdiv.
    rewrite Heq in Hdiv. lia.
Qed.

Lemma add_spec (a b : Z) :
  0 <= a <= SafeMath.MAX_UINT256 -> 0 <= b <= SafeMath.MAX_UINT256 ->
  SafeMath.add a b =
  if a + b <=? SafeMath.MAX_UINT256 then Ok (a + b)
  else Throw "SafeMath: addition overflow".
Proof.
  intros Ha Hb. unfold SafeMath.add, SafeMath.MAX_UINT256 in *.
  destruct (Z.leb_spec (a + b) (2 ^ 256 - 1)) as [Hfit | Hover].
  - rewrite Z.mod_small by lia.
    destruct (Z.leb_spec a (a + b)); [reflexivity | lia].
  - assert (Hc : (a + b) mod 2 ^ 256 = a + b - 2 ^ 256).
    { symmetry. apply (Z.mod_unique_pos _ _ 1); lia. }
    rewrite Hc. destruct (Z.leb_spec a (a + b - 2 ^ 256)); [lia | reflexivity].
Qed.

Lemma convert_spec (amount rate decimals : Z) :
  0 <= amount <= SafeMath.MAX_UINT256 -> 0 <= rate <= SafeMath.MAX_UINT256 ->
  convert amount rate decimals =
  if amount * rate <=? SafeMath.MAX_UINT256 then
    if 0 <? decimals then Ok (amount * rate / decimals)
    else Throw "SafeMath: division by zero"
  else Throw "SafeMath: multiplication overflow".
Proof.
  intros Ha Hr. unfold convert. rewrite (mul_spec _ _ Ha Hr).
  destruct (amount * rate <=? SafeMath.MAX_UINT256); reflexivity.
Qed.

(** A converted amount is a [uint256], whatever the inputs. *)
Lemma convert_range (amount rate decimals v : Z) :
  convert amount rate decimals = Ok v -> 0 <= v <= SafeMath.MAX_UINT256.
Proof.
  unfold convert, SafeMath.mul, SafeMath.div, SafeMath.MAX_UINT256.
  destruct (amount =? 0); simpl.
  - destruct (Z.ltb_spec 0 decimals); [| discriminate].
    intros [= <-]. rewrite Z.div_0_l by lia. lia.
  - destruct (_ =? rate); simpl; [| discriminate].
    destruct (Z.ltb_spec 0 decimals); [| discriminate].
    intros [= <-].
    pose proof (Z.mod_pos_bound (amount * rate) (2 ^ 256) ltac:(lia)) as Hmod.
    split; [apply Z.div_pos; lia |].
    assert ((amount * rate) mod 2 ^ 256 / decimals <= (amount * rate) mod 2 ^ 256)
      by (apply Z.div_le_upper_bound; nia).
    lia.
Qed.

Lemma getConversions_ok_inv (now : Z) (path : list string)
    (amount fees p f : Z) :
  getConversions now path amount fees = Ok (p, f) ->
  exists rate oldest decimals,
    getRate path = Ok (rate, oldest, decimals) /\
    oldest <= now <= oldest + maxTimestampDeltaAcceptable /\
    convert amount rate decimals = Ok p /\
    convert fees rate decimals = Ok f.
Proof.
  unfold getConversions. intros Hres.
  destruct (getRate path) as [[[rate oldest] decimals] |] eqn:Hrate;
    [| discriminate].
  simpl in Hres. unfold SafeMath.sub in Hres.
  destruct (Z.leb_spec oldest now) as [Hle |]; [| discriminate].
  simpl in Hres.
  destruct (Z.leb_spec (now - oldest) maxTimestampDeltaAcceptable) as [Hfresh |];
    [| discriminate].
  simpl in Hres.
  destruct (convert amount rate decimals) as [p' |] eqn:Hp; [| discriminate].
  simpl in Hres.
  destruct (convert fees rate decimals) as [f' |] eqn:Hf; [| discriminate].
  simpl in Hres. injection Hres as <- <-.
  exists rate, oldest, decimals.
  split; [reflexivity |].
  split; [unfold maxTimestampDeltaAcceptable in *; lia |].
  split; assumption.
Qed.

(** X18. The amounts [getConversions] returns are the exact ones: for
    amounts and a rate that are [uint256] values, a returned amount is the
    integer quotient of the true product by the decimals, so it is never
    the quotient of a wrapped product, never above the exact conversion
    and less than one unit below it. *)
Theorem getConversions_exact (now : Z) (path : list string)
    (amount fees p f rate oldest decimals : Z) :
  0 <= amount <= SafeMath.MAX_UINT256 ->
  0 <= fees <= SafeMath.MAX_UINT256 ->
  getRate path = Ok (rate, oldest, decimals) ->
  0 <= rate <= SafeMath.MAX_UINT256 ->
  getConversions now path amount fees = Ok (p, f) ->
  0 < decimals /\
  amount * rate <= SafeMath.MAX_UINT256 /\
  fees * rate <= SafeMath.MAX_UINT256 /\
  p = amount * rate / decimals /\
  f = fees * rate / decimals /\
  p * decimals <= amount * rate < (p + 1) * decimals /\
  f * decimals <= fees * rate < (f + 1) * decimals.
Proof.
  intros Ha Hf Hrate Hr Hres.
  destruct (getConversions_ok_inv _ _ _ _ _ _ Hres)
    as (rate' & oldest' & decimals' & Hrate' & _ & Hp & Hfe).
  rewrite Hrate in Hrate'. injection Hrate' as <- <- <-.
  rewrite (convert_spec _ _ _ Ha Hr) in Hp.
  rewrite (convert_spec _ _ _ Hf Hr) in Hfe.
  destruct (Z.leb_spec (amount * rate) SafeMath.MAX_UINT256); [| discriminate].
  destruct (Z.leb_spec (fees * rate) SafeMath.MAX_UINT256); [| discriminate].
  destruct (Z.ltb_spec 0 decimals) as [Hd |]; [| discriminate].
  injection Hp as <-. injection Hfe as <-.
  repeat (split; [first [assumption | reflexivity] |]).
  pose proof (Z.mul_div_le (amount * rate) decimals Hd).
  pose proof (Z.mul_succ_div_gt (amount * rate) decimals Hd).
  pose proof (Z.mul_div_le (fees * rate) decimals Hd).
  pose proof (Z.mul_succ_div_gt (fees * rate) decimals Hd).
  lia.
Qed.

(** X19. With a fresh rate, [getConversions] reverts in the arithmetic in
    two cases only: a product of an amount by the rate that does not fit
    in 256 bits, and a divisor that is zero. *)
Theorem getConversions_arithmetic_reverts (now : Z) (path : list string)
    (amount fees rate oldest decimals : Z) :
  0 <= amount <= SafeMath.MAX_UINT256 ->
  0 <= fees <= SafeMath.MAX_UINT256 ->
  getRate path = Ok (rate, oldest, decimals) ->
  0 <= rate <= SafeMath.MAX_UINT256 ->
  oldest <= now -> now - oldest <= 600 ->
  (SafeMath.MAX_UINT256 < amount * rate ->
   getConversions now path amount fees
   = Throw "SafeMath: multiplication overflow") /\
  (amount * rate <= SafeMath.MAX_UINT256 -> decimals <= 0 ->
   getConversions now path amount fees = Throw "SafeMath: division by zero") /\
  (amount * rate <= SafeMath.MAX_UINT256 -> 0 < decimals ->
   SafeMath.MAX_UINT256 < fees * rate ->
   getConversions now path amount fees
   = Throw "SafeMath: multiplication overflow") /\
  (amount * rate <= SafeMath.MAX_UINT256 -> 0 < decimals ->
   fees * rate <= SafeMath.MAX_UINT256 ->
   getConversions now path amount fees
   = Ok (amount * rate / decimals, fees * rate / decimals)).
Proof.
  intros Ha Hf Hrate Hr Hle Hfresh.
  rewrite (getConversions_after_rate _ _ _ _ _ _ _ Hrate Hle).
  unfold maxTimestampDeltaAcceptable.
  destruct (Z.leb_spec (now - oldest) 600); [| lia].
  rewrite (convert_spec _ _ _ Ha Hr), (convert_spec _ _ _ Hf Hr).
  repeat split.
  - intros Hover. destruct (Z.leb_spec (amount * rate) SafeMath.MAX_UINT256);
      [lia | reflexivity].
  - intros Hfit Hzero.
    destruct (Z.leb_spec (amount * rate) SafeMath.MAX_UINT256); [| lia].
    destruct (Z.ltb_spec 0 decimals); [lia | reflexivity].
  - intros Hfit Hd Hover.
    destruct (Z.leb_spec (amount * rate) SafeMath.MAX_UINT256); [| lia].
    destruct (Z.ltb_spec 0 decimals); [| lia]. simpl.
    destruct (Z.leb_spec (fees * rate) SafeMath.MAX_UINT256); [lia | reflexivity].
  - intros Hfit Hd Hfit2.
    destruct (Z.leb_spec (amount * rate) SafeMath.MAX_UINT256); [| lia].
    destruct (Z.ltb_spec 0 decimals); [| lia]. simpl.
    destruct (Z.leb_spec (fees * rate) SafeMath.MAX_UINT256); [| lia].
    reflexivity.
Qed.

(** ** [transferFromWithReferenceAndFee] *)

Lemma at_last_spec (path : list string) :
  at_last path = match last path with Some a => Ok a | None => Throw "" end.
Proof.
  destruct path as [| a rest]; [reflexivity |].
  unfold at_last, at_index.
  assert (H : nth_error (a :: rest) (length (a :: rest) - 1) = last (a :: rest)).
  { revert a. induction rest as [| b rest IH]; intros a; [reflexivity |].
    specialize (IH b). simpl in IH |- *.
    rewrite Nat.sub_0_r in *. destruct rest; [reflexivity | exact IH]. }
  rewrite H. reflexivity.
Qed.

(** X20. What a transfer that went through tells. The path is not empty
    and does not end with the zero address; the rate of the path is at
    most 600 seconds older than the block; the payment proxy was called,
    with success, for the last currency of the path, the recipient, and
    the two converted amounts, whose sum does not exceed the limit of the
    payer; and the event carries the request amount and fee as they were
    given, the first currency of the path as request currency and the last
    as payment currency. *)
Theorem transferFromWithReferenceAndFee_ok_inv (now : Z)
    (recipient : string) (amount : Z) (path : list string) (ref : string)
    (fees : Z) (feesRecipient : string) (maxToSpend : Z) (receipt : Receipt) :
  transferFromWithReferenceAndFee now recipient amount path ref fees
    feesRecipient maxToSpend = Ok receipt ->
  exists first final rate oldest decimals,
    head path = Some first /\ last path = Some final /\
    final <> ZERO_ADDRESS /\
    getRate path = Ok (rate, oldest, decimals) /\
    oldest <= now <= oldest + 600 /\
    convert amount rate decimals = Ok (call_amount (proxyCall receipt)) /\
    convert fees rate decimals = Ok (call_feeAmount (proxyCall receipt)) /\
    0 <= call_amount (proxyCall receipt) /\
    0 <= call_feeAmount (proxyCall receipt) /\
    call_amount (proxyCall receipt) + call_feeAmount (proxyCall receipt)
    <= maxToSpend /\
    delegatecall (proxyCall receipt) = true /\
    call_tokenAddress (proxyCall receipt) = final /\
    call_to (proxyCall receipt) = recipient /\
    call_paymentReference (proxyCall receipt) = ref /\
    call_feeAddress (proxyCall receipt) = feesRecipient /\
    emitted receipt =
    {| paymentCurrency := final; to := recipient; requestAmount := amount;
       requestCurrency := first; paymentReference := ref;
       feesRequestAmount := fees; feesTo := feesRecipient |}.
Proof.
  unfold transferFromWithReferenceAndFee. rewrite !at_last_spec. intros Hres.
  destruct (last path) as [final |] eqn:Hlast; [| discriminate].
  simpl in Hres. unfold require in Hres.
  destruct (String.eqb_spec final ZERO_ADDRESS) as [| Hnz]; [discriminate |].
  simpl in Hres.
  destruct (getConversions now path amount fees) as [[p f] |] eqn:Hconv;
    [| discriminate].
  simpl in Hres.
  destruct (getConversions_ok_inv _ _ _ _ _ _ Hconv)
    as (rate & oldest & decimals & Hrate & Hfresh & Hp & Hf).
  pose proof (convert_range _ _ _ _ Hp) as Hpr.
  pose proof (convert_range _ _ _ _ Hf) as Hfr.
  rewrite (add_spec _ _ Hpr Hfr) in Hres.
  destruct (Z.leb_spec (p + f) SafeMath.MAX_UINT256); [| discriminate].
  simpl in Hres.
  destruct (Z.leb_spec (p + f) maxToSpend) as [Hcap |]; [| discriminate].
  simpl in Hres.
  destruct (delegatecall _) eqn:Hcall; [| discriminate].
  simpl in Hres. unfold at_index in Hres.
  destruct path as [| first rest]; [discriminate |].
  simpl in Hres. injection Hres as <-.
  exists first, final, rate, oldest, decimals. simpl.
  unfold maxTimestampDeltaAcceptable in Hfresh.
  repeat (split; [first [assumption | reflexivity | lia] |]).
  reflexivity.
Qed.

(** X21. Two paths are refused before any rate is read: the empty path,
    which stops the transaction, and a path that ends with the zero
    address, which stands for ETH. *)
Theorem transferFromWithReferenceAndFee_refused_paths (now : Z)
    (recipient : string) (amount : Z) (path : list string) (ref : string)
    (fees : Z) (feesRecipient : string) (maxToSpend : Z) :
  (path = [] ->
   transferFromWithReferenceAndFee now recipient amount path ref fees
     feesRecipient maxToSpend = Throw "") /\
  (last path = Some ZERO_ADDRESS ->
   transferFromWithReferenceAndFee now recipient amount path ref fees
     feesRecipient maxToSpend = Throw "ETH not supported yet").
Proof.
  unfold transferFromWithReferenceAndFee. rewrite !at_last_spec. split.
  - intros ->. reflexivity.
  - intros ->. reflexivity.
Qed.

(** X22. The limit of the payer is enforced on the converted amounts: on
    a path that is accepted, with a rate that gives the amounts [p] and
    [f], the transfer is refused when [p + f] is above the limit, and the
    payment proxy is then not part of the outcome. *)
Theorem transferFromWithReferenceAndFee_over_limit (now : Z)
    (recipient : string) (amount : Z) (path : list string) (ref : string)
    (fees : Z) (feesRecipient : string) (maxToSpend p f : Z) (final : string) :
  last path = Some final -> final <> ZERO_ADDRESS ->
  getConversions now path amount fees = Ok (p, f) ->
  maxToSpend < p + f ->
  transferFromWithReferenceAndFee now recipient amount path ref fees
    feesRecipient maxToSpend
  = Throw (if p + f <=? SafeMath.MAX_UINT256
           then "Amount to pay is over the user limit"
           else "SafeMath: addition overflow").
Proof.
  intros Hlast Hnz Hconv Hover.
  unfold transferFromWithReferenceAndFee. rewrite !at_last_spec, Hlast. simpl.
  apply String.eqb_neq in Hnz. rewrite Hnz. simpl. rewrite Hconv. simpl.
  destruct (getConversions_ok_inv _ _ _ _ _ _ Hconv)
    as (rate & oldest & decimals & _ & _ & Hp & Hf).
  rewrite (add_spec _ _ (convert_range _ _ _ _ Hp) (convert_range _ _ _ _ Hf)).
  destruct (Z.leb_spec (p + f) SafeMath.MAX_UINT256); [| reflexivity].
  simpl. destruct (Z.leb_spec (p + f) maxToSpend); [lia | reflexivity].
Qed.

End ProxyChainlinkConversionPathMore.

(** ** Worked inputs for the contract *)

Lemma getConversions_exact_witness :
  0 < 10 ^ 18 /\
  120000000000000000000 * 10 ^ 18 <= 10000 * (12 * 10 ^ 33)
  < (120000000000000000000 + 1) * 10 ^ 18.
Proof.
  assert (Hamount : 0 <= 10000 <= SafeMath.MAX_UINT256)
    by (unfold SafeMath.MAX_UINT256; lia).
  assert (Hfees : 0 <= 100 <= SafeMath.MAX_UINT256)
    by (unfold SafeMath.MAX_UINT256; lia).
  assert (Hrate : 0 <= 12 * 10 ^ 33 <= SafeMath.MAX_UINT256)
    by (unfold SafeMath.MAX_UINT256; lia).
  pose proof (@getConversions_exact (Samples.sampleOracle (1600000000 - 599))
                1600000000 [Samples.EUR_hash; Samples.DAI] 10000 100
                120000000000000000000 1200000000000000000
                (12 * 10 ^ 33) (1600000000 - 599) (10 ^ 18)
                Hamount Hfees eq_refl Hrate eq_refl)
    as (Hd & _ & _ & _ & _ & Hp & _).
  exact (conj Hd Hp).
Defined.

Lemma getConversions_arithmetic_reverts_witness :
  @ProxyChainlinkConversionPath.getConversions
    (Samples.sampleOracle (1600000000 - 599))
    1600000000 [Samples.EUR_hash; Samples.DAI] (2 ^ 200) 100
  = Throw "SafeMath: multiplication overflow" /\
  @ProxyChainlinkConversionPath.getConversions
    (Samples.sampleOracle (1600000000 - 599))
    1600000000 [Samples.EUR_hash; Samples.DAI] 10000 100
  = Ok (10000 * (12 * 10 ^ 33) / 10 ^ 18, 100 * (12 * 10 ^ 33) / 10 ^ 18).
Proof.
  assert (Hbig : 0 <= 2 ^ 200 <= SafeMath.MAX_UINT256)
    by (unfold SafeMath.MAX_UINT256; lia).
  assert (Hamount : 0 <= 10000 <= SafeMath.MAX_UINT256)
    by (unfold SafeMath.MAX_UINT256; lia).
  assert (Hfees : 0 <= 100 <= SafeMath.MAX_UINT256)
    by (unfold SafeMath.MAX_UINT256; lia).
  assert (Hrate : 0 <= 12 * 10 ^ 33 <= SafeMath.MAX_UINT256)
    by (unfold SafeMath.MAX_UINT256; lia).
  assert (Hle : 1600000000 - 599 <= 1600000000) by lia.
  assert (Hfresh : 1600000000 - (1600000000 - 599) <= 600) by lia.
  split.
  - pose proof (@getConversions_arithmetic_reverts
                  (Samples.sampleOracle (1600000000 - 599))
                  1600000000 [Samples.EUR_hash; Samples.DAI] (2 ^ 200) 100
                  (12 * 10 ^ 33) (1600000000 - 599) (10 ^ 18)
                  Hbig Hfees eq_refl Hrate Hle Hfresh) as (Hover & _).
    apply Hover. unfold SafeMath.MAX_UINT256. lia.
  - pose proof (@getConversions_arithmetic_reverts
                  (Samples.sampleOracle (1600000000 - 599))
                  1600000000 [Samples.EUR_hash; Samples.DAI] 10000 100
                  (12 * 10 ^ 33) (1600000000 - 599) (10 ^ 18)
                  Hamount Hfees eq_refl Hrate Hle Hfresh) as (_ & _ & _ & Hok).
    apply Hok; unfold SafeMath.MAX_UINT256; lia.
Defined.

Lemma getConversions_rate_from_the_future_witness :
  @ProxyChainlinkConversionPath.getConversions
    (Samples.sampleOracle (1600000000 + 15))
    1600000000 [Samples.EUR_hash; Samples.DAI] 10000 100
  = Throw "SafeMath: subtraction overflow".
Proof.
  apply (@getConversions_rate_from_the_future
           (Samples.sampleOracle (1600000000 + 15))
           1600000000 [Samples.EUR_hash; Samples.DAI] 10000 100
           (12 * 10 ^ 33) (1600000000 + 15) (10 ^ 18) eq_refl).
  lia.
Defined.

Lemma transferFromWithReferenceAndFee_ok_inv_witness :
  exists receipt,
    @ProxyChainlinkConversionPath.transferFromWithReferenceAndFee
      (Samples.sampleOracle (1600000000 - 599)) Samples.samplePaymentProxy
      1600000000 Samples.payee1 10000 [Samples.EUR_hash; Samples.DAI]
      "0xea3bc7caf64110ca" 100 Samples.payer1 (125 * 10 ^ 18)
    = Ok receipt /\
    ProxyChainlinkConversionPath.call_amount
      (ProxyChainlinkConversionPath.proxyCall receipt)
    + ProxyChainlinkConversionPath.call_feeAmount
        (ProxyChainlinkConversionPath.proxyCall receipt)
    <= 125 * 10 ^ 18 /\
    ProxyChainlinkConversionPath.requestCurrency
      (ProxyChainlinkConversionPath.emitted receipt) = Samples.EUR_hash.
Proof.
  destruct (@ProxyChainlinkConversionPath.transferFromWithReferenceAndFee
              (Samples.sampleOracle (1600000000 - 599)) Samples.samplePaymentProxy
              1600000000 Samples.payee1 10000 [Samples.EUR_hash; Samples.DAI]
              "0xea3bc7caf64110ca" 100 Samples.payer1 (125 * 10 ^ 18))
    as [receipt | msg] eqn:Hres; [| vm_compute in Hres; discriminate Hres].
  exists receipt. split; [reflexivity |].
  destruct (transferFromWithReferenceAndFee_ok_inv _ _ _ _ _ _ _ _ _ Hres)
    as (first & final & rate & oldest & decimals & Hfirst & _ & _ & _ & _ & _ & _
        & _ & _ & Hcap & _ & _ & _ & _ & _ & Hevent).
  injection Hfirst as <-. split; [exact Hcap |]. now rewrite Hevent.
Defined.

Lemma transferFromWithReferenceAndFee_refused_paths_witness :
  @ProxyChainlinkConversionPath.transferFromWithReferenceAndFee
    (Samples.sampleOracle (1600000000 - 599)) Samples.samplePaymentProxy
    1600000000 Samples.payee1 10000 []
    "0xea3bc7caf64110ca" 100 Samples.payer1 (125 * 10 ^ 18)
  = Throw "" /\
  @ProxyChainlinkConversionPath.transferFromWithReferenceAndFee
    (Samples.sampleOracle (1600000000 - 599)) Samples.samplePaymentProxy
    1600000000 Samples.payee1 10000
    [Samples.EUR_hash; ProxyChainlinkConversionPath.ZERO_ADDRESS]
    "0xea3bc7caf64110ca" 100 Samples.payer1 (125 * 10 ^ 18)
  = Throw "ETH not supported yet".
Proof.
  split.
  - apply (proj1 (@transferFromWithReferenceAndFee_refused_paths
                    (Samples.sampleOracle (1600000000 - 599))
                    Samples.samplePaymentProxy
                    1600000000 Samples.payee1 10000 []
                    "0xea3bc7caf64110ca" 100 Samples.payer1 (125 * 10 ^ 18))).
    reflexivity.
  - apply (proj2 (@transferFromWithReferenceAndFee_refused_paths
                    (Samples.sampleOracle (1600000000 - 599))
                    Samples.samplePaymentProxy
                    1600000000 Samples.payee1 10000
                    [Samples.EUR_hash; ProxyChainlinkConversionPath.ZERO_ADDRESS]
                    "0xea3bc7caf64110ca" 100 Samples.payer1 (125 * 10 ^ 18))).
    reflexivity.
Defined.

Lemma transferFromWithReferenceAndFee_over_limit_witness :
  @ProxyChainlinkConversionPath.transferFromWithReferenceAndFee
    (Samples.sampleOracle (1600000000 - 599)) Samples.samplePaymentProxy
    1600000000 Samples.payee1 10000 [Samples.EUR_hash; Samples.DAI]
    "0xea3bc7caf64110ca" 100 Samples.payer1 (120 * 10 ^ 18)
  = Throw "Amount to pay is over the user limit".
Proof.
  apply (@transferFromWithReferenceAndFee_over_limit
           (Samples.sampleOracle (1600000000 - 599)) Samples.samplePaymentProxy
           1600000000 Samples.payee1 10000 [Samples.EUR_hash; Samples.DAI]
           "0xea3bc7caf64110ca" 100 Samples.payer1 (120 * 10 ^ 18)
           120000000000000000000 1200000000000000000 Samples.DAI).
  - reflexivity.
  - discriminate.
  - reflexivity.
  - lia.
Defined.

(* ===================================================================== *)
(** * Facts about [Map]s with their order *)
(* ===================================================================== *)

Section JsMapFacts.

Import Spec.
Context {V : Type}.
Implicit Types (m : list (string * V)) (k : string) (v : V).

Lemma get_set_eq m k v : JsMap.get k (JsMap.set k v m) = Some v.
Proof.
  induction m as [| [k' v'] rest IH]; simpl.
  - now rewrite String.eqb_refl.
  - destruct (String.eqb_spec k k') as [-> | Hne]; simpl.
    + now rewrite String.eqb_refl.
    + apply String.eqb_neq in Hne. now rewrite Hne.
Qed.

Lemma get_set_ne m k k' v :
  k <> k' -> JsMap.get k' (JsMap.set k v m) = JsMap.get k' m.
Proof.
  intros Hne. induction m as [| [k0 v0] rest IH]; simpl.
  - destruct (String.eqb_spec k' k); [congruence | reflexivity].
  - destruct (String.eqb_spec k k0) as [-> | Hk]; simpl.
    + destruct (String.eqb_spec k' k0); [congruence | reflexivity].
    + now rewrite IH.
Qed.

Lemma get_remove_eq m k : JsMap.get k (JsMap.remove k m) = None.
Proof.
  induction m as [| [k' v'] rest IH]; simpl; [reflexivity |].
  destruct (String.eqb_spec k k') as [-> | Hne]; simpl; [assumption |].
  apply String.eqb_neq in Hne. now rewrite Hne.
Qed.

Lemma get_remove_ne m k k' :
  k <> k' -> JsMap.get k' (JsMap.remove k m) = JsMap.get k' m.
Proof.
  intros Hne. induction m as [| [k0 v0] rest IH]; simpl; [reflexivity |].
  destruct (String.eqb_spec k k0) as [-> | Hk]; simpl.
  - destruct (String.eqb_spec k' k0); [congruence | assumption].
  - now rewrite IH.
Qed.

Lemma get_In m k v : JsMap.get k m = Some v -> In (k, v) m.
Proof.
  induction m as [| [k' v'] rest IH]; simpl; [discriminate |].
  destruct (String.eqb_spec k k') as [-> | Hne].
  - intros [= ->]. now left.
  - intros H. right. now apply IH.
Qed.

Lemma In_get m k v :
  NoDup (JsMap.keys m) -> In (k, v) m -> JsMap.get k m = Some v.
Proof.
  induction m as [| [k' v'] rest IH]; simpl; [tauto |].
  intros Hnd Hin. apply NoDup_cons in Hnd as [Hnotin Hnd].
  destruct Hin as [[= -> ->] | Hin].
  - now rewrite String.eqb_refl.
  - destruct (String.eqb_spec k k') as [-> | Hne]; [| now apply IH].
    exfalso. apply Hnotin. apply list_elem_of_In.
    change k' with (fst (k', v)). now apply in_map.
Qed.

Lemma keys_set m k v :
  JsMap.keys (JsMap.set k v m) =
  if JsMap.has k m then JsMap.keys m else JsMap.keys m ++ [k].
Proof.
  unfold JsMap.has. induction m as [| [k' v'] rest IH]; simpl; [reflexivity |].
  destruct (String.eqb_spec k k') as [-> | Hne]; simpl; [reflexivity |].
  rewrite IH. now destruct (JsMap.get k rest).
Qed.

Lemma keys_remove_incl m k x :
  In x (JsMap.keys (JsMap.remove k m)) -> In x (JsMap.keys m).
Proof.
  unfold JsMap.keys, JsMap.remove. intros Hin.
  apply in_map_iff in Hin as (e & <- & He).
  apply filter_In in He as [He _]. now apply in_map.
Qed.

Lemma get_None_keys m k : JsMap.get k m = None -> ~ In k (JsMap.keys m).
Proof.
  induction m as [| [k' v'] rest IH]; simpl; [tauto |].
  destruct (String.eqb_spec k k') as [-> | Hne]; [discriminate |].
  intros H [Heq | Hin]; [congruence | now apply IH].
Qed.

Lemma NoDup_keys_set m k v :
  NoDup (JsMap.keys m) -> NoDup (JsMap.keys (JsMap.set k v m)).
Proof.
  intros Hnd. rewrite keys_set. unfold JsMap.has.
  destruct (JsMap.get k m) eqn:E; [assumption |].
  apply NoDup_app. split; [assumption |]. split.
  - intros x Hx Hin. apply list_elem_of_In in Hx, Hin.
    destruct Hin as [<- | []]. now apply get_None_keys in E.
  - apply NoDup_singleton.
Qed.

Lemma NoDup_keys_remove m k :
  NoDup (JsMap.keys m) -> NoDup (JsMap.keys (JsMap.remove k m)).
Proof.
  unfold JsMap.keys, JsMap.remove.
  induction m as [| [k' v'] rest IH]; simpl; [auto |].
  intros Hnd. apply NoDup_cons in Hnd as [Hnotin Hnd].
  destruct (String.eqb k k'); simpl; [now apply IH |].
  apply NoDup_cons. split; [| now apply IH].
  intros Hin. apply Hnotin. apply list_elem_of_In. apply list_elem_of_In in Hin.
  now apply (keys_remove_incl rest k).
Qed.

Lemma content_get m k : contentOf m !! k = JsMap.get k m.
Proof.
  unfold contentOf. induction m as [| [k' v'] rest IH]; simpl.
  - apply lookup_empty.
  - rewrite lookup_insert. destruct (String.eqb_spec k k') as [-> | Hne].
    + now rewrite decide_True.
    + rewrite decide_False by congruence. assumption.
Qed.

Lemma content_set m k v : contentOf (JsMap.set k v m) = <[ k := v ]> (contentOf m).
Proof.
  apply map_eq. intros k'. rewrite content_get, lookup_insert.
  destruct (decide (k = k')) as [<- | Hne].
  - apply get_set_eq.
  - rewrite get_set_ne by assumption. symmetry. apply content_get.
Qed.

Lemma content_remove m k : contentOf (JsMap.remove k m) = delete k (contentOf m).
Proof.
  apply map_eq. intros k'. rewrite content_get.
  destruct (decide (k = k')) as [<- | Hne].
  - now rewrite get_remove_eq, lookup_delete_eq.
  - rewrite get_remove_ne, lookup_delete_ne by assumption.
    symmetry. apply content_get.
Qed.

Lemma content_size_zero m : Nat.eqb (length m) 0 = Nat.eqb (size (contentOf m)) 0.
Proof.
  destruct m as [| [k v] rest]; [reflexivity |].
  change (Nat.eqb (length ((k, v) :: rest)) 0) with false.
  symmetry. apply Nat.eqb_neq. intros Hs.
  apply map_size_empty_iff in Hs. unfold contentOf in Hs. simpl in Hs.
  now apply insert_non_empty in Hs.
Qed.

End JsMapFacts.

(* ===================================================================== *)
(** * The aggregator [Map]s with their order, the object and the graph *)
(* ===================================================================== *)

Section ChainlinkConversionPathToolsFacts.

Import ChainlinkTools ChainlinkConversionPathTools Spec.

Implicit Types (m obj : list (string * list (string * string))).
Implicit Types (args : AggregatorUpdatedArgs).

Lemma content2_get m k : contentOf2 m !! k = contentOf <$> JsMap.get k m.
Proof. unfold contentOf2. now rewrite lookup_fmap, content_get. Qed.

Lemma content2_set m k (inner : list (string * string)) :
  contentOf2 (JsMap.set k inner m) = <[ k := contentOf inner ]> (contentOf2 m).
Proof. unfold contentOf2. now rewrite content_set, fmap_insert. Qed.

Lemma content2_remove m k :
  contentOf2 (JsMap.remove k m) = delete k (contentOf2 m).
Proof. unfold contentOf2. now rewrite content_remove, fmap_delete. Qed.

(** One step of the reducer on ordered [Map]s has the content of one step
    on their contents. *)
Lemma reduceLog_content m args :
  contentOf2 (reduceLog m args) = updateAggregators (contentOf2 m) args.
Proof.
  unfold reduceLog, updateAggregators.
  destruct (String.eqb (_aggregator args) ZERO_ADDRESS).
  - rewrite content2_get.
    destruct (JsMap.get (_input args) m) as [outputs |] eqn:Hget; simpl.
    + rewrite get_set_eq, lookup_insert_eq, <- content_remove, <- content_size_zero.
      destruct (Nat.eqb (length (JsMap.remove (_output args) outputs)) 0).
      * now rewrite content2_remove, content2_set.
      * now rewrite content2_set.
    + rewrite Hget, content2_get, Hget. reflexivity.
  - rewrite content2_get. unfold JsMap.has.
    destruct (JsMap.get (_input args) m) as [outputs |] eqn:Hget; simpl.
    + now rewrite content2_set, content_set.
    + rewrite content2_set. unfold contentOf at 1. simpl.
      now rewrite insert_empty.
Qed.

Lemma Forall_set {V} (P : string * V -> Prop) (l : list (string * V)) k v :
  Forall P l -> P (k, v) -> Forall P (JsMap.set k v l).
Proof.
  intros Hall Hp. induction Hall as [| [k' v'] rest Hx Hrest IH]; simpl.
  - now constructor.
  - destruct (String.eqb_spec k k') as [<- | Hne]; constructor; assumption.
Qed.

Lemma Forall_remove {V} (P : string * V -> Prop) (l : list (string * V)) k :
  Forall P l -> Forall P (JsMap.remove k l).
Proof.
  intros Hall. unfold JsMap.remove. apply List.Forall_forall. intros x Hx.
  apply filter_In in Hx as [Hx _].
  rewrite List.Forall_forall in Hall. now apply Hall.
Qed.

Lemma Forall_get {V} (P : string * V -> Prop) (l : list (string * V)) k v :
  Forall P l -> JsMap.get k l = Some v -> P (k, v).
Proof.
  intros Hall Hget. rewrite List.Forall_forall in Hall.
  apply Hall. now apply get_In.
Qed.

Lemma reduceLog_distinctKeys m args :
  distinctKeys m -> distinctKeys (reduceLog m args).
Proof.
  intros [Hnd Hall]. unfold reduceLog.
  destruct (String.eqb (_aggregator args) ZERO_ADDRESS).
  - destruct (JsMap.get (_input args) m) as [outputs |] eqn:Hget.
    + assert (Hd : distinctKeys
                     (JsMap.set (_input args)
                        (JsMap.remove (_output args) outputs) m)).
      { split; [now apply NoDup_keys_set |].
        apply Forall_set; [assumption |]. simpl.
        apply NoDup_keys_remove.
        exact (Forall_get _ _ _ _ Hall Hget). }
      rewrite get_set_eq.
      destruct (Nat.eqb (length (JsMap.remove (_output args) outputs)) 0);
        [| assumption].
      destruct Hd as [Hd1 Hd2].
      split; [now apply NoDup_keys_remove | now apply Forall_remove].
    + rewrite Hget. now split.
  - unfold JsMap.has.
    destruct (JsMap.get (_input args) m) as [outputs |] eqn:Hget; simpl.
    + split; [now apply NoDup_keys_set |].
      apply Forall_set; [assumption |]. simpl.
      apply NoDup_keys_set. exact (Forall_get _ _ _ _ Hall Hget).
    + split; [now apply NoDup_keys_set |].
      apply Forall_set; [assumption |]. simpl.
      apply NoDup_singleton.
Qed.

Lemma aggregatorsMapsInOrder_snoc (logs : list AggregatorUpdatedArgs) args :
  aggregatorsMapsInOrder (logs ++ [args])
  = reduceLog (aggregatorsMapsInOrder logs) args.
Proof. unfold aggregatorsMapsInOrder. now rewrite fold_left_app. Qed.

Lemma aggregatorsMapsInOrder_content (logs : list AggregatorUpdatedArgs) :
  contentOf2 (aggregatorsMapsInOrder logs) = aggregatorsMaps logs.
Proof.
  induction logs as [| e logs IH] using rev_ind; [reflexivity |].
  now rewrite aggregatorsMapsInOrder_snoc, aggregatorsMaps_snoc,
    reduceLog_content, IH.
Qed.

Lemma aggregatorsMapsInOrder_distinctKeys (logs : list AggregatorUpdatedArgs) :
  distinctKeys (aggregatorsMapsInOrder logs).
Proof.
  induction logs as [| e logs IH] using rev_ind.
  - split; constructor.
  - rewrite aggregatorsMapsInOrder_snoc. now apply reduceLog_distinctKeys.
Qed.

Lemma inOrder_edge (logs : list AggregatorUpdatedArgs) i o :
  JsMap.get i (aggregatorsMapsInOrder logs) ≫= JsMap.get o
  = edge (aggregatorsMaps logs) i o.
Proof.
  rewrite <- (aggregatorsMapsInOrder_content logs). unfold edge.
  rewrite content2_get.
  destruct (JsMap.get i (aggregatorsMapsInOrder logs)); simpl;
    [now rewrite content_get | reflexivity].
Qed.

Lemma inOrder_outputs (logs : list AggregatorUpdatedArgs) i outs :
  JsMap.get i (aggregatorsMapsInOrder logs) = Some outs ->
  NoDup (JsMap.keys outs) /\ outs <> [].
Proof.
  destruct (aggregatorsMapsInOrder_distinctKeys logs) as [_ Hall].
  intros Hget. split; [exact (Forall_get _ _ _ _ Hall Hget) |].
  intros ->.
  apply (aggregatorsMaps_pruned logs i ∅); [| reflexivity].
  rewrite <- (aggregatorsMapsInOrder_content logs), content2_get, Hget.
  reflexivity.
Qed.

(** X23. The reducer on [Map]s with their iteration order builds, for
    every stream of events, [Map]s whose entries are those of the map
    without order: the order of the entries bears no content. Its keys
    are distinct at both levels and no input currency is kept with an
    empty [Map] of outputs. *)
Theorem aggregatorsMapsInOrder_refines (logs : list AggregatorUpdatedArgs) :
  contentOf2 (aggregatorsMapsInOrder logs) = aggregatorsMaps logs /\
  (forall input output,
     JsMap.get input (aggregatorsMapsInOrder logs) ≫= JsMap.get output
     = edge (aggregatorsMaps logs) input output) /\
  NoDup (JsMap.keys (aggregatorsMapsInOrder logs)) /\
  (forall input outputs,
     JsMap.get input (aggregatorsMapsInOrder logs) = Some outputs ->
     NoDup (JsMap.keys outputs) /\ outputs <> []).
Proof.
  split; [apply aggregatorsMapsInOrder_content |].
  split; [apply inOrder_edge |].
  split; [apply aggregatorsMapsInOrder_distinctKeys | apply inOrder_outputs].
Qed.

(** ** From the [Map]s to the object *)

Lemma fillObject_fold (k1 : string) (entries : list (string * string)) obj acc :
  JsMap.get (Js.toLowerCase k1) obj = Some acc ->
  JsMap.get (Js.toLowerCase k1) (fold_left (fillObject k1) entries obj)
  = Some (lowerEntries entries acc) /\
  (forall x, x <> Js.toLowerCase k1 ->
     JsMap.get x (fold_left (fillObject k1) entries obj) = JsMap.get x obj).
Proof.
  revert obj acc. induction entries as [| [k2 a] rest IH]; intros obj acc Hget.
  - simpl. auto.
  - simpl.
    assert (Hstep : JsMap.get (Js.toLowerCase k1) (fillObject k1 obj (k2, a))
                    = Some (JsMap.set (Js.toLowerCase k2) a acc)).
    { unfold fillObject. simpl. rewrite Hget. simpl. apply get_set_eq. }
    destruct (IH _ _ Hstep) as [Hin Hout]. split; [exact Hin |].
    intros x Hx. rewrite (Hout x Hx). unfold fillObject.
    apply get_set_ne. congruence.
Qed.

Lemma addToObject_get obj (k1 : string) (entries : list (string * string)) x :
  JsMap.get x (addToObject obj (k1, entries)) =
  if decide (x = Js.toLowerCase k1) then Some (lowerEntries entries [])
  else JsMap.get x obj.
Proof.
  unfold addToObject. simpl.
  destruct (fillObject_fold k1 entries
              (JsMap.set (Js.toLowerCase k1) [] obj) [] (get_set_eq _ _ _))
    as [Hin Hout].
  destruct (decide (x = Js.toLowerCase k1)) as [-> | Hne]; [exact Hin |].
  rewrite (Hout x Hne). apply get_set_ne. congruence.
Qed.

Lemma asObject_untouched m obj x :
  ~ In x (map Js.toLowerCase (JsMap.keys m)) ->
  JsMap.get x (fold_left addToObject m obj) = JsMap.get x obj.
Proof.
  revert obj. induction m as [| [k1 e] rest IH]; intros obj Hnot; [reflexivity |].
  simpl in *. rewrite IH by tauto. rewrite addToObject_get.
  destruct (decide (x = Js.toLowerCase k1)) as [-> | _]; [tauto | reflexivity].
Qed.

Lemma asObject_complete m obj k1 e :
  NoDup (map Js.toLowerCase (JsMap.keys m)) -> In (k1, e) m ->
  JsMap.get (Js.toLowerCase k1) (fold_left addToObject m obj)
  = Some (lowerEntries e []).
Proof.
  revert obj. induction m as [| [k0 e0] rest IH]; intros obj Hnd Hin; [destruct Hin |].
  simpl in *. apply NoDup_cons in Hnd as [Hnotin Hnd].
  destruct Hin as [[= -> ->] | Hin].
  - rewrite asObject_untouched
      by (intros H; apply Hnotin; now apply list_elem_of_In).
    rewrite addToObject_get. now rewrite decide_True.
  - now apply IH.
Qed.

Lemma asObject_sound m obj x inner :
  JsMap.get x (fold_left addToObject m obj) = Some inner ->
  (exists k1 e, In (k1, e) m /\ Js.toLowerCase k1 = x /\ inner = lowerEntries e [])
  \/ JsMap.get x obj = Some inner.
Proof.
  revert obj. induction m as [| [k0 e0] rest IH]; intros obj Hget; [now right |].
  simpl in Hget. apply IH in Hget as [(k1 & e & Hin & Hk & He) | Hget].
  - left. exists k1, e. split; [now right | auto].
  - rewrite addToObject_get in Hget.
    destruct (decide (x = Js.toLowerCase k0)) as [-> | _]; [| now right].
    injection Hget as <-. left. exists k0, e0. split; [now left | auto].
Qed.

Lemma lowerEntries_untouched (entries acc : list (string * string)) y :
  ~ In y (map Js.toLowerCase (JsMap.keys entries)) ->
  JsMap.get y (lowerEntries entries acc) = JsMap.get y acc.
Proof.
  revert acc. induction entries as [| [k2 a] rest IH]; intros acc Hnot;
    [reflexivity |].
  simpl in *. unfold lowerEntries in *. simpl. rewrite IH by tauto.
  apply get_set_ne. tauto.
Qed.

Lemma lowerEntries_complete (entries acc : list (string * string)) k2 a :
  NoDup (map Js.toLowerCase (JsMap.keys entries)) -> In (k2, a) entries ->
  JsMap.get (Js.toLowerCase k2) (lowerEntries entries acc) = Some a.
Proof.
  revert acc. induction entries as [| [k0 a0] rest IH]; intros acc Hnd Hin;
    [destruct Hin |].
  simpl in *. apply NoDup_cons in Hnd as [Hnotin Hnd].
  destruct Hin as [[= -> ->] | Hin].
  - unfold lowerEntries. simpl. fold (lowerEntries rest).
    change (fold_left _ rest ?x) with (lowerEntries rest x).
    rewrite lowerEntries_untouched
      by (intros H; apply Hnotin; now apply list_elem_of_In).
    apply get_set_eq.
  - unfold lowerEntries. simpl. now apply IH.
Qed.

Lemma lowerEntries_sound (entries acc : list (string * string)) y a :
  JsMap.get y (lowerEntries entries acc) = Some a ->
  (exists k2, In (k2, a) entries /\ Js.toLowerCase k2 = y)
  \/ JsMap.get y acc = Some a.
Proof.
  revert acc. induction entries as [| [k0 a0] rest IH]; intros acc Hget;
    [now right |].
  unfold lowerEntries in Hget. simpl in Hget.
  apply IH in Hget as [(k2 & Hin & Hk) | Hget].
  - left. exists k2. split; [now right | assumption].
  - destruct (decide (Js.toLowerCase k0 = y)) as [<- | Hne].
    + rewrite get_set_eq in Hget. injection Hget as <-.
      left. exists k0. split; [now left | reflexivity].
    + rewrite get_set_ne in Hget by assumption. now right.
Qed.

(** Lower-case keys. *)
Lemma lowerEntries_lowerCased (entries acc : list (string * string)) :
  Forall (fun inner => Js.toLowerCase (fst inner) = fst inner) acc ->
  Forall (fun inner => Js.toLowerCase (fst inner) = fst inner)
         (lowerEntries entries acc).
Proof.
  revert acc. induction entries as [| [k2 a] rest IH]; intros acc Hacc;
    [assumption |].
  unfold lowerEntries. simpl. apply IH. apply Forall_set; [assumption |].
  simpl. apply toLowerCase_idempotent.
Qed.

Lemma set_lowerCased obj (k : string) (inner : list (string * string)) :
  lowerCased obj ->
  Forall (fun i => Js.toLowerCase (fst i) = fst i) inner ->
  lowerCased (JsMap.set (Js.toLowerCase k) inner obj).
Proof.
  intros Hobj Hinner. apply Forall_set; [assumption |]. simpl.
  split; [apply toLowerCase_idempotent | assumption].
Qed.

Lemma fillObject_lowerCased (k1 : string) (entries : list (string * string)) obj :
  lowerCased obj -> lowerCased (fold_left (fillObject k1) entries obj).
Proof.
  revert obj. induction entries as [| [k2 a] rest IH]; intros obj Hobj;
    [assumption |].
  simpl. apply IH. unfold fillObject. simpl. apply set_lowerCased; [assumption |].
  apply Forall_set; [| apply toLowerCase_idempotent].
  destruct (JsMap.get (Js.toLowerCase k1) obj) as [inner |] eqn:Hget; simpl;
    [| constructor].
  exact (proj2 (Forall_get _ _ _ _ Hobj Hget)).
Qed.

Lemma asObject_lowerCased m obj :
  lowerCased obj -> lowerCased (fold_left addToObject m obj).
Proof.
  revert obj. induction m as [| [k1 e] rest IH]; intros obj Hobj; [assumption |].
  simpl. apply IH. unfold addToObject. simpl.
  apply fillObject_lowerCased. apply set_lowerCased; [assumption | constructor].
Qed.

Lemma getAggregators_keys (logs : list AggregatorUpdatedArgs) :
  lowerCased (getAggregators logs).
Proof. apply asObject_lowerCased. constructor. Qed.

(** X24. Every key of the object [getAggregators] returns is in lower
    case, for the input currencies and for the output currencies. *)
Theorem getAggregators_lowerCased (logs : list AggregatorUpdatedArgs) :
  lowerCased (getAggregators logs) /\
  (forall x y a, objectEdge (getAggregators logs) x y = Some a ->
     Js.toLowerCase x = x /\ Js.toLowerCase y = y).
Proof.
  pose proof (getAggregators_keys logs) as Hlower.
  split; [exact Hlower |].
  intros x y a Hedge. unfold objectEdge in Hedge.
  destruct (JsMap.get x (getAggregators logs)) as [inner |] eqn:Hx;
    [| discriminate].
  simpl in Hedge.
  destruct (Forall_get _ _ _ _ Hlower Hx) as [Hkx Hinner]. simpl in *.
  split; [exact Hkx |].
  exact (Forall_get _ _ _ _ Hinner Hedge).
Qed.


(** ** The object against the map of the events *)

Lemma edge_has_event (logs : list AggregatorUpdatedArgs) i o a :
  edge (aggregatorsMaps logs) i o = Some a ->
  exists e, In e logs /\ _input e = i /\ _output e = o.
Proof.
  induction logs as [| e logs IH] using rev_ind.
  - unfold aggregatorsMaps, edge. simpl. now rewrite lookup_empty.
  - rewrite aggregatorsMaps_snoc, updateAggregators_edges.
    destruct (decide (i = _input e /\ o = _output e)) as [[-> ->] | _].
    + intros _. exists e. split; [apply in_or_app; right; now left | auto].
    + intros H. destruct (IH H) as (e' & Hin & Hi & Ho).
      exists e'. split; [apply in_or_app; now left | auto].
Qed.

Lemma NoDup_map_on {A B} (f : A -> B) (l : list A) :
  NoDup l -> (forall x y, In x l -> In y l -> f x = f y -> x = y) ->
  NoDup (map f l).
Proof.
  induction l as [| a rest IH]; intros Hnd Hinj; simpl; [constructor |].
  apply NoDup_cons in Hnd as [Hnotin Hnd]. apply NoDup_cons. split.
  - intros Hin. apply list_elem_of_In, in_map_iff in Hin as (b & Hfb & Hb).
    apply Hnotin, list_elem_of_In.
    rewrite (Hinj a b); [assumption | now left | now right | congruence].
  - apply IH; [assumption |]. intros x y Hx Hy. apply Hinj; now right.
Qed.

Lemma In_keys {V} (l : list (string * V)) k :
  In k (JsMap.keys l) <-> exists v, In (k, v) l.
Proof.
  unfold JsMap.keys. rewrite in_map_iff. split.
  - intros ([k' v] & <- & Hin). eauto.
  - intros (v & Hin). exists (k, v). auto.
Qed.

(** The entries of the ordered [Map]s are the edges of the map. *)
Lemma entries_are_edges (logs : list AggregatorUpdatedArgs) i o a :
  (exists outs, In (i, outs) (aggregatorsMapsInOrder logs) /\ In (o, a) outs) <->
  edge (aggregatorsMaps logs) i o = Some a.
Proof.
  pose proof (inOrder_edge logs) as Hedge.
  destruct (aggregatorsMapsInOrder_distinctKeys logs) as [Hnd _].
  pose proof (inOrder_outputs logs) as Hinner.
  rewrite <- Hedge. split.
  - intros (outs & Hi & Ho).
    assert (Hgi := In_get _ _ _ Hnd Hi). rewrite Hgi. simpl.
    apply In_get; [apply (Hinner _ _ Hgi) | assumption].
  - destruct (JsMap.get i (aggregatorsMapsInOrder logs)) as [outs |] eqn:Hgi;
      [| discriminate].
    simpl. intros Hgo. exists outs. split; now apply get_In.
Qed.

Lemma sameCase_keys (logs : list AggregatorUpdatedArgs) :
  sameCase logs ->
  NoDup (map Js.toLowerCase (JsMap.keys (aggregatorsMapsInOrder logs))) /\
  (forall i outs, In (i, outs) (aggregatorsMapsInOrder logs) ->
     NoDup (map Js.toLowerCase (JsMap.keys outs))).
Proof.
  intros Hcase.
  destruct (aggregatorsMapsInOrder_distinctKeys logs) as [Hnd _].
  pose proof (inOrder_outputs logs) as Hinner.
  assert (Hentry : forall i outs, In (i, outs) (aggregatorsMapsInOrder logs) ->
            NoDup (JsMap.keys outs) /\
            (forall o, In o (JsMap.keys outs) ->
               exists e, In e logs /\ _input e = i /\ _output e = o) /\
            exists e, In e logs /\ _input e = i).
  { intros i outs Hin.
    destruct (Hinner _ _ (In_get _ _ _ Hnd Hin)) as [Hndo Hne].
    assert (Hout : forall o, In o (JsMap.keys outs) ->
                     exists e, In e logs /\ _input e = i /\ _output e = o).
    { intros o Ho. apply In_keys in Ho as (a & Ho).
      apply (edge_has_event logs i o a). apply entries_are_edges. eauto. }
    split; [assumption |]. split; [assumption |].
    destruct outs as [| [o a] rest]; [congruence |].
    destruct (Hout o) as (e & He & Hi & _); [now left | eauto]. }
  split.
  - apply NoDup_map_on; [assumption |]. intros x y Hx Hy Heq.
    apply In_keys in Hx as (ox & Hx). apply In_keys in Hy as (oy & Hy).
    destruct (Hentry _ _ Hx) as (_ & _ & ex & Hex & <-).
    destruct (Hentry _ _ Hy) as (_ & _ & ey & Hey & <-).
    now apply (Hcase ex ey Hex Hey).
  - intros i outs Hin. destruct (Hentry _ _ Hin) as (Hndo & Hout & _).
    apply NoDup_map_on; [assumption |]. intros x y Hx Hy Heq.
    destruct (Hout _ Hx) as (ex & Hex & _ & <-).
    destruct (Hout _ Hy) as (ey & Hey & _ & <-).
    now apply (Hcase ex ey Hex Hey).
Qed.

Lemma object_edges_sound (logs : list AggregatorUpdatedArgs) x y a :
  objectEdge (getAggregators logs) x y = Some a ->
  exists i o, Js.toLowerCase i = x /\ Js.toLowerCase o = y /\
              edge (aggregatorsMaps logs) i o = Some a.
Proof.
  intros Hedge. unfold objectEdge, getAggregators, aggregatorsAsObject in Hedge.
  destruct (JsMap.get x _) as [inner |] eqn:Hx; [| discriminate].
  simpl in Hedge.
  apply asObject_sound in Hx as [(k1 & e & Hin & Hk & ->) | Hx];
    [| discriminate].
  apply lowerEntries_sound in Hedge as [(k2 & Hin2 & Hk2) | Hedge];
    [| discriminate].
  exists k1, k2. repeat (split; [assumption |]).
  apply entries_are_edges. eauto.
Qed.

Lemma object_edges_complete (logs : list AggregatorUpdatedArgs) i o a :
  sameCase logs ->
  edge (aggregatorsMaps logs) i o = Some a ->
  objectEdge (getAggregators logs) (Js.toLowerCase i) (Js.toLowerCase o) = Some a.
Proof.
  intros Hcase Hedge.
  destruct (sameCase_keys logs Hcase) as [Houter Hinner].
  apply entries_are_edges in Hedge as (outs & Hi & Ho).
  unfold objectEdge, getAggregators, aggregatorsAsObject.
  rewrite (asObject_complete _ _ _ _ Houter Hi). simpl.
  apply lowerEntries_complete; [apply (Hinner _ _ Hi) | assumption].
Qed.

(** X25. The object of [getAggregators] against the registered edges.
    Every entry [obj[x][y]] of the object is the aggregator of an edge
    whose input and output currencies are [x] and [y] once lower-cased.
    When no two addresses of the logs differ by their case only, every
    registered edge is in the object under its lower-cased currencies. *)
Theorem getAggregators_edges (logs : list AggregatorUpdatedArgs) :
  (forall x y a, objectEdge (getAggregators logs) x y = Some a ->
     exists i o, Js.toLowerCase i = x /\ Js.toLowerCase o = y /\
                 edge (aggregatorsMaps logs) i o = Some a) /\
  (sameCase logs ->
   forall i o a, edge (aggregatorsMaps logs) i o = Some a ->
     objectEdge (getAggregators logs) (Js.toLowerCase i) (Js.toLowerCase o)
     = Some a).
Proof.
  split.
  - apply object_edges_sound.
  - intros Hcase i o a. now apply object_edges_complete.
Qed.

(** ** The graph *)

Implicit Types (nodes : gmap string (gmap string Z)).

Lemma weight_setWeight nodes a b x y :
  weight (setWeight a b nodes) x y =
  if decide (x = a /\ y = b) then Some 1 else weight nodes x y.
Proof.
  unfold weight, setWeight.
  destruct (decide (x = a)) as [-> | Hx].
  - rewrite lookup_insert_eq. simpl.
    destruct (decide (a = a /\ y = b)) as [[_ ->] | Hno].
    + apply lookup_insert_eq.
    + rewrite lookup_insert_ne by (intros <-; tauto).
      destruct (nodes !! a); simpl; [reflexivity | apply lookup_empty].
  - rewrite lookup_insert_ne by congruence.
    destruct (decide (x = a /\ y = b)); [tauto | reflexivity].
Qed.

Lemma weight_ensureNode nodes c x y :
  weight (ensureNode c nodes) x y = weight nodes x y.
Proof.
  unfold weight, ensureNode.
  destruct (nodes !! c) eqn:Hc; [reflexivity |].
  destruct (decide (x = c)) as [-> | Hx].
  - rewrite lookup_insert_eq, Hc. simpl. apply lookup_empty.
  - now rewrite lookup_insert_ne by congruence.
Qed.

Lemma weight_addOutput nodes ccyIn (inner : string * string) x y :
  weight (addOutput ccyIn nodes inner) x y =
  if decide ((x = ccyIn /\ y = Js.toLowerCase (fst inner)) \/
             (x = Js.toLowerCase (fst inner) /\ y = ccyIn))
  then Some 1 else weight nodes x y.
Proof.
  unfold addOutput. rewrite !weight_setWeight, weight_ensureNode.
  repeat (destruct (decide _)); try reflexivity; tauto.
Qed.

Lemma linked_addOutput nodes ccyIn (inner : string * string) x y :
  linked (addOutput ccyIn nodes inner) x y <->
  linked nodes x y \/
  (x = ccyIn /\ y = Js.toLowerCase (fst inner)) \/
  (x = Js.toLowerCase (fst inner) /\ y = ccyIn).
Proof.
  unfold linked. rewrite weight_addOutput.
  destruct (decide _) as [Hm | Hm]; tauto.
Qed.

Lemma unitWeights_addOutput nodes ccyIn (inner : string * string) :
  unitWeights nodes -> unitWeights (addOutput ccyIn nodes inner).
Proof.
  intros Hu x y w. rewrite weight_addOutput.
  destruct (decide _); [congruence | apply Hu].
Qed.

Lemma linked_addOutputs nodes ccyIn (entries : list (string * string)) x y :
  linked (fold_left (addOutput ccyIn) entries nodes) x y <->
  linked nodes x y \/
  exists k2, In k2 (JsMap.keys entries) /\
    ((x = ccyIn /\ y = Js.toLowerCase k2) \/ (x = Js.toLowerCase k2 /\ y = ccyIn)).
Proof.
  revert nodes. induction entries as [| [k a] rest IH]; intros nodes; simpl.
  - split; [tauto | intros [H | (? & [] & _)]; exact H].
  - rewrite IH, linked_addOutput. simpl. split.
    + intros [[H | H] | (k2 & Hin & H)]; [tauto | | ].
      * right. exists k. tauto.
      * right. exists k2. tauto.
    + intros [H | (k2 & [<- | Hin] & H)]; [tauto | tauto |].
      right. exists k2. tauto.
Qed.

Lemma unitWeights_addOutputs nodes ccyIn (entries : list (string * string)) :
  unitWeights nodes -> unitWeights (fold_left (addOutput ccyIn) entries nodes).
Proof.
  revert nodes. induction entries as [| e rest IH]; intros nodes Hu; simpl;
    [assumption |].
  apply IH. now apply unitWeights_addOutput.
Qed.

Lemma linked_ensureNode nodes c x y :
  linked (ensureNode c nodes) x y <-> linked nodes x y.
Proof. unfold linked. now rewrite weight_ensureNode. Qed.

Lemma linked_addInputs obj (l : list (string * list (string * string))) nodes x y :
  linked (fold_left (addInput obj) l nodes) x y <->
  linked nodes x y \/
  exists k1 k2, In k1 (JsMap.keys l) /\
    In k2 (JsMap.keys (default [] (JsMap.get (Js.toLowerCase k1) obj))) /\
    ((x = Js.toLowerCase k1 /\ y = Js.toLowerCase k2) \/
     (x = Js.toLowerCase k2 /\ y = Js.toLowerCase k1)).
Proof.
  revert nodes. induction l as [| [k e] rest IH]; intros nodes; simpl.
  - split; [tauto | intros [H | (? & ? & [] & _)]; exact H].
  - rewrite IH. unfold addInput. simpl.
    rewrite linked_addOutputs, linked_ensureNode. split.
    + intros [[H | (k2 & Hin & H)] | (k1 & k2 & Hin1 & Hin2 & H)]; [tauto | |].
      * right. exists k, k2. tauto.
      * right. exists k1, k2. tauto.
    + intros [H | (k1 & k2 & [<- | Hin1] & Hin2 & H)]; [tauto | |].
      * left. right. exists k2. tauto.
      * right. exists k1, k2. tauto.
Qed.

Lemma unitWeights_addInputs obj (l : list (string * list (string * string))) nodes :
  unitWeights nodes -> unitWeights (fold_left (addInput obj) l nodes).
Proof.
  revert nodes. induction l as [| e rest IH]; intros nodes Hu; simpl;
    [assumption |].
  apply IH. unfold addInput. apply unitWeights_addOutputs.
  intros x y w. rewrite weight_ensureNode. apply Hu.
Qed.

Lemma linked_empty x y : ~ linked ∅ x y.
Proof. unfold linked, weight. now rewrite lookup_empty. Qed.

(** X26. The graph of [listAggregators] is undirected and unweighted:
    whatever the object it is built from, every weight in it is 1 and an
    edge from one currency to another comes with the edge back. *)
Theorem aggregatorsNodesForDijkstra_symmetric obj :
  forall x y w,
    weight (aggregatorsNodesForDijkstra obj) x y = Some w ->
    w = 1 /\ weight (aggregatorsNodesForDijkstra obj) y x = Some 1.
Proof.
  intros x y w Hw.
  assert (Hu : unitWeights (aggregatorsNodesForDijkstra obj)).
  { apply unitWeights_addInputs. intros a b c.
    unfold weight. now rewrite lookup_empty. }
  assert (w = 1) as -> by exact (Hu _ _ _ Hw).
  split; [reflexivity |].
  change (linked (aggregatorsNodesForDijkstra obj) y x).
  change (linked (aggregatorsNodesForDijkstra obj) x y) in Hw.
  unfold aggregatorsNodesForDijkstra in *.
  apply linked_addInputs in Hw as [Hw | (k1 & k2 & H1 & H2 & H)];
    [now apply linked_empty in Hw |].
  apply linked_addInputs. right. exists k1, k2. tauto.
Qed.

Lemma keys_get_Some {V} (l : list (string * V)) k :
  In k (JsMap.keys l) <-> exists v, JsMap.get k l = Some v.
Proof.
  induction l as [| [k' v'] rest IH]; simpl.
  - split; [tauto | intros (? & ?); discriminate].
  - destruct (String.eqb_spec k k') as [-> | Hne].
    + split; [eauto | tauto].
    + rewrite IH. split; [intros [? | ?]; [congruence | assumption] | tauto].
Qed.

Lemma graph_links obj (x y : string) :
  lowerCased obj ->
  linked (aggregatorsNodesForDijkstra obj) x y <->
  (exists a, objectEdge obj x y = Some a) \/
  (exists a, objectEdge obj y x = Some a).
Proof.
  intros Hlower. unfold aggregatorsNodesForDijkstra.
  rewrite linked_addInputs.
  assert (Hpair : forall k1 k2,
            (In k1 (JsMap.keys obj) /\
             In k2 (JsMap.keys (default [] (JsMap.get (Js.toLowerCase k1) obj))))
            -> Js.toLowerCase k1 = k1 /\ Js.toLowerCase k2 = k2 /\
               exists a, objectEdge obj k1 k2 = Some a).
  { intros k1 k2 [H1 H2].
    apply keys_get_Some in H1 as (inner & Hget).
    destruct (Forall_get _ _ _ _ Hlower Hget) as [Hk1 Hinner]. simpl in *.
    rewrite Hk1, Hget in H2. simpl in H2.
    apply keys_get_Some in H2 as (a & Hget2).
    pose proof (Forall_get _ _ _ _ Hinner Hget2) as Hk2. simpl in Hk2.
    repeat (split; [assumption |]).
    exists a. unfold objectEdge. now rewrite Hget. }
  split.
  - intros [H | (k1 & k2 & H1 & H2 & H)]; [now apply linked_empty in H |].
    destruct (Hpair k1 k2 (conj H1 H2)) as (E1 & E2 & a & Ha).
    rewrite E1, E2 in H.
    destruct H as [[-> ->] | [-> ->]]; [left | right]; eauto.
  - assert (Hback : forall u v a, objectEdge obj u v = Some a ->
              In u (JsMap.keys obj) /\
              In v (JsMap.keys (default [] (JsMap.get (Js.toLowerCase u) obj))) /\
              Js.toLowerCase u = u /\ Js.toLowerCase v = v).
    { intros u v a Ha. unfold objectEdge in Ha.
      destruct (JsMap.get u obj) as [inner |] eqn:Hget; [| discriminate].
      simpl in Ha.
      destruct (Forall_get _ _ _ _ Hlower Hget) as [Hu Hinner]. simpl in *.
      pose proof (Forall_get _ _ _ _ Hinner Ha) as Hv. simpl in Hv.
      split; [apply keys_get_Some; eauto |].
      split; [| auto].
      rewrite Hu, Hget. simpl. apply keys_get_Some. eauto. }
    intros [(a & Ha) | (a & Ha)]; right.
    + destruct (Hback _ _ _ Ha) as (H1 & H2 & E1 & E2).
      exists x, y. split; [exact H1 |]. split; [exact H2 |].
      left. split; congruence.
    + destruct (Hback _ _ _ Ha) as (H1 & H2 & E1 & E2).
      exists y, x. split; [exact H1 |]. split; [exact H2 |].
      right. split; congruence.
Qed.


Lemma present_setWeight nodes a b c :
  is_Some (nodes !! c) -> is_Some (setWeight a b nodes !! c).
Proof.
  intros Hc. unfold setWeight. rewrite lookup_insert.
  destruct (decide (a = c)); [eauto | assumption].
Qed.

Lemma present_ensureNode nodes c c' :
  is_Some (nodes !! c') -> is_Some (ensureNode c nodes !! c').
Proof.
  intros Hc. unfold ensureNode. destruct (nodes !! c) eqn:E; [assumption |].
  rewrite lookup_insert. destruct (decide (c = c')); [eauto | assumption].
Qed.

Lemma present_ensureNode_self nodes c : is_Some (ensureNode c nodes !! c).
Proof.
  unfold ensureNode. destruct (nodes !! c) eqn:E; [rewrite E; eauto |].
  rewrite lookup_insert_eq. eauto.
Qed.

Lemma present_addOutputs nodes ccyIn (entries : list (string * string)) c :
  is_Some (nodes !! c) ->
  is_Some (fold_left (addOutput ccyIn) entries nodes !! c).
Proof.
  revert nodes. induction entries as [| e rest IH]; intros nodes Hc; simpl;
    [assumption |].
  apply IH. unfold addOutput.
  now apply present_setWeight, present_setWeight, present_ensureNode.
Qed.

Lemma present_addInputs obj (l : list (string * list (string * string))) nodes c :
  is_Some (nodes !! c) \/ In c (map Js.toLowerCase (JsMap.keys l)) ->
  is_Some (fold_left (addInput obj) l nodes !! c).
Proof.
  revert nodes. induction l as [| [k e] rest IH]; intros nodes; simpl.
  - intros [H | []]. exact H.
  - intros [H | [<- | H]]; apply IH.
    + left. unfold addInput. now apply present_addOutputs, present_ensureNode.
    + left. unfold addInput. simpl.
      apply present_addOutputs, present_ensureNode_self.
    + now right.
Qed.

(** X27. The graph against the object it is built from. Every key of the
    object is a node of the graph under its lower-cased name, with or
    without outputs. For an object whose keys are in lower case, two
    currencies are linked exactly when the object has an entry from one to
    the other, in either direction. *)
Theorem aggregatorsNodesForDijkstra_edges obj :
  (forall k, In k (JsMap.keys obj) ->
     is_Some (aggregatorsNodesForDijkstra obj !! Js.toLowerCase k)) /\
  (lowerCased obj ->
   forall x y,
     linked (aggregatorsNodesForDijkstra obj) x y <->
     (exists a, objectEdge obj x y = Some a) \/
     (exists a, objectEdge obj y x = Some a)).
Proof.
  split.
  - intros k Hk. apply present_addInputs. right. now apply in_map.
  - intros Hlower x y. now apply graph_links.
Qed.

(** X28. From the events to the graph: every link of the graph built on
    the object of [getAggregators] joins, in one direction or the other,
    the lower-cased currencies of a registered edge; and when no two
    addresses of the logs differ by their case only, every registered edge
    links its lower-cased currencies in both directions. *)
Theorem listAggregators_graph (logs : list AggregatorUpdatedArgs) :
  (forall x y, linked (aggregatorsNodesForDijkstra (getAggregators logs)) x y ->
     exists i o a, edge (aggregatorsMaps logs) i o = Some a /\
       ((Js.toLowerCase i = x /\ Js.toLowerCase o = y) \/
        (Js.toLowerCase i = y /\ Js.toLowerCase o = x))) /\
  (sameCase logs ->
   forall i o a, edge (aggregatorsMaps logs) i o = Some a ->
     linked (aggregatorsNodesForDijkstra (getAggregators logs))
       (Js.toLowerCase i) (Js.toLowerCase o) /\
     linked (aggregatorsNodesForDijkstra (getAggregators logs))
       (Js.toLowerCase o) (Js.toLowerCase i)).
Proof.
  pose proof (getAggregators_keys logs) as Hlower.
  split.
  - intros x y Hl.
    apply (graph_links _ x y Hlower) in Hl as [(a & Ha) | (a & Ha)];
      destruct (object_edges_sound _ _ _ _ Ha) as (i & o & Hi & Ho & He);
      exists i, o, a; tauto.
  - intros Hcase i o a He.
    pose proof (object_edges_complete _ _ _ _ Hcase He) as Hobj.
    split; apply graph_links; eauto.
Qed.

End ChainlinkConversionPathToolsFacts.

(* ===================================================================== *)
(** * Facts about [parseLogArgs] *)
(* ===================================================================== *)

Section ParseLogArgsFacts.

Import ChainlinkConversionPathTools.
Context {V : Type}.

Lemma set_new_key (prev : list (string * V)) (k : string) (v : V) :
  ~ In k (JsMap.keys prev) -> JsMap.set k v prev = prev ++ [(k, v)].
Proof.
  induction prev as [| [k' v'] rest IH]; simpl; intros Hnot; [reflexivity |].
  destruct (String.eqb_spec k k') as [-> | Hne]; [tauto |].
  rewrite IH by tauto. reflexivity.
Qed.

Lemma parseLogArgsFrom_named (prev : list (string * V)) (args : list V)
    (inputs : list string) :
  NoDup (JsMap.keys prev ++ inputs) -> (length args <= length inputs)%nat ->
  parseLogArgsFrom prev args inputs = Ok (prev ++ combine inputs args).
Proof.
  revert prev inputs. induction args as [| current rest IH]; intros prev inputs Hnd Hlen.
  - simpl. destruct inputs; simpl; now rewrite app_nil_r.
  - destruct inputs as [| name names]; simpl in *; [lia |].
    assert (Hnew : ~ In name (JsMap.keys prev)).
    { apply NoDup_app in Hnd as (_ & Hdisj & _). intros Hin.
      apply (Hdisj name); [now apply list_elem_of_In | left]. }
    rewrite (set_new_key _ _ _ Hnew), IH.
    + now rewrite <- app_assoc.
    + unfold JsMap.keys in *. rewrite map_app. simpl.
      rewrite <- app_assoc. exact Hnd.
    + lia.
Qed.

Lemma parseLogArgsFrom_unnamed (prev : list (string * V)) (args : list V)
    (inputs : list string) :
  (length inputs < length args)%nat ->
  parseLogArgsFrom prev args inputs
  = Throw "TypeError: Cannot read property 'name' of undefined".
Proof.
  revert prev inputs. induction args as [| current rest IH]; intros prev inputs Hlen;
    simpl in *; [lia |].
  destruct inputs as [| name names]; [reflexivity |].
  apply IH. simpl in Hlen. lia.
Qed.

(** X29. [parseLogArgs] names the arguments of a log after the inputs of
    the event fragment: when the names are distinct and there are at least
    as many of them as arguments, the object has one entry per argument,
    in order, under the name of the same rank, so that reading a name
    gives back the argument of that rank; an argument without a name
    makes the call fail. *)
Theorem parseLogArgs_named (args : list V) (inputs : list string) :
  ((length inputs < length args)%nat ->
   parseLogArgs args inputs
   = Throw "TypeError: Cannot read property 'name' of undefined") /\
  (NoDup inputs -> (length args <= length inputs)%nat ->
   parseLogArgs args inputs = Ok (combine inputs args) /\
   forall (i : nat) (name : string) (v : V),
     nth_error inputs i = Some name -> nth_error args i = Some v ->
     JsMap.get name (combine inputs args) = Some v).
Proof.
  split; [apply parseLogArgsFrom_unnamed |].
  intros Hnd Hlen. split; [now apply parseLogArgsFrom_named |].
  clear Hlen. revert args. induction inputs as [| n names IH]; intros args i name v.
  - destruct i; discriminate.
  - apply NoDup_cons in Hnd as [Hnotin Hnd].
    destruct args as [| a rest]; [destruct i; discriminate |].
    destruct i as [| i]; simpl.
    + intros [= ->] [= ->]. now rewrite String.eqb_refl.
    + intros Hname Hv.
      destruct (String.eqb_spec name n) as [-> | _]; [| now apply (IH Hnd rest i)].
      exfalso. apply Hnotin, list_elem_of_In.
      eapply nth_error_In. exact Hname.
Qed.

End ParseLogArgsFacts.

(** ** Worked inputs for the [Map]s, the object and the graph *)

Lemma sampleLogs_sameCase : Spec.sameCase Samples.sampleLogs.
Proof.
  intros e1 e2 [<- | [<- | []]] [<- | [<- | []]]; split; intros H;
    first [reflexivity | vm_compute in H; discriminate H].
Qed.

Lemma aggregatorsMapsInOrder_refines_witness :
  JsMap.get Samples.EUR_hash
    (ChainlinkConversionPathTools.aggregatorsMapsInOrder Samples.sampleLogs)
  = Some [(Samples.USD_hash, Samples.aggregatorEurUsd)] /\
  NoDup (JsMap.keys [(Samples.USD_hash, Samples.aggregatorEurUsd)]).
Proof.
  split; [reflexivity |].
  apply (proj2 (proj2 (proj2 (aggregatorsMapsInOrder_refines Samples.sampleLogs)))
           Samples.EUR_hash).
  reflexivity.
Defined.

Lemma getAggregators_lowerCased_witness :
  Js.toLowerCase (Js.toLowerCase Samples.EUR_hash) = Js.toLowerCase Samples.EUR_hash.
Proof.
  apply (proj2 (getAggregators_lowerCased Samples.sampleLogs)
           (Js.toLowerCase Samples.EUR_hash) (Js.toLowerCase Samples.USD_hash)
           Samples.aggregatorEurUsd).
  reflexivity.
Defined.

Lemma getAggregators_edges_witness :
  Spec.objectEdge (ChainlinkConversionPathTools.getAggregators Samples.sampleLogs)
    (Js.toLowerCase Samples.USD_hash) (Js.toLowerCase Samples.DAI)
  = Some Samples.aggregatorUsdDai.
Proof.
  apply (proj2 (getAggregators_edges Samples.sampleLogs) sampleLogs_sameCase).
  reflexivity.
Defined.

Lemma aggregatorsNodesForDijkstra_symmetric_witness :
  Spec.weight
    (ChainlinkConversionPathTools.aggregatorsNodesForDijkstra
       (ChainlinkConversionPathTools.getAggregators Samples.sampleLogs))
    (Js.toLowerCase Samples.DAI) (Js.toLowerCase Samples.USD_hash)
  = Some 1.
Proof.
  apply (aggregatorsNodesForDijkstra_symmetric
           (ChainlinkConversionPathTools.getAggregators Samples.sampleLogs)
           (Js.toLowerCase Samples.USD_hash) (Js.toLowerCase Samples.DAI) 1).
  reflexivity.
Defined.

Lemma aggregatorsNodesForDijkstra_edges_witness :
  Spec.linked
    (ChainlinkConversionPathTools.aggregatorsNodesForDijkstra
       (ChainlinkConversionPathTools.getAggregators Samples.sampleLogs))
    (Js.toLowerCase Samples.USD_hash) (Js.toLowerCase Samples.EUR_hash).
Proof.
  apply (proj2 (aggregatorsNodesForDijkstra_edges
                  (ChainlinkConversionPathTools.getAggregators Samples.sampleLogs))
           (getAggregators_keys Samples.sampleLogs)).
  right. exists Samples.aggregatorEurUsd. reflexivity.
Defined.

Lemma listAggregators_graph_witness :
  Spec.linked
    (ChainlinkConversionPathTools.aggregatorsNodesForDijkstra
       (ChainlinkConversionPathTools.getAggregators Samples.sampleLogs))
    (Js.toLowerCase Samples.EUR_hash) (Js.toLowerCase Samples.USD_hash) /\
  Spec.linked
    (ChainlinkConversionPathTools.aggregatorsNodesForDijkstra
       (ChainlinkConversionPathTools.getAggregators Samples.sampleLogs))
    (Js.toLowerCase Samples.USD_hash) (Js.toLowerCase Samples.EUR_hash).
Proof.
  apply (proj2 (listAggregators_graph Samples.sampleLogs) sampleLogs_sameCase
           Samples.EUR_hash Samples.USD_hash Samples.aggregatorEurUsd).
  reflexivity.
Defined.

Lemma parseLogArgs_named_witness :
  ChainlinkConversionPathTools.parseLogArgs
    [Samples.EUR_hash; Samples.USD_hash; Samples.aggregatorEurUsd]
    ["_input"; "_output"; "_aggregator"]
  = Ok [ ("_input", Samples.EUR_hash); ("_output", Samples.USD_hash);
         ("_aggregator", Samples.aggregatorEurUsd) ] /\
  ChainlinkConversionPathTools.parseLogArgs
    [Samples.EUR_hash; Samples.USD_hash; Samples.aggregatorEurUsd]
    ["_input"; "_output"]
  = Throw "TypeError: Cannot read property 'name' of undefined".
Proof.
  split.
  - apply (proj2 (parseLogArgs_named
                    [Samples.EUR_hash; Samples.USD_hash; Samples.aggregatorEurUsd]
                    ["_input"; "_output"; "_aggregator"])).
    + repeat (apply NoDup_cons; split;
              [intros H; apply list_elem_of_In in H; simpl in H;
               intuition discriminate |]).
      apply NoDup_nil. exact I.
    + simpl. lia.
  - apply (proj1 (parseLogArgs_named
                    [Samples.EUR_hash; Samples.USD_hash; Samples.aggregatorEurUsd]
                    ["_input"; "_output"])).
    simpl. lia.
Defined.
